(** * Form-filling assistant: field extraction, label matching and form filling

    A shallow embedding of [backend/extractor.py], [backend/form_filler.py]
    and [backend/form_filler_sync.py], and of the address handling of
    [backend/main.py].

    Python [str] values are modelled as [string]: sequences of characters
    whose code points are below 256, with Python's character classes
    ([str.isspace], [str.isalpha], [str.lower], the [re] classes) given on
    that range.  Python [dict]s with string keys are [gmap string string].

    Code that raises or mutates is written in a state monad with an
    explicit outcome.  The collaborators (the PDF parsers, OCR, the
    question-answering pipeline, Playwright) are parameters: the theorems
    hold for every behaviour of them.  Not modelled: what is printed and
    the keyword arguments that set delays and timeouts.  An interrupt from
    the keyboard is modelled where the code waits for the user, as the
    pause or the poll raising. *)

From Stdlib Require Import String Ascii List Bool Arith Lia QArith.
From stdpp Require Import base option gmap strings.
Import ListNotations.

Local Open Scope string_scope.
Local Open Scope list_scope.

(** ** Python string primitives *)

Module Py.

Definition code (c : ascii) : nat := nat_of_ascii c.

Definition between (lo hi : nat) (c : ascii) : bool :=
  (lo <=? code c)%nat && (code c <=? hi)%nat.

(** [str.isspace] on one character: TAB..CR, FS..US, SPACE, NEL, NBSP. *)
Definition is_space (c : ascii) : bool :=
  between 9 13 c || between 28 32 c || (code c =? 133)%nat || (code c =? 160)%nat.

Definition is_ascii_upper (c : ascii) : bool := between 65 90 c.
Definition is_ascii_lower (c : ascii) : bool := between 97 122 c.
Definition is_ascii_letter (c : ascii) : bool := is_ascii_upper c || is_ascii_lower c.
Definition is_ascii_digit (c : ascii) : bool := between 48 57 c.

(** Uppercase letters: A-Z and the Latin-1 capitals (all but the
    multiplication sign at 215). *)
Definition is_upper (c : ascii) : bool :=
  is_ascii_upper c || between 192 214 c || between 216 222 c.

(** Lowercase letters: a-z, the ordinal indicators, micro sign and the
    Latin-1 small letters (all but the division sign at 247). *)
Definition is_lower (c : ascii) : bool :=
  is_ascii_lower c || (code c =? 170)%nat || (code c =? 181)%nat ||
  (code c =? 186)%nat || between 223 246 c || between 248 255 c.

Definition is_alpha (c : ascii) : bool := is_upper c || is_lower c.

(** What [\w] accepts: letters, every numeric character and the underscore. *)
Definition is_word (c : ascii) : bool :=
  is_alpha c || is_ascii_digit c || (code c =? 95)%nat ||
  between 178 179 c || (code c =? 185)%nat || between 188 190 c.

Definition lower_char (c : ascii) : ascii :=
  if is_upper c then ascii_of_nat (code c + 32) else c.

(** Simple uppercase mapping, where the image stays below 256. *)
Definition upper_char (c : ascii) : ascii :=
  if is_ascii_lower c || between 224 246 c || between 248 254 c
  then ascii_of_nat (code c - 32) else c.

Fixpoint map_chars (f : ascii -> ascii) (s : string) : string :=
  match s with
  | EmptyString => EmptyString
  | String c s' => String (f c) (map_chars f s')
  end.

Fixpoint all_chars (p : ascii -> bool) (s : string) : bool :=
  match s with
  | EmptyString => true
  | String c s' => p c && all_chars p s'
  end.

Fixpoint any_char (p : ascii -> bool) (s : string) : bool :=
  match s with
  | EmptyString => false
  | String c s' => p c || any_char p s'
  end.

(** [s.lower()] *)
Definition lower (s : string) : string := map_chars lower_char s.

(** [s.isalpha()]: non-empty and every character alphabetic. *)
Definition isalpha (s : string) : bool :=
  negb (String.eqb s "") && all_chars is_alpha s.

(** [s.isupper()]: some cased character, and no lowercase one. *)
Definition isupper (s : string) : bool :=
  any_char is_upper s && negb (any_char is_lower s).

(** [len(s)] *)
Definition len (s : string) : nat := String.length s.

(** [sub in s] *)
Fixpoint contains (sub s : string) : bool :=
  String.prefix sub s ||
  match s with
  | EmptyString => false
  | String _ s' => contains sub s'
  end.

(** [any(k in s for k in ks)] *)
Definition any_in (ks : list string) (s : string) : bool :=
  existsb (fun k => contains k s) ks.

Fixpoint lstrip (s : string) : string :=
  match s with
  | EmptyString => EmptyString
  | String c s' => if is_space c then lstrip s' else s
  end.

Fixpoint rstrip (s : string) : string :=
  match s with
  | EmptyString => EmptyString
  | String c s' =>
      match rstrip s' with
      | EmptyString => if is_space c then EmptyString else String c EmptyString
      | r => String c r
      end
  end.

(** [s.strip()] *)
Definition strip (s : string) : string := rstrip (lstrip s).

(** [s.split(sep)] for a one-character separator: always at least one
    piece, empty pieces are kept. *)
Fixpoint split_on (sep : ascii) (s : string) : list string :=
  match s with
  | EmptyString => [EmptyString]
  | String c s' =>
      if Ascii.eqb c sep then EmptyString :: split_on sep s'
      else match split_on sep s' with
           | piece :: rest => String c piece :: rest
           | [] => [String c EmptyString]
           end
  end.

(** [s.split()]: maximal runs of non-whitespace characters.  The scan
    returns the run that is still open at the head of the string, and the
    runs closed after it. *)
Definition close_run (open : option string) (closed : list string) : list string :=
  match open with
  | Some w => w :: closed
  | None => closed
  end.

Fixpoint split_scan (s : string) : option string * list string :=
  match s with
  | EmptyString => (None, [])
  | String c s' =>
      let '(open, closed) := split_scan s' in
      if is_space c then (None, close_run open closed)
      else (Some (String c (default EmptyString open)), closed)
  end.

Definition split (s : string) : list string :=
  let '(open, closed) := split_scan s in close_run open closed.

(** [s.replace(old, new)].  Occurrences are found left to right and do not
    overlap: after a replacement the scan resumes behind the occurrence
    ([skip] counts the characters of it still to pass over).  With an empty
    [old], [new] is put before every character and at the end. *)
Fixpoint replace_scan (old new : string) (skip : nat) (s : string) : string :=
  match s with
  | EmptyString => EmptyString
  | String c s' =>
      match skip with
      | S k => replace_scan old new k s'
      | O =>
          if String.prefix old s
          then new +:+ replace_scan old new (String.length old - 1) s'
          else String c (replace_scan old new 0 s')
      end
  end.

Fixpoint replace_empty (new : string) (s : string) : string :=
  match s with
  | EmptyString => new
  | String c s' => new +:+ String c (replace_empty new s')
  end.

Definition replace (old new s : string) : string :=
  if String.eqb old "" then replace_empty new s else replace_scan old new 0 s.

(** [s[:n]] *)
Fixpoint take (n : nat) (s : string) : string :=
  match n, s with
  | S k, String c s' => String c (take k s')
  | _, _ => EmptyString
  end.

(** [sep.join(parts)] *)
Fixpoint join (sep : string) (parts : list string) : string :=
  match parts with
  | [] => EmptyString
  | [p] => p
  | p :: rest => p +:+ sep +:+ join sep rest
  end.

(** [max(xs, key=key)] on a non-empty list: the first element whose key
    is the greatest. *)
Fixpoint max_from {A} (key : A -> nat) (best : A) (xs : list A) : A :=
  match xs with
  | [] => best
  | x :: rest => max_from key (if (key best <? key x)%nat then x else best) rest
  end.

Definition max_by {A} (key : A -> nat) (xs : list A) : option A :=
  match xs with
  | [] => None
  | x :: rest => Some (max_from key x rest)
  end.

End Py.

(** ** Exceptions and state

    Python code that mutates state and raises: computations take a state
    and give an outcome and the state they leave, which an exception does
    not roll back. *)

Inductive outcome (A : Type) : Type :=
| Ok (a : A)      (* normal completion *)
| Raise           (* an exception propagates *)
| Waiting.        (* the browser was still held open when polling stopped *)
Arguments Ok {A} a.
Arguments Raise {A}.
Arguments Waiting {A}.

Section Monad.

Context {S : Type}.

Definition SM (A : Type) : Type := S -> outcome A * S.

Definition ret {A} (a : A) : SM A := fun s => (Ok a, s).

Definition bind {A B} (m : SM A) (f : A -> SM B) : SM B :=
  fun s =>
    match m s with
    | (Ok a, s') => f a s'
    | (Raise, s') => (Raise, s')
    | (Waiting, s') => (Waiting, s')
    end.

(** [raise] *)
Definition throw {A} : SM A := fun s => (Raise, s).

(** [try: body except Exception: handler] *)
Definition try_except {A} (body handler : SM A) : SM A :=
  fun s =>
    match body s with
    | (Raise, s') => handler s'
    | r => r
    end.

End Monad.

Arguments SM S A : clear implicits.

Notation "x <- m ;; k" := (bind m (fun x => k))
  (at level 100, m at next level, right associativity).
Notation "m ;;; k" := (bind m (fun _ => k))
  (at level 100, right associativity).

(** [if s:] on a string *)
Definition nonempty (s : string) : bool := negb (String.eqb s "").

(** A piece of text occurs in another one. *)
Definition substring_of (v text : string) : Prop :=
  exists pre post, text = pre +:+ v +:+ post.

(** ** Regular expressions

    The part of Python's [re] the extractor uses: literals, character
    sets, [\b], sequences, greedy [?] and greedy bounded or unbounded
    repetition of one character, matched by backtracking.  A match is
    reported by its length. *)

Module Re.

Inductive item : Type :=
| Chr (c : ascii)          (* one character *)
| Range (lo hi : ascii)    (* lo-hi *)
| Digits                   (* \d *)
| Spaces.                  (* \s *)

Inductive atom : Type :=
| Lit (c : ascii)                (* a character, escaped or not *)
| OneOf (items : list item)      (* [...] *)
| NoneOf (items : list item).    (* [^...] *)

Inductive regex : Type :=
| One (a : atom)
| Boundary                                  (* \b *)
| Seq (r1 r2 : regex)
| Opt (r : regex)                           (* r? and (?:r)? *)
| Repeat (a : atom) (lo : nat) (hi : option nat).  (* a{lo,hi}; a+ is a{1,} *)

Definition in_range (lo hi c : ascii) : bool :=
  (Py.code lo <=? Py.code c)%nat && (Py.code c <=? Py.code hi)%nat.

(** With [ic] (IGNORECASE) a character also matches through its other
    case. *)
Definition char_is (ic : bool) (x c : ascii) : bool :=
  Ascii.eqb x c ||
  (ic && (Ascii.eqb x (Py.lower_char c) || Ascii.eqb x (Py.upper_char c))).

(** The classes are those of a [str] pattern, on the characters of the
    model: among the code points below 256 the decimal digits that [\d]
    accepts are 0-9, and no character outside A-Z and a-z has a case
    variant in a range of ASCII letters.  (On other text [\d] accepts
    every decimal digit of Unicode.) *)
Definition item_has (ic : bool) (i : item) (c : ascii) : bool :=
  match i with
  | Chr x => char_is ic x c
  | Range lo hi =>
      in_range lo hi c ||
      (ic && (in_range lo hi (Py.lower_char c) || in_range lo hi (Py.upper_char c)))
  | Digits => Py.is_ascii_digit c
  | Spaces => Py.is_space c
  end.

Definition atom_matches (ic : bool) (a : atom) (c : ascii) : bool :=
  match a with
  | Lit x => char_is ic x c
  | OneOf items => existsb (fun i => item_has ic i c) items
  | NoneOf items => negb (existsb (fun i => item_has ic i c) items)
  end.

Definition word_at (c : option ascii) : bool :=
  match c with
  | Some c => Py.is_word c
  | None => false
  end.

Definition next_char (s : string) : option ascii :=
  match s with
  | String c _ => Some c
  | EmptyString => None
  end.

(** [\b]: exactly one of the characters before and after is a word
    character; the ends of the text count as non-word. *)
Definition boundary (prev : option ascii) (s : string) : bool :=
  xorb (word_at prev) (word_at (next_char s)).

(** What comes after a piece of the pattern: given the character before
    the position and the rest of the text, the length of what the rest of
    the pattern matches. *)
Definition cont : Type := option ascii -> string -> option nat.

Definition can_take (hi : option nat) : bool :=
  match hi with
  | Some O => false
  | _ => true
  end.

Definition one_less (hi : option nat) : option nat :=
  match hi with
  | Some n => Some (pred n)
  | None => None
  end.

(** Greedy repetition: take a character when allowed and go on; when
    that does not lead to a match, stop here if [lo] are taken. *)
Fixpoint repeat_atom (test : ascii -> bool) (lo : nat) (hi : option nat)
    (prev : option ascii) (s : string) (k : cont) : option nat :=
  let stop := if (lo =? 0)%nat then k prev s else None in
  match s with
  | String c s' =>
      if test c && can_take hi then
        match repeat_atom test (pred lo) (one_less hi) (Some c) s' k with
        | Some n => Some (S n)
        | None => stop
        end
      else stop
  | EmptyString => stop
  end.

Fixpoint run (ic : bool) (r : regex) (prev : option ascii) (s : string) (k : cont)
    : option nat :=
  match r with
  | One a =>
      match s with
      | String c s' =>
          if atom_matches ic a c
          then match k (Some c) s' with Some n => Some (S n) | None => None end
          else None
      | EmptyString => None
      end
  | Boundary => if boundary prev s then k prev s else None
  | Seq r1 r2 => run ic r1 prev s (fun p s' => run ic r2 p s' k)
  | Opt r1 =>
      match run ic r1 prev s k with
      | Some n => Some n
      | None => k prev s
      end
  | Repeat a lo hi => repeat_atom (atom_matches ic a) lo hi prev s k
  end.

Definition finish : cont := fun _ _ => Some 0.

(** The pattern matches at the start of [s], which follows [prev]. *)
Definition match_here (ic : bool) (r : regex) (prev : option ascii) (s : string)
    : option nat :=
  run ic r prev s finish.

(** Pass over [n] characters, keeping track of the last one. *)
Fixpoint advance (n : nat) (prev : option ascii) (s : string) : option ascii * string :=
  match n, s with
  | S k, String c s' => advance k (Some c) s'
  | _, _ => (prev, s)
  end.

(** The pattern matches at offset [i] of the text. *)
Definition match_at (ic : bool) (r : regex) (text : string) (i : nat) : option nat :=
  let '(prev, s) := advance i None text in match_here ic r prev s.

(** The leftmost match: its offset and length. *)
Fixpoint search_in (ic : bool) (r : regex) (prev : option ascii) (s : string)
    : option (nat * nat) :=
  match match_here ic r prev s with
  | Some n => Some (0, n)
  | None =>
      match s with
      | String c s' =>
          match search_in ic r (Some c) s' with
          | Some (i, n) => Some (S i, n)
          | None => None
          end
      | EmptyString => None
      end
  end.

(** [re.search(r, text)] as a truth value. *)
Definition search (ic : bool) (r : regex) (text : string) : bool :=
  match search_in ic r None text with
  | Some _ => true
  | None => false
  end.

(** [re.findall(r, text)] for a pattern without groups: the matches from
    left to right, each search resuming behind the previous match (one
    character further after an empty match). *)
Fixpoint findall_in (fuel : nat) (ic : bool) (r : regex) (prev : option ascii)
    (s : string) : list string :=
  match fuel with
  | O => []
  | S fuel' =>
      match search_in ic r prev s with
      | None => []
      | Some (i, n) =>
          let '(p1, s1) := advance i prev s in
          let '(p2, s2) := advance (Nat.max n 1) p1 s1 in
          Py.take n s1 ::
          (if (String.length s1 <? Nat.max n 1)%nat then []
           else findall_in fuel' ic r p2 s2)
      end
  end.

Definition findall (ic : bool) (r : regex) (text : string) : list string :=
  findall_in (S (String.length text)) ic r None text.

End Re.

(** ** The extractor: [backend/extractor.py] *)

Notation "r1 +> r2" := (Re.Seq r1 r2) (at level 60, right associativity).

(** The line feed. *)
Definition LF : ascii := ascii_of_nat 10.

(** The double quote. *)
Definition DQ : ascii := ascii_of_nat 34.

(** The question-answering pipeline: given a question and a context it
    raises ([None]) or gives a score and an answer.  The score is a
    double, given by its exact value. *)
Definition qa_pipeline : Type := string -> string -> option (Q * string).

(** The doubles that the literals [0.3] and [0.2] denote: the multiples
    of 2^-54 nearest to 3/10 and 2/10. *)
Definition double_0_3 : Q := 5404319552844595 # 18014398509481984.
Definition double_0_2 : Q := 3602879701896397 # 18014398509481984.

(** What the three text sources give for a document.  Opening a source
    can raise (outer [None]); otherwise it yields its pages, and reading a
    page gives its text or raises (inner [None]). *)
Definition source : Type := option (list (option string)).

Record document : Type := {
  pypdf2 : source;      (* PyPDF2.PdfReader(f).pages, page.extract_text() *)
  pdfplumber : source;  (* pdfplumber.open(path).pages, page.extract_text() *)
  ocr : source          (* convert_from_path(path, dpi=300, first_page=1,
                           last_page=3), pytesseract.image_to_string(img) *)
}.

Module Extractor.

Import Re.

Definition upper_az : item := Range "A" "Z".
Definition lower_az : item := Range "a" "z".
Definition digit_09 : item := Range "0" "9".
Definition digit : atom := OneOf [Digits].
Definition space_or_dash : atom := OneOf [Spaces; Chr "-"].
Definition slash_or_dash : atom := OneOf [Chr "/"; Chr "-"].

(** [\b[A-Za-z0-9._%+-]+@[A-Za-z0-9.-]+\.[A-Z|a-z]{2,}\b] *)
Definition email_pattern : regex :=
  Boundary +>
  Repeat (OneOf [upper_az; lower_az; digit_09; Chr "."; Chr "_"; Chr "%"; Chr "+"; Chr "-"])
    1 None +>
  One (Lit "@") +>
  Repeat (OneOf [upper_az; lower_az; digit_09; Chr "."; Chr "-"]) 1 None +>
  One (Lit ".") +>
  Repeat (OneOf [upper_az; Chr "|"; lower_az]) 2 None +>
  Boundary.

(** [\b(?:\+91[\s-]?)?[6-9]\d{9}\b] *)
Definition phone_pattern : regex :=
  Boundary +>
  Opt (One (Lit "+") +> One (Lit "9") +> One (Lit "1") +> Opt (One space_or_dash)) +>
  One (OneOf [Range "6" "9"]) +>
  Repeat digit 9 (Some 9) +>
  Boundary.

(** [\b\d{4}[\s-]?\d{4}[\s-]?\d{4}\b] *)
Definition aadhaar_pattern : regex :=
  Boundary +>
  Repeat digit 4 (Some 4) +> Opt (One space_or_dash) +>
  Repeat digit 4 (Some 4) +> Opt (One space_or_dash) +>
  Repeat digit 4 (Some 4) +>
  Boundary.

(** [\b[A-Z]{5}\d{4}[A-Z]\b] *)
Definition pan_pattern : regex :=
  Boundary +>
  Repeat (OneOf [upper_az]) 5 (Some 5) +> Repeat digit 4 (Some 4) +> One (OneOf [upper_az]) +>
  Boundary.

(** [\b\d{6}\b] *)
Definition pincode_pattern : regex :=
  Boundary +> Repeat digit 6 (Some 6) +> Boundary.

(** [\b\d{1,2}[/-]\d{1,2}[/-]\d{2,4}\b] *)
Definition date_pattern : regex :=
  Boundary +>
  Repeat digit 1 (Some 2) +> One slash_or_dash +>
  Repeat digit 1 (Some 2) +> One slash_or_dash +>
  Repeat digit 2 (Some 4) +>
  Boundary.

Definition patterns : list (string * regex) :=
  [ ("email", email_pattern);
    ("phone", phone_pattern);
    ("aadhaar", aadhaar_pattern);
    ("pan", pan_pattern);
    ("pincode", pincode_pattern);
    ("date", date_pattern) ].

(** The body of the loop over [patterns.items()]. *)
Definition bind_first_match (text : string) (data : gmap string string)
    (entry : string * regex) : gmap string string :=
  let matches := findall true entry.2 text in
  match matches with
  | first :: _ => <[entry.1 := Py.strip first]> data
  | [] => data
  end.

Definition extract_regex_fields (text : string) (data : gmap string string)
    : gmap string string :=
  fold_left (bind_first_match text) patterns data.

Definition skip_words : list string :=
  [ "government"; "india"; "aadhaar"; "unique"; "authority";
    "male"; "female"; "dob"; "birth"; "year"; "card"; "number";
    "address"; "pin"; "code"; "state"; "district"; "post";
    "income"; "tax"; "department"; "permanent"; "account";
    "republic"; "signature"; "photo"; "date"; "issue"; "issued";
    "enrollment"; "help"; "resident"; "identity"; "www"; "uidai" ].

(** [\d{2,}] *)
Definition digit_run : regex := Repeat digit 2 None.

(** [[^A-Za-z\s\.]] *)
Definition special_character : regex :=
  One (NoneOf [upper_az; lower_az; Spaces; Chr "."]).

(** [len(x.replace(' ', ''))] *)
Definition name_key (x : string) : nat := Py.len (Py.replace " " "" x).

(** [words[0][0].isupper()] *)
Definition first_is_upper (words : list string) : bool :=
  match words with
  | String c _ :: _ => Py.isupper (String c EmptyString)
  | _ => false
  end.

(** The body of the loop over the lines: the stripped line when it is
    appended to [potential_names]. *)
Definition candidate (line : string) : option string :=
  let line := Py.strip line in
  if (Py.len line <? 3)%nat || (100 <? Py.len line)%nat then None
  (* Skip lines with skip words *)
  else if existsb (fun skip => Py.contains skip (Py.lower line)) skip_words then None
  (* Skip lines with numbers *)
  else if search false digit_run line then None
  (* Skip lines with special characters (except spaces and dots) *)
  else if search false special_character line then None
  else
    let words := Py.split line in
    (* Look for 2-4 word names *)
    if (2 <=? length words)%nat && (length words <=? 4)%nat then
      (* All words should be alphabetic *)
      if forallb (fun w => Py.isalpha (Py.replace "." "" w)) words then
        (* First letter should be capital *)
        if first_is_upper words then
          (* Filter out very short names *)
          if (4 <=? name_key line)%nat then Some line else None
        else None
      else None
    else None.

Definition potential_names (text : string) : list string :=
  omap candidate (Py.split_on LF text).

(** Strategy 1 of [extract_name_improved]. *)
Definition name_from_lines (text : string) : option string :=
  let potential_names := potential_names text in
  (* Return the longest name (usually most complete) *)
  match Py.max_by name_key potential_names with
  | Some best_name =>
      (* If name is too short (like "S S"), try to find a better one *)
      if (name_key best_name <? 6)%nat then
        let better_names := filter (fun n => (6 <=? name_key n)%nat = true) potential_names in
        match Py.max_by name_key better_names with
        | Some better => Some better
        | None => Some best_name
        end
      else Some best_name
  | None => None
  end.

(** The fallback of both extractors: ask the pipeline, when there is one
    and the text has more than 50 characters, and take the answer when
    its score is above the threshold ([result['score'] > threshold], a
    comparison of two doubles). *)
Definition ask (bert : option qa_pipeline) (question : string) (threshold : Q)
    (text : string) : option string :=
  match bert with
  | Some pipeline =>
      if (50 <? Py.len text)%nat then
        match pipeline question (Py.take 2000 text) with
        | Some (score, answer) =>
            if negb (Qle_bool score threshold) then Some (Py.strip answer) else None
        | None => None
        end
      else None
  | None => None
  end.

Definition extract_name_improved (bert : option qa_pipeline) (text : string)
    : option string :=
  (* Strategy 1: Look for name patterns in Aadhaar cards *)
  match name_from_lines text with
  | Some name => Some name
  | None =>
      (* Strategy 2: Use BERT if available *)
      ask bert "What is the person's full name?" double_0_3 text
  end.

Definition address_words : list string :=
  ["s/o"; "c/o"; "d/o"; "w/o"; "street"; "road"; "village"].

(** The loop of [extract_address] over the lines from index [i] on. *)
Fixpoint address_from_lines (lines : list string) : option string :=
  match lines with
  | [] => None
  | line :: rest =>
      let line := Py.strip line in
      if Py.any_in address_words (Py.lower line) then
        (* Get this line and next 2-3 lines *)
        let next_lines :=
          filter (fun next_line => nonempty next_line && (3 <? Py.len next_line)%nat = true)
            (map Py.strip (firstn 3 rest)) in
        let address := Py.join " " (line :: next_lines) in
        if (20 <? Py.len address)%nat then Some (Py.take 200 address)
        else address_from_lines rest
      else address_from_lines rest
  end.

Definition extract_address (bert : option qa_pipeline) (text : string) : option string :=
  match address_from_lines (Py.split_on LF text) with
  | Some address => Some address
  | None =>
      (* Use BERT as fallback *)
      ask bert "What is the complete address?" double_0_2 text
  end.

(** [if value: self.data[key] = value] *)
Definition store (key : string) (value : option string) (data : gmap string string)
    : gmap string string :=
  match value with
  | Some v => if nonempty v then <[key := v]> data else data
  | None => data
  end.

(** [extract_structured_data], on the text and the field map of the
    extractor; [bert] is what [_init_bert] obtains. *)
Definition extract_structured_data (bert : option qa_pipeline) (text : string)
    (data : gmap string string) : gmap string string :=
  let data := extract_regex_fields text data in
  (* Extract NAME with improved logic *)
  let data := store "name" (extract_name_improved bert text) data in
  (* Extract ADDRESS *)
  let data := store "address" (extract_address bert text) data in
  data.

(** [extract_text]: the state is the list [texts]. *)
Definition open_source (src : source) : SM (list string) (list (option string)) :=
  match src with
  | Some pages => ret pages
  | None => throw
  end.

Definition read_page (page : option string) : SM (list string) string :=
  match page with
  | Some text => ret text
  | None => throw
  end.

Definition append (text : string) : SM (list string) unit :=
  fun texts => (Ok tt, texts ++ [text]).

Definition get_texts : SM (list string) (list string) :=
  fun texts => (Ok texts, texts).

(** [if text and len(text.strip()) > 50] *)
Definition long_enough (text : string) : bool :=
  nonempty text && (50 <? Py.len (Py.strip text))%nat.

Fixpoint read_pages (pages : list (option string)) : SM (list string) unit :=
  match pages with
  | [] => ret tt
  | page :: rest =>
      text <- read_page page ;;
      (if long_enough text then append text else ret tt) ;;;
      read_pages rest
  end.

Definition read_source (src : source) : SM (list string) unit :=
  try_except (pages <- open_source src ;; read_pages pages) (ret tt).

Definition total_length (texts : list string) : nat :=
  fold_right (fun t n => Py.len t + n)%nat 0%nat texts.

Definition extract_text (doc : document) : SM (list string) string :=
  (* Method 1: PyPDF2 *)
  read_source (pypdf2 doc) ;;;
  (* Method 2: PDFPlumber *)
  read_source (pdfplumber doc) ;;;
  (* Method 3: OCR if needed *)
  texts <- get_texts ;;
  (if (length texts =? 0)%nat || (total_length texts <? 200)%nat
   then read_source (ocr doc) else ret tt) ;;;
  texts <- get_texts ;;
  ret (Py.join (String LF (String LF EmptyString)) texts).

End Extractor.

(** The fragments a source contributes: those long enough among the
    pages read before the first failure. *)
Fixpoint readable (pages : list (option string)) : list string :=
  match pages with
  | Some text :: rest => text :: readable rest
  | _ => []
  end.

Definition fragments (src : source) : list string :=
  filter (fun text => Extractor.long_enough text = true) (readable (default [] src)).




(** The text of the scenario of the specification. *)
Definition scenario_text : string :=
  "John Michael Smith" +:+ String LF "Government of India" +:+
  String LF "DOB: 01/02/1990" +:+ String LF "Email: john@x.com".

(** ** The rendered-page driver

    Playwright is a collaborator behind a narrow interface.  A driver is
    any state machine answering the calls below; every call can raise.
    The form fillers are written in a state monad over the driver's
    world, which also keeps the log of the calls made and the two
    counters of [fill_form] (they live in the state because an exception
    caught by the question loop does not undo an increment). *)

(** Element handles. *)
Definition handle : Type := nat.

(** The selectors the two modules query. *)
Inductive selector : Type :=
| SelListItem          (* [role=listitem] *)
| SelHeading           (* [role=heading] *)
| SelBaseTitle         (* .freebirdFormviewerComponentsQuestionBaseTitle *)
| SelItemTitle         (* .freebirdFormviewerViewItemsItemItemTitle *)
| SelDataItem          (* [data-item-id] > div > div > div *)
| SelDirAuto           (* div[dir=auto] *)
| SelInputText         (* input[type=text] *)
| SelInputEmail        (* input[type=email] *)
| SelInputTel          (* input[type=tel] *)
| SelInputNumber       (* input[type=number] *)
| SelInputAria         (* input[aria-label] *)
| SelTextarea          (* textarea *)
| SelTextInputs        (* input[type=text], input[type=email], input[type=tel], textarea *)
| SelLabel             (* label *)
| SelSelect            (* select *)
| SelContentEditable   (* [contenteditable=true] *)
| SelInputOrTextarea.  (* input, textarea *)

Inductive call : Type -> Type :=
| StartPlaywright : call unit
| Launch (headless : bool) : call unit
| NewContext : call unit
| NewPage : call unit
| Goto (url : string) : call unit
| WaitForTimeout (ms : nat) : call unit
| WaitForSelector (sel : selector) : call unit
| PageQueryAll (sel : selector) : call (list handle)
| Query (h : handle) (sel : selector) : call (option handle)
| QueryAll (h : handle) (sel : selector) : call (list handle)
| InnerText (h : handle) : call string
| IsVisible (h : handle) : call bool
| ScrollIntoView (h : handle) : call unit
| Click (h : handle) : call unit
| Focus (h : handle) : call unit
| Fill (h : handle) (text : string) : call unit
| TypeText (h : handle) (text : string) : call unit
| InputValue (h : handle) : call string
| SelectOption (h : handle) (label : string) : call unit
| Evaluate (script : string) (arg : handle) : call unit
| Screenshot (path : string) : call unit
| Title : call string
| Sleep (seconds : nat) : call unit   (* time.sleep, which an interrupt ends *)
| CloseBrowser : call unit.

(** A call that was made, and whether it completed. *)
Inductive event : Type :=
| Event {A : Type} (c : call A) (ok : bool).

Record driver : Type := {
  world : Type;
  exec : forall A, call A -> world -> option A * world
    (* [None]: the call raises *)
}.

Section Automation.

Context (D : driver).

Record state : Type := {
  st_world : world D;
  st_log : list event;
  st_filled : nat;
  st_total : nat
}.

Definition M (A : Type) : Type := SM state A.

(** One call to the driver, logged. *)
Definition perform {A} (c : call A) : M A :=
  fun s =>
    let '(r, w) := exec D A c (st_world s) in
    let s' ok := {| st_world := w; st_log := st_log s ++ [Event c ok];
                    st_filled := st_filled s; st_total := st_total s |} in
    match r with
    | Some a => (Ok a, s' true)
    | None => (Raise, s' false)
    end.

Definition set_counters (filled total : nat) : M unit :=
  fun s => (Ok tt, {| st_world := st_world s; st_log := st_log s;
                      st_filled := filled; st_total := total |}).

Definition incr_filled : M unit :=
  fun s => set_counters (st_filled s + 1) (st_total s) s.

Definition incr_total : M unit :=
  fun s => set_counters (st_filled s) (st_total s + 1) s.

Definition get_counters : M (nat * nat) :=
  fun s => (Ok (st_filled s, st_total s), s).

End Automation.

Arguments perform {D A} c.
Arguments set_counters {D} filled total.
Arguments incr_filled {D}.
Arguments incr_total {D}.
Arguments get_counters {D}.
Arguments st_world {D} s.
Arguments st_log {D} s.
Arguments st_filled {D} s.
Arguments st_total {D} s.

(** [for x in xs: body], where the body either goes on to the next
    element ([None]) or makes the enclosing function return ([Some r]). *)
Fixpoint for_first {D X R} (xs : list X) (body : X -> M D (option R)) : M D (option R) :=
  match xs with
  | [] => ret None
  | x :: rest =>
      r <- body x ;;
      match r with
      | Some v => ret (Some v)
      | None => for_first rest body
      end
  end.

(** [for x in xs: body] without an early return. *)
Fixpoint for_each {D X} (xs : list X) (body : X -> M D unit) : M D unit :=
  match xs with
  | [] => ret tt
  | x :: rest => body x ;;; for_each rest body
  end.

(** [while True: try: page.title(); time.sleep(1) except: break], polled
    at most [fuel] times.  The bare [except] catches whatever the poll or
    the pause raises, the interrupt from the keyboard included, and ends
    the loop. *)
Fixpoint hold_loop {D} (fuel : nat) : M D unit :=
  match fuel with
  | O => fun s => (Waiting, s)
  | S n =>
      alive <- try_except
                 (perform Title ;;;
                  perform (Sleep 1) ;;;  (* Check every second *)
                  ret true)
                 (ret false) ;;
      if alive : bool then hold_loop n else ret tt
  end.

(** The loop inside its [try: ... except KeyboardInterrupt:], whose
    handler only prints (or passes) and goes on behind the loop. *)
Definition hold_open {D} (fuel : nat) : M D unit :=
  try_except (hold_loop fuel) (ret tt).

(** [text.replace('*', '').strip()] *)
Definition clean_label (text : string) : string := Py.strip (Py.replace "*" "" text).

(** ** Statements about runs of the driver monad *)

(** A computation leaves the counters of [fill_form] alone. *)
Definition keeps {D A} (m : M D A) : Prop :=
  forall s, st_filled (snd (m s)) = st_filled s /\ st_total (snd (m s)) = st_total s.

(** Hoare triples on the state, with a postcondition for every outcome. *)
Definition hoare {D A} (P : state D -> Prop) (m : M D A)
    (Q : outcome A -> state D -> Prop) : Prop :=
  forall s, P s -> Q (fst (m s)) (snd (m s)).

(** What a computation adds to the log. *)
Definition emits {D A} (m : M D A) (Q : outcome A -> list event -> Prop) : Prop :=
  forall s, exists l, st_log (snd (m s)) = st_log s ++ l /\ Q (fst (m s)) l.

(** Every event a computation logs satisfies [P]. *)
Definition logs_only {D A} (P : event -> Prop) (m : M D A) : Prop :=
  emits m (fun _ l => Forall P l).

(** The counters of a fill session: [filled] against [total]. *)
Definition le_counters {D} (s : state D) : Prop := st_filled s <= st_total s.
Definition lt_counters {D} (s : state D) : Prop := st_filled s < st_total s.

(** What [fill_form] promises about the triple it returns. *)
Definition counts_ok (r : outcome (nat * nat * string)) : Prop :=
  match r with
  | Ok (filled, total, _) => filled <= total
  | _ => True
  end.

(** An event is not a navigation, or it is the navigation to [url]. *)
Definition goes_to (url : string) (e : event) : Prop :=
  match e with
  | Event c _ =>
      match c with
      | Goto u => u = url
      | _ => True
      end
  end.

(** ** Field matcher and field filler

    [GoogleFormFiller.get_value_for_field], once per module: the two
    modules differ in their keyword lists and in what happens when the
    key of a category is not in the field map. *)

(** [data.get(key, '')] *)
Definition dict_get (data : gmap string string) (key : string) : string :=
  default "" (data !! key).

(** [backend/form_filler.py] *)
Module FormFiller.

Definition get_value_for_field (field_name : string) (data : gmap string string) : string :=
  let field := Py.lower field_name in
  (* Name field *)
  if Py.any_in ["name"; "naam"; "full name"; "your name"; "applicant name"] field then
    dict_get data "name"
  (* Email field *)
  else if Py.any_in ["email"; "e-mail"; "mail"; "electronic"] field then
    dict_get data "email"
  (* Phone field *)
  else if Py.any_in ["phone"; "mobile"; "contact"; "telephone"; "cell"] field then
    dict_get data "phone"
  (* Aadhaar field *)
  else if Py.any_in ["aadhaar"; "aadhar"; "uid"; "unique id"] field then
    dict_get data "aadhaar"
  (* PAN field *)
  else if Py.any_in ["pan"; "permanent account"] field then
    dict_get data "pan"
  (* Address field *)
  else if Py.any_in ["address"; "location"; "residence"; "residential"] field then
    dict_get data "address"
  (* Pincode field *)
  else if Py.any_in ["pin"; "postal"; "zip"; "pincode"] field then
    dict_get data "pincode"
  (* Date field *)
  else if Py.any_in ["dob"; "birth"; "date of birth"] field then
    dict_get data "date"
  else "".


(** [fill_field]: text inputs, then labels of radio buttons and
    checkboxes, then dropdowns. *)
Definition fill_text_input {D} (inp : handle) (value : string) : M D (option bool) :=
  try_except
    (is_visible <- perform (IsVisible inp) ;;
     if negb is_visible then ret None else
     perform (ScrollIntoView inp) ;;;
     perform (WaitForTimeout 500) ;;;
     perform (Focus inp) ;;;
     perform (WaitForTimeout 300) ;;;
     perform (Fill inp "") ;;;
     perform (WaitForTimeout 200) ;;;
     perform (TypeText inp value) ;;;
     perform (WaitForTimeout 300) ;;;
     ret (Some true))
    (ret None).

Definition click_label {D} (label : handle) (value : string) : M D (option bool) :=
  text <- perform (InnerText label) ;;
  let label_text := Py.lower (Py.strip text) in
  if Py.contains (Py.lower value) label_text then
    perform (Click label) ;;;
    perform (WaitForTimeout 300) ;;;
    ret (Some true)
  else ret None.

Definition select_dropdown {D} (dropdown : handle) (value : string) : M D (option bool) :=
  perform (SelectOption dropdown value) ;;;
  perform (WaitForTimeout 300) ;;;
  ret (Some true).

Definition fill_field {D} (question_element : handle) (value : string) : M D bool :=
  (* Method 1: Text inputs *)
  text_inputs <- perform (QueryAll question_element SelTextInputs) ;;
  r <- for_first text_inputs (fun inp => fill_text_input inp value) ;;
  match r with
  | Some b => ret b
  | None =>
  (* Method 2: Radio buttons / checkboxes *)
  r <- try_except
         (labels <- perform (QueryAll question_element SelLabel) ;;
          for_first labels (fun label => click_label label value))
         (ret None) ;;
  match r with
  | Some b => ret b
  | None =>
  (* Method 3: Dropdowns *)
  r <- try_except
         (dropdowns <- perform (QueryAll question_element SelSelect) ;;
          for_first dropdowns (fun dropdown => select_dropdown dropdown value))
         (ret None) ;;
  match r with
  | Some b => ret b
  | None => ret false
  end end end.

(** The body of the question loop of [fill_form]. *)
Definition question_step {D} (data : gmap string string) (q : handle) : M D unit :=
  try_except
    (heading <- perform (Query q SelHeading) ;;
     match heading with
     | None => ret tt
     | Some heading =>
         q_text <- perform (InnerText heading) ;;
         let q_text := Py.strip q_text in
         let q_text := Py.lower (Py.strip (Py.replace "*" "" q_text)) in
         if negb (nonempty q_text) || (Py.len q_text <? 2)%nat then ret tt else
         incr_total ;;;
         let value := get_value_for_field q_text data in
         if negb (nonempty value) then ret tt else
         success <- fill_field q value ;;
         if success : bool then incr_filled else ret tt
     end)
    (ret tt).

Definition fill_form {D} (url : string) (data_dict : gmap string string)
    : M D (nat * nat * string) :=
  try_except
    (perform StartPlaywright ;;;
     perform (Launch true) ;;;
     perform NewContext ;;;
     perform NewPage ;;;
     try_except
       (perform (Goto url) ;;;
        perform (WaitForTimeout 3000) ;;;
        set_counters 0 0 ;;;
        questions <- perform (PageQueryAll SelListItem) ;;
        for_each questions (question_step data_dict) ;;;
        perform (WaitForTimeout 2000) ;;;
        perform (Screenshot "outputs/filled_form.png") ;;;
        perform CloseBrowser ;;;
        c <- get_counters ;;
        ret (c.1, c.2, "filled_form.png"))
       (perform CloseBrowser ;;; throw))
    throw.

End FormFiller.

(** [backend/form_filler_sync.py]: every category is an [if] of its own,
    and returns only when its key is in [data]. *)
Module FormFillerSync.

Definition get_value_for_field (field_name : string) (data : gmap string string) : string :=
  let field := Py.lower field_name in
  let name_hit :=
    Py.any_in ["name"; "naam"; "full name"; "your name"; "applicant"] field in
  let email_hit := Py.any_in ["email"; "e-mail"; "mail"; "electronic"] field in
  let phone_hit := Py.any_in ["phone"; "mobile"; "contact"; "telephone"; "cell"] field in
  let aadhaar_hit :=
    Py.any_in ["aadhaar"; "aadhar"; "uid"; "unique"; "adhaar"; "Aadhar number"; "Aadhar"]
      field in
  let pan_hit := Py.any_in ["pan"; "permanent account"] field in
  let address_hit := Py.any_in ["address"; "location"; "residence"; "street"] field in
  let pincode_hit := Py.any_in ["pin"; "postal"; "zip"; "pincode"] field in
  let date_hit := Py.any_in ["dob"; "birth"; "date"] field in
  match (if name_hit then data !! "name" else None) with
  | Some v => v
  | None =>
  match (if email_hit then data !! "email" else None) with
  | Some v => v
  | None =>
  match (if phone_hit then data !! "phone" else None) with
  | Some v => v
  | None =>
  match (if aadhaar_hit then data !! "aadhaar" else None) with
  | Some v => v
  | None =>
  match (if pan_hit then data !! "pan" else None) with
  | Some v => v
  | None =>
  match (if address_hit then data !! "address" else None) with
  | Some v => v
  | None =>
  match (if pincode_hit then data !! "pincode" else None) with
  | Some v => v
  | None =>
  match (if date_hit then data !! "date" else None) with
  | Some v => v
  | None => ""
  end end end end end end end end.


Definition _get_question_text {D} (question_element : handle) : M D string :=
  (* Strategy 1: role=heading *)
  r <- try_except
         (heading <- perform (Query question_element SelHeading) ;;
          match heading with
          | Some heading =>
              text <- perform (InnerText heading) ;;
              let text := Py.strip text in
              if nonempty text then ret (Some (clean_label text)) else ret None
          | None => ret None
          end)
         (ret None) ;;
  match r with
  | Some text => ret text
  | None =>
  (* Strategy 2: Common Google Forms classes *)
  r <- for_first [SelBaseTitle; SelItemTitle; SelDataItem; SelDirAuto]
         (fun selector =>
            try_except
              (elem <- perform (Query question_element selector) ;;
               match elem with
               | Some elem =>
                   text <- perform (InnerText elem) ;;
                   let text := Py.strip text in
                   if nonempty text && (1 <? Py.len text)%nat
                   then ret (Some (clean_label text)) else ret None
               | None => ret None
               end)
              (ret None)) ;;
  match r with
  | Some text => ret text
  | None => ret ""
  end end.

Definition input_selectors : list selector :=
  [SelInputText; SelInputEmail; SelInputTel; SelInputNumber; SelInputAria; SelTextarea].

(** The statements of the first strategy from scrolling to typing. *)
Definition type_into {D} (inp : handle) (value : string) : M D unit :=
  (* Scroll into view *)
  perform (ScrollIntoView inp) ;;;
  perform (WaitForTimeout 500) ;;;
  (* Click to focus *)
  perform (Click inp) ;;;
  perform (WaitForTimeout 300) ;;;
  (* Clear existing content *)
  perform (Fill inp "") ;;;
  perform (WaitForTimeout 200) ;;;
  (* Type the value *)
  perform (TypeText inp value) ;;;
  perform (WaitForTimeout 500).

Definition fill_input {D} (inp : handle) (value : string) : M D (option bool) :=
  try_except
    (is_visible <- perform (IsVisible inp) ;;
     if negb is_visible then ret None else
     type_into inp value ;;;
     (* Verify it worked *)
     verified <- try_except
                   (filled_value <- perform (InputValue inp) ;;
                    ret (String.eqb filled_value value))
                   (ret false) ;;
     if verified : bool then ret (Some true) else ret (Some true))
    (ret None).

Definition fill_contenteditable {D} (div : handle) (value : string) : M D (option bool) :=
  try_except
    (is_visible <- perform (IsVisible div) ;;
     if negb is_visible then ret None else
     perform (Click div) ;;;
     perform (WaitForTimeout 200) ;;;
     perform (Fill div "") ;;;
     perform (WaitForTimeout 200) ;;;
     perform (TypeText div value) ;;;
     perform (WaitForTimeout 300) ;;;
     ret (Some true))
    (ret None).

(** The source text that the last strategy has the page evaluate on the
    element: the f-string, with [value] put between the double quotes as
    it is (nothing in it is escaped). *)
Definition fill_script (value : string) : string :=
  "(element) => {" +:+ String LF
  ("                        element.value = " +:+ String DQ
  (value +:+ String DQ
  (";" +:+ String LF
  ("                        element.dispatchEvent(new Event('input', { bubbles: true }));"
   +:+ String LF
  ("                        element.dispatchEvent(new Event('change', { bubbles: true }));"
   +:+ String LF
   "                    }"))))).

Definition fill_by_script {D} (inp : handle) (value : string) : M D (option bool) :=
  try_except
    (is_visible <- perform (IsVisible inp) ;;
     if negb is_visible then ret None else
     perform (Evaluate (fill_script value) inp) ;;;
     perform (WaitForTimeout 300) ;;;
     ret (Some true))
    (ret None).

Definition _fill_field_advanced {D} (question_element : handle) (value : string)
    (question_text : string) : M D bool :=
  (* Strategy 1: Direct input fields *)
  r <- for_first input_selectors
         (fun selector =>
            inputs <- perform (QueryAll question_element selector) ;;
            for_first inputs (fun inp => fill_input inp value)) ;;
  match r with
  | Some b => ret b
  | None =>
  (* Strategy 2: Content editable divs *)
  r <- try_except
         (divs <- perform (QueryAll question_element SelContentEditable) ;;
          for_first divs (fun div => fill_contenteditable div value))
         (ret None) ;;
  match r with
  | Some b => ret b
  | None =>
  (* Strategy 3: JavaScript injection as last resort *)
  r <- try_except
         (inputs <- perform (QueryAll question_element SelInputOrTextarea) ;;
          for_first inputs (fun inp => fill_by_script inp value))
         (ret None) ;;
  match r with
  | Some b => ret b
  | None => ret false
  end end end.

(** The body of the question loop of [fill_form]. *)
Definition question_step {D} (data_dict : gmap string string) (q : handle) : M D unit :=
  try_except
    (q_text <- _get_question_text q ;;
     if negb (nonempty q_text) then ret tt else
     let q_text_lower := Py.lower q_text in
     incr_total ;;;
     let value := get_value_for_field q_text_lower data_dict in
     if negb (nonempty value) then ret tt else
     success <- _fill_field_advanced q value q_text_lower ;;
     if success : bool then incr_filled else ret tt)
    (ret tt).

(** Convert /preview to /viewform *)
Definition viewform_url (url : string) : string :=
  if Py.contains "/preview" url then Py.replace "/preview" "/viewform" url else url.

(** [fuel] bounds the number of polls of the loops that hold the browser
    open. *)
Definition fill_form {D} (fuel : nat) (url : string) (data_dict : gmap string string)
    : M D (nat * nat * string) :=
  let url := viewform_url url in
  try_except
    (perform StartPlaywright ;;;
     perform (Launch false) ;;;
     perform NewContext ;;;
     perform NewPage ;;;
     try_except
       (perform (Goto url) ;;;
        perform (WaitForTimeout 3000) ;;;
        set_counters 0 0 ;;;
        (* Wait for form to be fully loaded *)
        perform (WaitForSelector SelListItem) ;;;
        (* Get all form questions *)
        questions <- perform (PageQueryAll SelListItem) ;;
        for_each questions (question_step data_dict) ;;;
        (* Capture screenshot *)
        perform (WaitForTimeout 2000) ;;;
        perform (Screenshot "outputs/filled_form.png") ;;;
        (* Wait for browser to be closed by user *)
        hold_open fuel ;;;
        c <- get_counters ;;
        ret (c.1, c.2, "filled_form.png"))
       (try_except (perform (Screenshot "outputs/error.png")) (ret tt) ;;;
        (* Still keep browser open even on error *)
        hold_open fuel ;;;
        perform CloseBrowser ;;;
        throw))
    throw.

End FormFillerSync.












(** ** Replaying a log

    The log lists every call made, in order, so the world in which a call
    was made is the one the calls before it lead to. *)









(** ** Scripted pages

    A driver whose answers do not depend on what was done before: the
    page as a table.  The concrete runs below use it. *)

Record page : Type := {
  pg_items : list handle;                          (* the list items of the page *)
  pg_query_all : handle -> selector -> list handle;  (* elements below an element *)
  pg_text : handle -> string;                      (* inner text *)
  pg_visible : handle -> bool;
  pg_value : handle -> string;                     (* what reading the value back gives *)
  pg_raises : forall A, call A -> bool             (* the calls that raise *)
}.

Definition answer (p : page) (A : Type) (c : call A) : A :=
  match c in call T return T with
  | StartPlaywright | Launch _ | NewContext | NewPage | Goto _
  | WaitForTimeout _ | WaitForSelector _ => tt
  | PageQueryAll sel =>
      match sel with
      | SelListItem => pg_items p
      | _ => []
      end
  | Query h sel => head (pg_query_all p h sel)
  | QueryAll h sel => pg_query_all p h sel
  | InnerText h => pg_text p h
  | IsVisible h => pg_visible p h
  | ScrollIntoView _ | Click _ | Focus _ | Fill _ _ | TypeText _ _ => tt
  | InputValue h => pg_value p h
  | SelectOption _ _ | Evaluate _ _ | Screenshot _ => tt
  | Title => ""
  | Sleep _ => tt
  | CloseBrowser => tt
  end.

Definition scripted (p : page) : driver :=
  {| world := unit;
     exec := fun A c w => (if pg_raises p A c then None else Some (answer p A c), w) |}.

(** The state a fill session starts in. *)
Definition start (p : page) : state (scripted p) :=
  Build_state (scripted p) tt [] 0 0.

(** The user closes the browser before the first poll. *)
Definition closed_at_once (A : Type) (c : call A) : bool :=
  match c with
  | Title => true
  | _ => false
  end.

(** Question 1 of this page offers two labelled choices, Yes and No. *)
Definition choice_page : page :=
  {| pg_items := [1];
     pg_query_all := fun h sel =>
       match h, sel with
       | 1, SelHeading => [10]
       | 1, SelLabel => [11; 12]
       | _, _ => []
       end;
     pg_text := fun h =>
       match h with
       | 10 => "Resident *"
       | 11 => "No"
       | 12 => "Yes"
       | _ => ""
       end;
     pg_visible := fun _ => true;
     pg_value := fun _ => "";
     pg_raises := closed_at_once |}.


(** A form with a phone question that has a text input, whose value reads
    back differently from what was typed (the page reformats it), and a
    question nothing was extracted for. *)
Definition phone_page : page :=
  {| pg_items := [1; 2];
     pg_query_all := fun h sel =>
       match h, sel with
       | 1, SelHeading => [10]
       | 1, SelInputText => [11]
       | 1, SelTextInputs => [11]
       | 2, SelHeading => [20]
       | 2, SelInputText => [21]
       | 2, SelTextInputs => [21]
       | _, _ => []
       end;
     pg_text := fun h =>
       match h with
       | 10 => "Mobile number *"
       | 20 => "Favourite colour"
       | _ => ""
       end;
     pg_visible := fun _ => true;
     pg_value := fun _ => "98765 43210";
     pg_raises := closed_at_once |}.

Definition phone_only : gmap string string := {[ "phone" := "9876543210" ]}.

(** The browser stays open, and the pause behind the first poll is
    interrupted from the keyboard. *)
Definition interrupted_at_pause (A : Type) (c : call A) : bool :=
  match c with
  | Sleep _ => true
  | _ => false
  end.

Definition interrupted_page : page :=
  {| pg_items := pg_items phone_page;
     pg_query_all := pg_query_all phone_page;
     pg_text := pg_text phone_page;
     pg_visible := pg_visible phone_page;
     pg_value := pg_value phone_page;
     pg_raises := interrupted_at_pause |}.

(** The last [n] events of a log. *)
Definition last_events (n : nat) (l : list event) : list event :=
  skipn (length l - n) l.

(** The categories of the matcher in the order they are tested: the
    keywords of each and the key it reads. *)
Definition category : Type := list string * string.

Definition categories_one_shot : list category :=
  [ (["name"; "naam"; "full name"; "your name"; "applicant name"], "name");
    (["email"; "e-mail"; "mail"; "electronic"], "email");
    (["phone"; "mobile"; "contact"; "telephone"; "cell"], "phone");
    (["aadhaar"; "aadhar"; "uid"; "unique id"], "aadhaar");
    (["pan"; "permanent account"], "pan");
    (["address"; "location"; "residence"; "residential"], "address");
    (["pin"; "postal"; "zip"; "pincode"], "pincode");
    (["dob"; "birth"; "date of birth"], "date") ].

Definition categories_persistent : list category :=
  [ (["name"; "naam"; "full name"; "your name"; "applicant"], "name");
    (["email"; "e-mail"; "mail"; "electronic"], "email");
    (["phone"; "mobile"; "contact"; "telephone"; "cell"], "phone");
    (["aadhaar"; "aadhar"; "uid"; "unique"; "adhaar"; "Aadhar number"; "Aadhar"], "aadhaar");
    (["pan"; "permanent account"], "pan");
    (["address"; "location"; "residence"; "street"], "address");
    (["pin"; "postal"; "zip"; "pincode"], "pincode");
    (["dob"; "birth"; "date"], "date") ].

(** A keyword of the category occurs in the lowercased label. *)
Definition hits (label : string) (cat : category) : bool :=
  Py.any_in cat.1 (Py.lower label).

(** The first category of the table with a hit, as the specification
    words it. *)
Fixpoint first_hit (label : string) (cats : list category) : option category :=
  match cats with
  | [] => None
  | cat :: rest => if hits label cat then Some cat else first_hit label rest
  end.

(** The first category of the table that has a hit and whose key is
    bound in the field map. *)
Fixpoint first_available (label : string) (data : gmap string string)
    (cats : list category) : option category :=
  match cats with
  | [] => None
  | cat :: rest =>
      if hits label cat && bool_decide (is_Some (data !! cat.2)) then Some cat
      else first_available label data rest
  end.

(** The value the specification gives a label: the one of [pick], the
    empty string when there is none. *)
Definition value_of (data : gmap string string) (pick : option category) : string :=
  match pick with
  | Some cat => dict_get data cat.2
  | None => ""
  end.

(** A field map with an email address only. *)
Definition only_email : gmap string string := {[ "email" := "a@b.c" ]}.

(** ** The extraction pipeline *)

(** The eight keys a field map can have. *)
Definition field_names : list string :=
  ["email"; "phone"; "aadhaar"; "pan"; "pincode"; "date"; "name"; "address"].

(** What the name heuristic lets through: letters A-Z and a-z,
    whitespace and the period. *)
Definition name_character (c : ascii) : bool :=
  Py.is_ascii_letter c || Py.is_space c || Ascii.eqb c ".".

Module SmartPDFExtractor.

(** [process], on an extractor as [__init__] leaves it ([text] empty,
    [data] empty): [extract_text], then [extract_structured_data] on the
    text it stored; the result is [(self.text, self.data)]. *)
Definition process (bert : option qa_pipeline) (doc : document)
    : outcome (string * gmap string string) :=
  match Extractor.extract_text doc [] with
  | (Ok text, _) => Ok (text, Extractor.extract_structured_data bert text ∅)
  | (Raise, _) => Raise
  | (Waiting, _) => Waiting
  end.

End SmartPDFExtractor.

(** A document none of whose sources can be opened. *)
Definition unreadable : document := {| pypdf2 := None; pdfplumber := None; ocr := None |}.

(** A text with an address that starts on its second line. *)
Definition address_text : string :=
  "Ravi Kumar" +:+ String LF "S/O Mohan Kumar" +:+ String LF "12 Hill Road" +:+
  String LF "Pune".

(** A step on field maps that binds some keys among [keys], each to a
    value that does not depend on the map, and leaves every other binding
    alone. *)
Definition overrides (keys : list string)
    (step : gmap string string -> gmap string string) : Prop :=
  exists bound : string -> option string,
    (forall k, ~ In k keys -> bound k = None) /\
    forall data k,
      step data !! k = match bound k with Some v => Some v | None => data !! k end.

(** ** Kinds of calls *)

(** Looking up an element below another one, or reading its text. *)
Definition reads (e : event) : bool :=
  match e with
  | Event c _ =>
      match c with
      | Query _ _ | InnerText _ => true
      | _ => false
      end
  end.

(** A call on a control of a question: looking for controls, testing
    them or acting on them. *)
Definition touches_control (e : event) : bool :=
  match e with
  | Event c _ =>
      match c with
      | QueryAll _ _ | IsVisible _ | ScrollIntoView _ | Click _ | Focus _
      | Fill _ _ | TypeText _ _ | InputValue _ | SelectOption _ _ | Evaluate _ _ => true
      | _ => false
      end
  end.

(** The page was created. *)
Definition page_created (e : event) : bool :=
  match e with
  | Event c ok =>
      ok && match c with
            | NewPage => true
            | _ => false
            end
  end.

(** The session asks the browser to close. *)
Definition closes (e : event) : bool :=
  match e with
  | Event c _ =>
      match c with
      | CloseBrowser => true
      | _ => false
      end
  end.

(** What ends the wait for the user: a poll of the page title failed
    (the browser is gone) or the pause behind a poll was interrupted. *)
Definition wait_ended (e : event) : bool :=
  match e with
  | Event c ok =>
      negb ok && match c with
                 | Title | Sleep _ => true
                 | _ => false
                 end
  end.

(** The screenshot of the filled form was taken. *)
Definition shot_taken (e : event) : bool :=
  match e with
  | Event c ok =>
      ok && match c with
            | Screenshot path => String.eqb path "outputs/filled_form.png"
            | _ => false
            end
  end.

(** What is written into a control comes from the field map: the text
    typed or selected is a value of [data] that is not empty, a control
    is cleared with the empty text, and a script that is run is
    [fill_script] of such a value. *)
Definition writes_from (data : gmap string string) (e : event) : Prop :=
  match e with
  | Event c _ =>
      match c with
      | TypeText _ text | SelectOption _ text =>
          text <> "" /\ exists key, data !! key = Some text
      | Evaluate script _ =>
          exists value,
            script = FormFillerSync.fill_script value /\
            value <> "" /\ exists key, data !! key = Some value
      | Fill _ text => text = ""
      | _ => True
      end
  end.

(** A computation returns or raises: it does not stay waiting. *)
Definition settles {D A} (m : M D A) : Prop :=
  emits m (fun r _ => r <> Waiting).

(** A property of the log of the runs that return. *)
Definition on_return {A} (P : list event -> Prop) (r : outcome A) (l : list event) : Prop :=
  match r with
  | Ok _ => P l
  | _ => True
  end.

(** A property of the two counters, of a state and of the triple a
    session returns. *)
Definition counters_in {D} (I : nat -> nat -> Prop) (s : state D) : Prop :=
  I (st_filled s) (st_total s).

Definition counts_in (I : nat -> nat -> Prop) (r : outcome (nat * nat * string)) : Prop :=
  match r with
  | Ok (filled, total, _) => I filled total
  | _ => True
  end.

(** Nothing was filled. *)
Definition none_filled (filled total : nat) : Prop := filled = 0.

(** The counters after one more iteration, from [filled0] and [total0]:
    nothing counted, a question counted, or a question counted and
    filled. *)
Definition one_more (filled0 total0 filled total : nat) : Prop :=
  (filled = filled0 /\ total = total0) \/
  (filled = filled0 /\ total = total0 + 1) \/
  (filled = filled0 + 1 /\ total = total0 + 1).

(** A run that does not return. *)
Definition no_return {A} (r : outcome A) (l : list event) : Prop :=
  match r with
  | Ok _ => False
  | _ => True
  end.

(** [backend/main.py] *)
Module Main.

(** The address [fill_google_form_sync] passes to [fill_form]:
    [if not form_url.startswith(('http://', 'https://')): form_url =
    'https://' + form_url]. *)
Definition form_url (requested : string) : string :=
  if String.prefix "http://" requested || String.prefix "https://" requested
  then requested else "https://" +:+ requested.

End Main.

(** ** The words of a pattern *)

(** The words a pattern stands for, without the context the boundaries
    look at: a repetition is a run of matching characters whose length is
    within its bounds, a sequence a word of the first part followed by a
    word of the second, an optional part may be absent, and a boundary
    takes no character. *)
Fixpoint accepts (ic : bool) (r : Re.regex) (w : string) : Prop :=
  match r with
  | Re.One a => exists c, w = String c "" /\ Re.atom_matches ic a c = true
  | Re.Boundary => w = ""
  | Re.Seq r1 r2 =>
      exists w1 w2, w = w1 +:+ w2 /\ accepts ic r1 w1 /\ accepts ic r2 w2
  | Re.Opt r1 => w = "" \/ accepts ic r1 w
  | Re.Repeat a lo hi =>
      lo <= String.length w /\
      (forall h, hi = Some h -> String.length w <= h) /\
      Py.all_chars (Re.atom_matches ic a) w = true
  end.

(** The character before the position behind [w], when [prev] is the one
    before [w]. *)
Fixpoint last_of (prev : option ascii) (w : string) : option ascii :=
  match w with
  | EmptyString => prev
  | String c w' => last_of (Some c) w'
  end.

(** The characters that [\d] accepts, and those that [[A-Z]] accepts
    when case is ignored.  (On the code points below 256 these are the
    digits 0-9 and the letters A-Z and a-z; on other text Python accepts
    further decimal digits and four further letters.) *)
Definition digit_class (c : ascii) : bool := Re.atom_matches true Extractor.digit c.

Definition letter_class (c : ascii) : bool :=
  Re.atom_matches true (Re.OneOf [Extractor.upper_az]) c.

(** Ten characters: one of 6, 7, 8, 9 and nine that [\d] accepts. *)
Definition mobile_number (d : string) : Prop :=
  String.length d = 10 /\
  exists c rest,
    d = String c rest /\ Py.between 54 57 c = true /\
    Py.all_chars digit_class rest = true.

(** Four characters that [\d] accepts. *)
Definition four_digits (d : string) : Prop :=
  String.length d = 4 /\ Py.all_chars digit_class d = true.

(** Nothing, or one whitespace character or hyphen. *)
Definition optional_separator (sep : string) : Prop :=
  sep = "" \/ exists c, sep = String c "" /\ (Py.is_space c = true \/ c = "-"%char).

(** * Properties *)

Example lower_ex : Py.lower "What is your Aadhaar Number?" = "what is your aadhaar number?".
Proof. reflexivity. Qed.

Example strip_ex : Py.strip "  a b  " = "a b".
Proof. reflexivity. Qed.

Example split_ex : Py.split " John  Michael Smith " = ["John"; "Michael"; "Smith"].
Proof. reflexivity. Qed.

Example split_on_ex : Py.split_on "/" "a//b/" = ["a"; ""; "b"; ""].
Proof. reflexivity. Qed.

Example replace_ex : Py.replace "aa" "b" "aaaxaa" = "baxb".
Proof. reflexivity. Qed.

Example replace_empty_ex : Py.replace "" "-" "abc" = "-a-b-c-".
Proof. reflexivity. Qed.

Example max_by_ex : Py.max_by Py.len ["ab"; "abcd"; "wxyz"; "a"] = Some "abcd".
Proof. reflexivity. Qed.

(** ** Field matcher *)

Lemma one_shot_first_hit label data :
  FormFiller.get_value_for_field label data =
  value_of data (first_hit label categories_one_shot).
Proof.
  unfold FormFiller.get_value_for_field, categories_one_shot, first_hit, hits.
  cbn [fst snd].
  repeat (match goal with
          | |- context [Py.any_in ?ks ?f] => destruct (Py.any_in ks f); [reflexivity|]
          end).
  reflexivity.
Qed.

Lemma is_Some_decide_Some {A} (x : A) : bool_decide (is_Some (Some x)) = true.
Proof. apply bool_decide_eq_true_2. eauto. Qed.

Lemma is_Some_decide_None {A} : bool_decide (is_Some (@None A)) = false.
Proof. apply bool_decide_eq_false_2. intros [? ?]; discriminate. Qed.

(* One category of the persistent matcher: its keyword test, then the
   lookup of its key. *)
Ltac persistent_category :=
  lazymatch goal with
  | |- match (if ?hit then ?found else None) with Some _ => _ | None => _ end = _ =>
      let E := fresh "E" in
      destruct hit; cbn [andb];
      [ destruct found eqn:E;
        [ rewrite is_Some_decide_Some; cbv beta iota; cbn [fst snd default]; rewrite E; reflexivity
        | rewrite (@is_Some_decide_None string); cbv beta iota ]
      | cbv beta iota ]
  end.

Lemma persistent_first_available label data :
  FormFillerSync.get_value_for_field label data =
  value_of data (first_available label data categories_persistent).
Proof.
  unfold FormFillerSync.get_value_for_field, categories_persistent,
    first_available, hits, value_of, dict_get.
  cbv zeta. cbn [fst snd].
  repeat persistent_category.
  all: reflexivity.
Qed.

(** C1, as stated, fails on the persistent variant: the label hits the
    name category first, [name] is not in the map, and the value of the
    later email category is returned instead of no value. *)
Lemma get_value_for_field_sync_passes_absent_key :
  first_hit "name and email" categories_persistent =
    Some (["name"; "naam"; "full name"; "your name"; "applicant"], "name") /\
  only_email !! "name" = None /\
  FormFillerSync.get_value_for_field "name and email" only_email = "a@b.c" /\
  FormFillerSync.get_value_for_field "name and email" only_email <>
    value_of only_email (first_hit "name and email" categories_persistent).
Proof. vm_compute. repeat split; discriminate. Qed.

(** C1 (amended): both variants test the categories in the order name,
    email, phone, aadhaar, pan, address, pincode, date on the lowercased
    label.  [form_filler.py] returns the value of the first category with
    a keyword hit, the empty string when its key is absent;
    [form_filler_sync.py] returns the value of the first category with a
    keyword hit whose key is bound in the field map, and goes on to the
    later categories when the key is absent. *)
Theorem get_value_for_field_priority label data :
  map snd categories_one_shot =
    ["name"; "email"; "phone"; "aadhaar"; "pan"; "address"; "pincode"; "date"] /\
  map snd categories_persistent = map snd categories_one_shot /\
  FormFiller.get_value_for_field label data =
    value_of data (first_hit label categories_one_shot) /\
  FormFillerSync.get_value_for_field label data =
    value_of data (first_available label data categories_persistent).
Proof.
  split; [reflexivity|]. split; [reflexivity|].
  split; [apply one_shot_first_hit | apply persistent_first_available].
Qed.

(** ** Reasoning about runs of the driver monad *)

Section Logic.

Context {D : driver}.

Local Abbreviation keeps := (@keeps D _).
Local Abbreviation hoare := (@hoare D _).
Local Abbreviation emits := (@emits D _).
Local Abbreviation logs_only := (@logs_only D _).

Lemma keeps_ret {A} (a : A) : keeps (ret a).
Proof. intros s. split; reflexivity. Qed.

Lemma keeps_throw {A} : keeps (@throw (state D) A).
Proof. intros s. split; reflexivity. Qed.

Lemma keeps_perform {A} (c : call A) : keeps (perform c).
Proof.
  intros s. unfold perform.
  destruct (exec D A c (st_world s)) as [[a|] w]; split; reflexivity.
Qed.

Lemma keeps_bind {A B} (m : M D A) (f : A -> M D B) :
  keeps m -> (forall a, keeps (f a)) -> keeps (bind m f).
Proof.
  intros Hm Hf s. unfold bind. specialize (Hm s).
  destruct (m s) as [[a| |] s1]; cbn [snd] in *; try exact Hm.
  destruct (Hf a s1) as [H1 H2]. destruct Hm as [H3 H4].
  split; congruence.
Qed.

Lemma keeps_try {A} (body handler : M D A) :
  keeps body -> keeps handler -> keeps (try_except body handler).
Proof.
  intros Hb Hh s. unfold try_except. specialize (Hb s).
  destruct (body s) as [[a| |] s1]; cbn [snd] in *; try exact Hb.
  destruct (Hh s1) as [H1 H2]. destruct Hb as [H3 H4].
  split; congruence.
Qed.

Lemma keeps_for_first {X R} (xs : list X) (body : X -> M D (option R)) :
  (forall x, keeps (body x)) -> keeps (for_first xs body).
Proof.
  intros Hb. induction xs as [|x xs IH]; cbn [for_first].
  - apply keeps_ret.
  - apply keeps_bind; [apply Hb|]. intros [r|]; [apply keeps_ret | exact IH].
Qed.

Lemma keeps_hold_loop fuel : keeps (@hold_loop D fuel).
Proof.
  induction fuel as [|n IH]; cbn [hold_loop].
  - intros s. split; reflexivity.
  - apply keeps_bind.
    + apply keeps_try; [|apply keeps_ret].
      apply keeps_bind; [apply keeps_perform | intros _].
      apply keeps_bind; [apply keeps_perform | intros; apply keeps_ret].
    + intros [|]; [exact IH | apply keeps_ret].
Qed.

Lemma keeps_hold_open fuel : keeps (@hold_open D fuel).
Proof. apply keeps_try; [apply keeps_hold_loop | apply keeps_ret]. Qed.

Lemma hoare_conseq {A} (P P' : state D -> Prop) (m : M D A)
    (Q Q' : outcome A -> state D -> Prop) :
  hoare P' m Q' -> (forall s, P s -> P' s) -> (forall r s, Q' r s -> Q r s) ->
  hoare P m Q.
Proof. intros H HP HQ s Hs. apply HQ, H, HP, Hs. Qed.

Lemma hoare_ret {A} (P : state D -> Prop) (a : A) (Q : outcome A -> state D -> Prop) :
  (forall s, P s -> Q (Ok a) s) -> hoare P (ret a) Q.
Proof. intros H s Hs. apply H, Hs. Qed.

Lemma hoare_bind {A B} (P : state D -> Prop) (m : M D A) (f : A -> M D B)
    (R : outcome A -> state D -> Prop) (Q : outcome B -> state D -> Prop) :
  hoare P m R ->
  (forall a, hoare (R (Ok a)) (f a) Q) ->
  (forall s, R Raise s -> Q Raise s) ->
  (forall s, R Waiting s -> Q Waiting s) ->
  hoare P (bind m f) Q.
Proof.
  intros Hm Hf Hr Hw s Hs. unfold bind. specialize (Hm s Hs).
  destruct (m s) as [[a| |] s1]; cbn [fst snd] in *.
  - apply Hf, Hm.
  - apply Hr, Hm.
  - apply Hw, Hm.
Qed.

Lemma hoare_try {A} (P : state D -> Prop) (body handler : M D A)
    (R Q : outcome A -> state D -> Prop) :
  hoare P body R ->
  (forall a s, R (Ok a) s -> Q (Ok a) s) ->
  (forall s, R Waiting s -> Q Waiting s) ->
  hoare (R Raise) handler Q ->
  hoare P (try_except body handler) Q.
Proof.
  intros Hb Hok Hw Hh s Hs. unfold try_except. specialize (Hb s Hs).
  destruct (body s) as [[a| |] s1]; cbn [fst snd] in *.
  - apply Hok, Hb.
  - apply Hh, Hb.
  - apply Hw, Hb.
Qed.

(** A property of the counters goes through a computation that keeps them. *)
Lemma hoare_keeps {A} (I : nat -> nat -> Prop) (m : M D A) :
  keeps m ->
  hoare (fun s => I (st_filled s) (st_total s)) m
        (fun _ s => I (st_filled s) (st_total s)).
Proof. intros Hk s Hs. destruct (Hk s) as [-> ->]. exact Hs. Qed.

Lemma hoare_for_each {X} (I : state D -> Prop) (xs : list X) (body : X -> M D unit) :
  (forall x, hoare I (body x) (fun _ => I)) ->
  hoare I (for_each xs body) (fun _ => I).
Proof.
  intros Hb. induction xs as [|x xs IH]; cbn [for_each].
  - apply hoare_ret. auto.
  - eapply hoare_bind; [apply Hb | intros; apply IH | auto | auto].
Qed.

Lemma emits_conseq {A} (m : M D A) (Q Q' : outcome A -> list event -> Prop) :
  emits m Q' -> (forall r l, Q' r l -> Q r l) -> emits m Q.
Proof. intros H HQ s. destruct (H s) as (l & Hl & Hq). exists l. auto. Qed.

Lemma emits_ret {A} (a : A) (Q : outcome A -> list event -> Prop) :
  Q (Ok a) [] -> emits (ret a) Q.
Proof. intros H s. exists []. cbn. rewrite app_nil_r. auto. Qed.

Lemma emits_throw {A} (Q : outcome A -> list event -> Prop) :
  Q Raise [] -> emits (@throw (state D) A) Q.
Proof. intros H s. exists []. cbn. rewrite app_nil_r. auto. Qed.

Lemma emits_perform {A} (c : call A) (Q : outcome A -> list event -> Prop) :
  (forall a, Q (Ok a) [Event c true]) -> Q Raise [Event c false] ->
  emits (perform c) Q.
Proof.
  intros Hok Hr s. unfold perform.
  destruct (exec D A c (st_world s)) as [[a|] w]; cbn.
  - exists [Event c true]. auto.
  - exists [Event c false]. auto.
Qed.

Lemma emits_counters (m : M D unit) (Q : outcome unit -> list event -> Prop) :
  (exists f, forall s, m s = set_counters (f s).1 (f s).2 s) ->
  Q (Ok tt) [] -> emits m Q.
Proof.
  intros [f Hf] H s. exists []. rewrite Hf. cbn. rewrite app_nil_r. auto.
Qed.

Lemma emits_bind {A B} (m : M D A) (f : A -> M D B)
    (R : outcome A -> list event -> Prop) (Q : outcome B -> list event -> Prop) :
  emits m R ->
  (forall a l1, R (Ok a) l1 -> emits (f a) (fun r l2 => Q r (l1 ++ l2))) ->
  (forall l, R Raise l -> Q Raise l) ->
  (forall l, R Waiting l -> Q Waiting l) ->
  emits (bind m f) Q.
Proof.
  intros Hm Hf Hr Hw s. unfold bind. destruct (Hm s) as (l1 & Hl1 & H1).
  destruct (m s) as [[a| |] s1]; cbn [fst snd] in *.
  - destruct (Hf a l1 H1 s1) as (l2 & Hl2 & H2).
    exists (l1 ++ l2). rewrite Hl2, Hl1, app_assoc. auto.
  - exists l1. auto.
  - exists l1. auto.
Qed.

Lemma emits_try {A} (body handler : M D A)
    (R Q : outcome A -> list event -> Prop) :
  emits body R ->
  (forall a l, R (Ok a) l -> Q (Ok a) l) ->
  (forall l, R Waiting l -> Q Waiting l) ->
  (forall l1, R Raise l1 -> emits handler (fun r l2 => Q r (l1 ++ l2))) ->
  emits (try_except body handler) Q.
Proof.
  intros Hb Hok Hw Hh s. unfold try_except. destruct (Hb s) as (l1 & Hl1 & H1).
  destruct (body s) as [[a| |] s1]; cbn [fst snd] in *.
  - exists l1. auto.
  - destruct (Hh l1 H1 s1) as (l2 & Hl2 & H2).
    exists (l1 ++ l2). rewrite Hl2, Hl1, app_assoc. auto.
  - exists l1. auto.
Qed.

Lemma logs_only_ret {A} P (a : A) : logs_only P (ret a).
Proof. apply emits_ret. constructor. Qed.

Lemma logs_only_throw {A} P : logs_only P (@throw (state D) A).
Proof. apply emits_throw. constructor. Qed.

Lemma logs_only_perform {A} (P : event -> Prop) (c : call A) :
  (forall ok, P (Event c ok)) -> logs_only P (perform c).
Proof. intros H. apply emits_perform; intros; repeat constructor; apply H. Qed.

Lemma logs_only_bind {A B} P (m : M D A) (f : A -> M D B) :
  logs_only P m -> (forall a, logs_only P (f a)) -> logs_only P (bind m f).
Proof.
  intros Hm Hf. eapply emits_bind; [exact Hm | | auto | auto].
  intros a l1 H1. eapply emits_conseq; [apply Hf|].
  cbn. intros _ l2 H2. apply Forall_app. auto.
Qed.

Lemma logs_only_try {A} P (body handler : M D A) :
  logs_only P body -> logs_only P handler -> logs_only P (try_except body handler).
Proof.
  intros Hb Hh. eapply emits_try; [exact Hb | auto | auto |].
  intros l1 H1. eapply emits_conseq; [apply Hh|].
  cbn. intros _ l2 H2. apply Forall_app. auto.
Qed.

Lemma logs_only_for_first {X R} P (xs : list X) (body : X -> M D (option R)) :
  (forall x, logs_only P (body x)) -> logs_only P (for_first xs body).
Proof.
  intros Hb. induction xs as [|x xs IH]; cbn [for_first].
  - apply logs_only_ret.
  - apply logs_only_bind; [apply Hb|]. intros [r|]; [apply logs_only_ret | exact IH].
Qed.

Lemma logs_only_for_each {X} P (xs : list X) (body : X -> M D unit) :
  (forall x, logs_only P (body x)) -> logs_only P (for_each xs body).
Proof.
  intros Hb. induction xs as [|x xs IH]; cbn [for_each].
  - apply logs_only_ret.
  - apply logs_only_bind; [apply Hb | intros; exact IH].
Qed.

Lemma logs_only_hold_loop P fuel :
  (forall ok, P (Event Title ok)) -> (forall ok, P (Event (Sleep 1) ok)) ->
  logs_only P (@hold_loop D fuel).
Proof.
  intros HP HS. induction fuel as [|n IH]; cbn [hold_loop].
  - intros s. exists []. cbn. rewrite app_nil_r. split; [reflexivity | constructor].
  - apply logs_only_bind.
    + apply logs_only_try; [|apply logs_only_ret].
      apply logs_only_bind; [apply logs_only_perform, HP | intros _].
      apply logs_only_bind; [apply logs_only_perform, HS | intros; apply logs_only_ret].
    + intros [|]; [exact IH | apply logs_only_ret].
Qed.

Lemma logs_only_hold_open P fuel :
  (forall ok, P (Event Title ok)) -> (forall ok, P (Event (Sleep 1) ok)) ->
  logs_only P (@hold_open D fuel).
Proof.
  intros HP HS. apply logs_only_try; [apply logs_only_hold_loop; assumption|].
  apply logs_only_ret.
Qed.

Lemma logs_only_counters P (m : M D unit) :
  (exists f, forall s, m s = set_counters (f s).1 (f s).2 s) -> logs_only P m.
Proof. intros H. apply emits_counters; [exact H | constructor]. Qed.

End Logic.

(** ** The counters of a fill session *)

(* Closes goals [keeps m] for code built from the monad's combinators. *)
Ltac keeps_tac :=
  repeat first
    [ apply keeps_ret | apply keeps_throw | apply keeps_perform
    | apply keeps_hold_open | apply keeps_for_first | apply keeps_try
    | apply keeps_bind
    | match goal with
      | |- keeps (match ?x with _ => _ end) => destruct x
      | |- forall _, _ => intro
      end ].

Section Counters.

Context {D : driver}.

Lemma keeps_get_question_text q : keeps (@FormFillerSync._get_question_text D q).
Proof. unfold FormFillerSync._get_question_text. keeps_tac. Qed.

Lemma keeps_fill_field_advanced q v t :
  keeps (@FormFillerSync._fill_field_advanced D q v t).
Proof.
  unfold FormFillerSync._fill_field_advanced, FormFillerSync.fill_input,
    FormFillerSync.type_into, FormFillerSync.fill_contenteditable,
    FormFillerSync.fill_by_script.
  keeps_tac.
Qed.

Lemma keeps_fill_field q v : keeps (@FormFiller.fill_field D q v).
Proof.
  unfold FormFiller.fill_field, FormFiller.fill_text_input, FormFiller.click_label,
    FormFiller.select_dropdown.
  keeps_tac.
Qed.

Lemma incr_total_lt :
  hoare le_counters (@incr_total D) (fun _ => lt_counters).
Proof. intros s H. unfold le_counters, lt_counters in *. cbn. lia. Qed.

Lemma incr_filled_le :
  hoare lt_counters (@incr_filled D) (fun _ => le_counters).
Proof. intros s H. unfold le_counters, lt_counters in *. cbn. lia. Qed.

Lemma lt_le_counters (s : state D) : lt_counters s -> le_counters s.
Proof. unfold le_counters, lt_counters. lia. Qed.

(* After the increment of [total], whatever the rest of the iteration
   does, [filled] ends at most equal to [total]. *)
Lemma after_increment (value : string) (fill : M D bool) :
  keeps fill ->
  hoare lt_counters
    (if negb (nonempty value) then ret tt
     else success <- fill ;; if success : bool then incr_filled else ret tt)
    (fun _ => le_counters).
Proof.
  intros Hk. destruct (negb (nonempty value)).
  - apply hoare_ret. apply lt_le_counters.
  - eapply hoare_bind with (R := fun _ => lt_counters).
    + apply (hoare_keeps lt _ Hk).
    + intros [|]; [apply incr_filled_le | apply hoare_ret, lt_le_counters].
    + apply lt_le_counters.
    + apply lt_le_counters.
Qed.

Lemma sync_question_step_le data q :
  hoare le_counters (@FormFillerSync.question_step D data q) (fun _ => le_counters).
Proof.
  unfold FormFillerSync.question_step.
  eapply hoare_try with (R := fun _ => le_counters); [ | auto | auto | apply hoare_ret; auto].
  eapply hoare_bind with (R := fun _ => le_counters); [ | | auto | auto].
  - apply (hoare_keeps le), keeps_get_question_text.
  - intros q_text. destruct (negb (nonempty q_text)); [apply hoare_ret; auto|].
    eapply hoare_bind with (R := fun _ => lt_counters);
      [apply incr_total_lt | | apply lt_le_counters | apply lt_le_counters].
    intros _. apply after_increment, keeps_fill_field_advanced.
Qed.

Lemma one_shot_question_step_le data q :
  hoare le_counters (@FormFiller.question_step D data q) (fun _ => le_counters).
Proof.
  unfold FormFiller.question_step.
  eapply hoare_try with (R := fun _ => le_counters); [ | auto | auto | apply hoare_ret; auto].
  eapply hoare_bind with (R := fun _ => le_counters); [ | | auto | auto].
  - apply (hoare_keeps le), keeps_perform.
  - intros [heading|]; [|apply hoare_ret; auto].
    eapply hoare_bind with (R := fun _ => le_counters); [ | | auto | auto].
    + apply (hoare_keeps le), keeps_perform.
    + intros q_text. cbv zeta.
      match goal with |- context [if ?b then ret tt else _] => destruct b end;
        [apply hoare_ret; auto|].
      eapply hoare_bind with (R := fun _ => lt_counters);
        [apply incr_total_lt | | apply lt_le_counters | apply lt_le_counters].
      intros _. apply after_increment, keeps_fill_field.
Qed.

(* A step of the session that does not touch the counters. *)
Lemma session_step {A B} (I : state D -> Prop) (m : M D A) (f : A -> M D B)
    (Q : outcome B -> state D -> Prop) :
  hoare I m (fun _ => I) ->
  (forall a, hoare I (f a) Q) ->
  (forall s, Q Raise s) -> (forall s, Q Waiting s) ->
  hoare I (bind m f) Q.
Proof. intros Hm Hf Hr Hw. eapply hoare_bind; eauto. Qed.

Lemma return_counters :
  hoare le_counters
    (c <- @get_counters D ;; ret (c.1, c.2, "filled_form.png"))
    (fun r _ => counts_ok r).
Proof. intros s H. exact H. Qed.

Lemma perform_true {A} (c : call A) :
  hoare (fun _ : state D => True) (perform c) (fun _ _ => True).
Proof. intros s _. exact I. Qed.

Lemma perform_le {A} (c : call A) :
  hoare le_counters (@perform D A c) (fun _ => le_counters).
Proof. apply (hoare_keeps le), keeps_perform. Qed.

Lemma reset_counters_le :
  hoare (fun _ : state D => True) (set_counters 0 0) (fun _ => le_counters).
Proof. intros s _. unfold le_counters. cbn. lia. Qed.

(* A handler that ends by raising again never returns a triple. *)
Lemma then_counts_ok {A} (P : state D -> Prop) (m : M D A)
    (f : A -> M D (nat * nat * string)) :
  (forall a s, counts_ok (fst (f a s))) ->
  hoare P (bind m f) (fun r _ => counts_ok r).
Proof.
  intros Hf s _. unfold bind. destruct (m s) as [[a| |] s1]; cbn; auto.
Qed.

Lemma reraise_counts_ok {A} (P : state D -> Prop) (m : M D A) :
  hoare P (m ;;; @throw (state D) (nat * nat * string)) (fun r _ => counts_ok r).
Proof. apply then_counts_ok. intros _ s. exact I. Qed.

Lemma sync_fill_form_counts fuel url data :
  hoare (fun _ => True) (@FormFillerSync.fill_form D fuel url data)
    (fun r _ => counts_ok r).
Proof.
  unfold FormFillerSync.fill_form. cbv zeta.
  eapply hoare_try with (R := fun r _ => counts_ok r);
    [ | auto | auto | intros s _; exact I].
  do 4 (apply session_step; [apply perform_true | intros _ | intros; exact I ..]).
  eapply hoare_try with (R := fun r _ => counts_ok r); [ | auto | auto | ].
  - do 2 (apply session_step; [apply perform_true | intros _ | intros; exact I ..]).
    eapply hoare_bind with (R := fun _ => le_counters);
      [apply reset_counters_le | intros _ | intros; exact I ..].
    apply session_step; [apply perform_le | intros _ | intros; exact I ..].
    apply session_step; [apply perform_le | intros questions | intros; exact I ..].
    apply session_step;
      [apply hoare_for_each; intros q; apply sync_question_step_le
      | intros _ | intros; exact I ..].
    do 2 (apply session_step; [apply perform_le | intros _ | intros; exact I ..]).
    apply session_step;
      [apply (hoare_keeps le), keeps_hold_open | intros _ | intros; exact I ..].
    apply return_counters.
  - apply then_counts_ok. intros _ s.
    apply (then_counts_ok (fun _ => True)); [|exact I]. intros _ s1.
    apply (reraise_counts_ok (fun _ => True)). exact I.
Qed.

Lemma one_shot_fill_form_counts url data :
  hoare (fun _ => True) (@FormFiller.fill_form D url data) (fun r _ => counts_ok r).
Proof.
  unfold FormFiller.fill_form.
  eapply hoare_try with (R := fun r _ => counts_ok r);
    [ | auto | auto | intros s _; exact I].
  do 4 (apply session_step; [apply perform_true | intros _ | intros; exact I ..]).
  eapply hoare_try with (R := fun r _ => counts_ok r); [ | auto | auto | ].
  - do 2 (apply session_step; [apply perform_true | intros _ | intros; exact I ..]).
    eapply hoare_bind with (R := fun _ => le_counters);
      [apply reset_counters_le | intros _ | intros; exact I ..].
    apply session_step; [apply perform_le | intros questions | intros; exact I ..].
    apply session_step;
      [apply hoare_for_each; intros q; apply one_shot_question_step_le
      | intros _ | intros; exact I ..].
    do 3 (apply session_step; [apply perform_le | intros _ | intros; exact I ..]).
    apply return_counters.
  - apply reraise_counts_ok.
Qed.

End Counters.

(** ** Rewriting a preview address *)

Lemma prefix_cons_inv a w c s :
  String.prefix (String a w) (String c s) = true -> a = c /\ String.prefix w s = true.
Proof.
  cbn [String.prefix]. destruct (ascii_dec a c) as [->|]; [auto | discriminate].
Qed.

Lemma prefix_cons_same a w s :
  String.prefix w s = true -> String.prefix (String a w) (String a s) = true.
Proof.
  intros H. cbn [String.prefix]. destruct (ascii_dec a a); [exact H | congruence].
Qed.

(* A word without a slash that starts the rewritten text starts the
   original text as well: no character of it comes from a replacement. *)
Lemma prefix_of_rewritten w :
  Py.any_char (Ascii.eqb "/") w = false ->
  forall s,
    String.prefix w (Py.replace_scan "/preview" "/viewform" 0 s) = true ->
    String.prefix w s = true.
Proof.
  induction w as [|a w IH]; intros Hw s H.
  - destruct s; reflexivity.
  - cbn [Py.any_char] in Hw. apply orb_false_iff in Hw as [Ha Hw].
    destruct s as [|c s]; [discriminate H|].
    cbn [Py.replace_scan] in H.
    destruct (String.prefix "/preview" (String c s)).
    + apply prefix_cons_inv in H as [-> _]. discriminate Ha.
    + apply prefix_cons_inv in H as [-> H]. apply prefix_cons_same, IH; assumption.
Qed.

Lemma contains_cons_other c s :
  c <> "/"%char -> Py.contains "/preview" (String c s) = Py.contains "/preview" s.
Proof.
  intros Hc. cbn [Py.contains String.prefix].
  destruct (ascii_dec "/" c) as [<-|]; [congruence | reflexivity].
Qed.

Lemma contains_viewform s :
  Py.contains "/preview" ("/viewform" +:+ s) = Py.contains "/preview" s.
Proof.
  cbn [String.append]. cbn [Py.contains]. 
  replace (String.prefix "/preview" (String "/" (String "v" (String "i" (String "e"
            (String "w" (String "f" (String "o" (String "r" (String "m" s))))))))))
    with false by reflexivity.
  cbn [orb]. repeat (rewrite contains_cons_other by discriminate). reflexivity.
Qed.

Lemma replace_scan_no_preview s :
  forall skip, Py.contains "/preview" (Py.replace_scan "/preview" "/viewform" skip s) = false.
Proof.
  induction s as [|c s IH]; intros skip; [reflexivity|].
  cbn [Py.replace_scan]. destruct skip as [|k]; [|apply IH].
  destruct (String.prefix "/preview" (String c s)) eqn:Hp.
  - rewrite contains_viewform. apply IH.
  - cbn [Py.contains]. rewrite IH, orb_false_r.
    destruct (String.prefix "/preview"
                (String c (Py.replace_scan "/preview" "/viewform" 0 s))) eqn:Hq;
      [|reflexivity].
    apply prefix_cons_inv in Hq as [<- Hq].
    apply prefix_of_rewritten in Hq; [|reflexivity].
    apply (prefix_cons_same "/") in Hq. congruence.
Qed.

Lemma viewform_url_no_preview url :
  Py.contains "/preview" (FormFillerSync.viewform_url url) = false.
Proof.
  unfold FormFillerSync.viewform_url.
  destruct (Py.contains "/preview" url) eqn:H; [|exact H].
  apply replace_scan_no_preview.
Qed.

(** ** The calls of a fill session *)

Section Calls.

Context {D : driver}.

Lemma logs_only_set_counters P f t : logs_only P (@set_counters D f t).
Proof. apply logs_only_counters. exists (fun _ => (f, t)). reflexivity. Qed.

Lemma logs_only_incr_total P : logs_only P (@incr_total D).
Proof.
  apply logs_only_counters. exists (fun s => (st_filled s, st_total s + 1)). reflexivity.
Qed.

Lemma logs_only_incr_filled P : logs_only P (@incr_filled D).
Proof.
  apply logs_only_counters. exists (fun s => (st_filled s + 1, st_total s)). reflexivity.
Qed.

Lemma logs_only_get_counters P : logs_only P (@get_counters D).
Proof. intros s. exists []. cbn. rewrite app_nil_r. split; [reflexivity | constructor]. Qed.

End Calls.

(* Closes goals [logs_only P m] for code built from the monad's
   combinators, when every call made satisfies [P] by computation. *)
Ltac logs_tac :=
  repeat first
    [ match goal with H : forall _, logs_only _ _ |- _ => apply H end
    | progress cbv zeta
    | apply logs_only_ret | apply logs_only_throw
    | apply logs_only_set_counters | apply logs_only_incr_total
    | apply logs_only_incr_filled | apply logs_only_get_counters
    | apply logs_only_perform; intro; first [exact I | reflexivity]
    | apply logs_only_hold_open; intro; exact I
    | apply logs_only_for_first | apply logs_only_for_each
    | apply logs_only_try | apply logs_only_bind
    | match goal with
      | |- logs_only _ (match ?x with _ => _ end) => destruct x
      | |- forall _, _ => intro
      end ].

Lemma sync_question_step_no_goto {D} url data q :
  logs_only (goes_to url) (@FormFillerSync.question_step D data q).
Proof.
  unfold FormFillerSync.question_step, FormFillerSync._get_question_text,
    FormFillerSync._fill_field_advanced, FormFillerSync.fill_input,
    FormFillerSync.type_into, FormFillerSync.fill_contenteditable,
    FormFillerSync.fill_by_script.
  logs_tac.
Qed.

Lemma sync_fill_form_goes_to {D} fuel url data :
  logs_only (goes_to (FormFillerSync.viewform_url url))
    (@FormFillerSync.fill_form D fuel url data).
Proof.
  unfold FormFillerSync.fill_form. cbv zeta.
  pose proof (@sync_question_step_no_goto D (FormFillerSync.viewform_url url) data) as Hq.
  logs_tac.
Qed.

Lemma for_each_app {D X} (xs ys : list X) (body : X -> M D unit) (s : state D) :
  for_each (xs ++ ys) body s = (for_each xs body ;;; for_each ys body) s.
Proof.
  revert s. induction xs as [|x xs IH]; intros s; cbn [for_each app].
  - reflexivity.
  - unfold bind. destruct (body x s) as [[[]| |] s1]; [|reflexivity..].
    rewrite IH. reflexivity.
Qed.

(** C7: in both variants [filled <= total] holds after every number of
    iterations of the question loop, started as [fill_form] starts it
    with both counters at 0, and in every triple [fill_form] returns. *)
Theorem filled_never_exceeds_total (D : driver) (data : gmap string string) :
  (forall (questions : list handle) (n : nat) (s : state D),
     le_counters
       (snd (for_each (firstn n questions) (FormFillerSync.question_step data)
               (snd (set_counters 0 0 s))))) /\
  (forall (questions : list handle) (n : nat) (s : state D),
     le_counters
       (snd (for_each (firstn n questions) (FormFiller.question_step data)
               (snd (set_counters 0 0 s))))) /\
  (forall fuel url (s : state D),
     counts_ok (fst (FormFillerSync.fill_form fuel url data s))) /\
  (forall url (s : state D), counts_ok (fst (FormFiller.fill_form url data s))).
Proof.
  repeat split.
  - intros questions n s.
    apply (hoare_for_each le_counters (firstn n questions) _
             (sync_question_step_le data)).
    unfold le_counters. cbn. lia.
  - intros questions n s.
    apply (hoare_for_each le_counters (firstn n questions) _
             (one_shot_question_step_le data)).
    unfold le_counters. cbn. lia.
  - intros fuel url s. apply (sync_fill_form_counts fuel url data s I).
  - intros url s. apply (one_shot_fill_form_counts url data s I).
Qed.

(** ** The order of the filling strategies *)

Section Strategies.

Context {D : driver}.

(* Rules that need no intermediate assertion. *)
Lemma emits_bind_wp {A B} (m : M D A) (f : A -> M D B)
    (Q : outcome B -> list event -> Prop) :
  emits m (fun r l1 =>
             match r with
             | Ok a => emits (f a) (fun r l2 => Q r (l1 ++ l2))
             | Raise => Q Raise l1
             | Waiting => Q Waiting l1
             end) ->
  emits (bind m f) Q.
Proof. intros H. eapply emits_bind; [exact H | | |]; cbn; auto. Qed.

Lemma emits_try_wp {A} (body handler : M D A) (Q : outcome A -> list event -> Prop) :
  emits body (fun r l1 =>
                match r with
                | Ok a => Q (Ok a) l1
                | Raise => emits handler (fun r l2 => Q r (l1 ++ l2))
                | Waiting => Q Waiting l1
                end) ->
  emits (try_except body handler) Q.
Proof. intros H. eapply emits_try; [exact H | | |]; cbn; auto. Qed.

Lemma emits_ext {A} (m m' : M D A) (Q : outcome A -> list event -> Prop) :
  (forall s, m s = m' s) -> emits m Q -> emits m' Q.
Proof. intros He H s. rewrite <- He. apply H. Qed.















End Strategies.

(* Runs through straight-line code of the monad, leaving one goal per
   way out of it. *)
Ltac wp_tac :=
  repeat first
    [ progress cbv beta iota zeta
    | apply emits_ret
    | apply emits_perform; [intro|]
    | apply emits_try_wp
    | apply emits_bind_wp
    | match goal with
      | |- emits (match ?x with _ => _ end) _ => destruct x
      end ].


Section FillField.

Context {D : driver}.









End FillField.

(** ** The field filler *)

Lemma perform_not_waiting {D A} (c : call A) (s : state D) :
  fst (perform c s) <> Waiting.
Proof.
  unfold perform. destruct (exec D A c (st_world s)) as [[a|] w]; discriminate.
Qed.

(* Once typing is through, the attempt on an input returns [True]: the
   read-back of the value can differ or raise. *)
Lemma fill_input_typed {D} inp value (s s1 : state D) :
  perform (IsVisible inp) s = (Ok true, s1) ->
  fst (FormFillerSync.type_into inp value s1) = Ok tt ->
  fst (FormFillerSync.fill_input inp value s) = Ok (Some true).
Proof.
  intros Hv Ht. unfold FormFillerSync.fill_input, try_except.
  unfold bind at 1. rewrite Hv. cbn [negb].
  unfold bind at 1. destruct (FormFillerSync.type_into inp value s1) as [r s2].
  cbn [fst] in Ht. subst r.
  unfold bind at 1. unfold try_except. unfold bind at 1.
  pose proof (perform_not_waiting (InputValue inp) s2) as Hw.
  destruct (perform (InputValue inp) s2) as [[v| |] s3]; cbn [fst] in *.
  - unfold ret. destruct (String.eqb v value); reflexivity.
  - reflexivity.
  - congruence.
Qed.

(** ** The clicks on labels *)

Section LabelClicks.

Context {D : driver}.
Variable value : string.












End LabelClicks.










(** On [choice_page], with the value "yes": the text of both labels is
    read, and only the second one, "Yes", is clicked. *)
Example one_shot_clicks_matching_label :
  let run := FormFiller.fill_field 1 "yes" (start choice_page) in
  fst run = Ok true /\
  st_log (snd run) =
    [Event (QueryAll 1 SelTextInputs) true; Event (QueryAll 1 SelLabel) true;
     Event (InnerText 11) true; Event (InnerText 12) true; Event (Click 12) true;
     Event (WaitForTimeout 300) true].
Proof. cbv zeta. split; vm_compute; reflexivity. Qed.

(** C8: in strategy 1 of [form_filler_sync.py], when a visible input has
    been scrolled to, clicked, cleared and typed into without an exception,
    the attempt on it returns [True] and so does [_fill_field_advanced] when
    it is the first input found, whatever the read-back of the value gives
    (an equal value, another value or an exception). *)
Theorem typed_input_counts_as_filled (D : driver) q value text inp inputs
    (s s1 s2 : state D) :
  perform (QueryAll q SelInputText) s = (Ok (inp :: inputs), s1) ->
  perform (IsVisible inp) s1 = (Ok true, s2) ->
  fst (FormFillerSync.type_into inp value s2) = Ok tt ->
  fst (FormFillerSync.fill_input inp value s1) = Ok (Some true) /\
  fst (FormFillerSync._fill_field_advanced q value text s) = Ok true.
Proof.
  intros Hq Hv Ht.
  pose proof (fill_input_typed inp value s1 s2 Hv Ht) as Hfill.
  split; [exact Hfill|].
  unfold FormFillerSync._fill_field_advanced, FormFillerSync.input_selectors.
  cbn [for_first]. unfold bind at 1. unfold bind at 1. unfold bind at 1.
  rewrite Hq. cbn [for_first]. unfold bind at 1. 
  destruct (FormFillerSync.fill_input inp value s1) as [r s3].
  cbn [fst] in Hfill. subst r. reflexivity.
Qed.

(** The read-back on [phone_page] differs from the value typed. *)
Lemma typed_input_counts_as_filled_witness :
  pg_value phone_page 11 <> "9876543210" /\
  fst (FormFillerSync.fill_input 11 "9876543210"
         (snd (perform (QueryAll 1 SelInputText) (start phone_page)))) = Ok (Some true) /\
  fst (FormFillerSync._fill_field_advanced 1 "9876543210" "mobile number"
         (start phone_page)) = Ok true.
Proof.
  split; [discriminate|].
  eapply (typed_input_counts_as_filled (scripted phone_page) 1 "9876543210"
            "mobile number" 11 []); reflexivity.
Defined.

(** ** Pieces of strings *)

Lemma append_cons x (a b : string) : String x a +:+ b = String x (a +:+ b).
Proof. reflexivity. Qed.

Lemma append_assoc (a b c : string) : (a +:+ b) +:+ c = a +:+ (b +:+ c).
Proof.
  induction a as [|x a IH]; [reflexivity|].
  rewrite !append_cons. f_equal. exact IH.
Qed.

Lemma append_empty_r (a : string) : a +:+ "" = a.
Proof.
  induction a as [|x a IH]; [reflexivity|].
  rewrite !append_cons. f_equal. exact IH.
Qed.

Lemma substring_of_refl s : substring_of s s.
Proof. exists "", "". change ("" +:+ s +:+ "") with (s +:+ ""). rewrite append_empty_r. reflexivity. Qed.

Lemma substring_of_trans a b c :
  substring_of a b -> substring_of b c -> substring_of a c.
Proof.
  intros (p1 & q1 & ->) (p2 & q2 & ->).
  exists (p2 +:+ p1), (q1 +:+ q2). rewrite !append_assoc. reflexivity.
Qed.

Lemma substring_of_cons c a s : substring_of a s -> substring_of a (String c s).
Proof. intros (p & q & ->). exists (String c p), q. reflexivity. Qed.

Lemma take_prefix n s : exists post, s = Py.take n s +:+ post.
Proof.
  revert s. induction n as [|n IH]; intros s.
  - exists s. destruct s; reflexivity.
  - destruct s as [|c s]; [exists ""; reflexivity|].
    destruct (IH s) as [post H]. exists post. cbn [Py.take]. rewrite append_cons, <- H. reflexivity.
Qed.

Lemma take_substring n s : substring_of (Py.take n s) s.
Proof. destruct (take_prefix n s) as [post H]. exists "", post. exact H. Qed.

Lemma advance_suffix n prev s : exists pre, s = pre +:+ snd (Re.advance n prev s).
Proof.
  revert prev s. induction n as [|n IH]; intros prev s.
  - exists "". destruct s; reflexivity.
  - destruct s as [|c s]; [exists ""; reflexivity|].
    destruct (IH (Some c) s) as [pre H]. exists (String c pre). cbn [Re.advance]. rewrite append_cons, <- H. reflexivity.
Qed.

Lemma advance_substring n prev s : substring_of (snd (Re.advance n prev s)) s.
Proof.
  destruct (advance_suffix n prev s) as [pre H]. exists pre, "".
  rewrite append_empty_r. exact H.
Qed.

Lemma lstrip_substring s : substring_of (Py.lstrip s) s.
Proof.
  induction s as [|c s IH]; cbn [Py.lstrip]; [apply substring_of_refl|].
  destruct (Py.is_space c); [apply substring_of_cons, IH | apply substring_of_refl].
Qed.

Lemma rstrip_prefix s : exists post, s = Py.rstrip s +:+ post.
Proof.
  induction s as [|c s [post IH]]; cbn [Py.rstrip]; [exists ""; reflexivity|].
  destruct (Py.rstrip s) as [|d r].
  - destruct (Py.is_space c); [exists (String c s) | exists s]; reflexivity.
  - exists post. rewrite append_cons, <- IH. reflexivity.
Qed.

Lemma strip_substring s : substring_of (Py.strip s) s.
Proof.
  unfold Py.strip. eapply substring_of_trans; [|apply lstrip_substring].
  destruct (rstrip_prefix (Py.lstrip s)) as [post H]. exists "", post. exact H.
Qed.

(** ** The leftmost match *)

Lemma search_in_leftmost ic r s :
  forall prev i n,
    Re.search_in ic r prev s = Some (i, n) ->
    (let '(p, s') := Re.advance i prev s in Re.match_here ic r p s') = Some n /\
    forall j, j < i ->
      (let '(p, s') := Re.advance j prev s in Re.match_here ic r p s') = None.
Proof.
  induction s as [|c s IH]; intros prev i n H; cbn [Re.search_in] in H.
  - destruct (Re.match_here ic r prev "") eqn:E; [|discriminate].
    injection H as <- <-. split; [exact E | intros j Hj; lia].
  - destruct (Re.match_here ic r prev (String c s)) eqn:E.
    + injection H as <- <-. split; [exact E | intros j Hj; lia].
    + destruct (Re.search_in ic r (Some c) s) as [[i' n']|] eqn:E'; [|discriminate].
      injection H as <- <-. destruct (IH _ _ _ E') as [Hm Hl].
      split; [exact Hm|]. intros [|j] Hj; [exact E|]. apply Hl. lia.
Qed.

Lemma search_in_none ic r s :
  forall prev, Re.search_in ic r prev s = None ->
  forall j, (let '(p, s') := Re.advance j prev s in Re.match_here ic r p s') = None.
Proof.
  induction s as [|c s IH]; intros prev H j; cbn [Re.search_in] in H.
  - destruct (Re.match_here ic r prev "") eqn:E; [discriminate|].
    destruct j; exact E.
  - destruct (Re.match_here ic r prev (String c s)) eqn:E; [discriminate|].
    destruct (Re.search_in ic r (Some c) s) as [[i' n']|] eqn:E'; [discriminate|].
    destruct j as [|j]; [exact E | apply (IH _ E')].
Qed.

(* The first element of [re.findall] is the leftmost match. *)
Lemma findall_head ic r text :
  head (Re.findall ic r text) =
  match Re.search_in ic r None text with
  | Some (i, n) => Some (Py.take n (snd (Re.advance i None text)))
  | None => None
  end.
Proof.
  unfold Re.findall. cbn [Re.findall_in].
  destruct (Re.search_in ic r None text) as [[i n]|]; [|reflexivity].
  destruct (Re.advance i None text) as [p1 s1].
  destruct (Re.advance (Nat.max n 1) p1 s1) as [p2 s2]. reflexivity.
Qed.

(** ** The regex fields *)

Lemma bind_first_match_other text data entry key :
  key <> entry.1 -> Extractor.bind_first_match text data entry !! key = data !! key.
Proof.
  intros Hne. unfold Extractor.bind_first_match.
  destruct (Re.findall true entry.2 text); [reflexivity|].
  apply lookup_insert_ne. congruence.
Qed.

Lemma fold_bind_first_match_other text ps :
  forall data key, ~ In key (map fst ps) ->
  fold_left (Extractor.bind_first_match text) ps data !! key = data !! key.
Proof.
  induction ps as [|e ps IH]; intros data key Hk; cbn [fold_left]; [reflexivity|].
  cbn [map In] in Hk. rewrite IH by tauto.
  apply bind_first_match_other. intros ->. tauto.
Qed.

(* A key of the table is bound by its own pattern only. *)
Lemma fold_bind_first_match_lookup text ps :
  List.NoDup (map fst ps) ->
  forall data key pattern, In (key, pattern) ps ->
  fold_left (Extractor.bind_first_match text) ps data !! key =
  match head (Re.findall true pattern text) with
  | Some found => Some (Py.strip found)
  | None => data !! key
  end.
Proof.
  induction ps as [|e ps IH]; intros Hnd data key pattern Hin; [destruct Hin|].
  cbn [map] in Hnd. apply List.NoDup_cons_iff in Hnd as [Hfresh Hnd].
  cbn [fold_left]. destruct Hin as [->|Hin].
  - rewrite fold_bind_first_match_other by exact Hfresh.
    unfold Extractor.bind_first_match. cbn [fst snd].
    destruct (Re.findall true pattern text); cbn [head];
      [reflexivity | apply lookup_insert_eq].
  - rewrite (IH Hnd _ _ _ Hin).
    destruct (head (Re.findall true pattern text)); [reflexivity|].
    apply bind_first_match_other. intros ->. apply Hfresh.
    apply (in_map fst) in Hin. exact Hin.
Qed.

Lemma store_other k v data key :
  key <> k -> Extractor.store k v data !! key = data !! key.
Proof.
  intros Hne. unfold Extractor.store. destruct v as [v|]; [|reflexivity].
  destruct (nonempty v); [|reflexivity]. apply lookup_insert_ne. congruence.
Qed.

Lemma regex_field_lookup bert text data key pattern :
  In (key, pattern) Extractor.patterns ->
  Extractor.extract_structured_data bert text data !! key =
  match head (Re.findall true pattern text) with
  | Some found => Some (Py.strip found)
  | None => data !! key
  end.
Proof.
  intros Hin. unfold Extractor.extract_structured_data. cbv zeta.
  assert (key <> "name" /\ key <> "address") as [Hn Ha].
  { cbn in Hin. repeat (destruct Hin as [Hin|Hin]; [injection Hin as <- _; split; discriminate|]).
    destruct Hin. }
  rewrite !store_other by assumption.
  apply fold_bind_first_match_lookup; [|exact Hin].
  cbn. repeat (constructor; [cbn; intros H; repeat (destruct H as [H|H]; [discriminate H|]); exact H|]).
  constructor.
Qed.

(** C5: for each of email, phone, aadhaar, pan, pincode and date,
    [extract_structured_data] on a fresh extractor binds the field exactly
    when its pattern matches somewhere in the text (ignoring case), and
    then to one value: the match at the leftmost offset where the pattern
    matches, stripped; that value is a substring of the text. *)
Theorem regex_field_is_first_match (bert : option qa_pipeline) (text key : string)
    (pattern : Re.regex) :
  In (key, pattern) Extractor.patterns ->
  let data := Extractor.extract_structured_data bert text ∅ in
  match Re.search_in true pattern None text with
  | Some (i, n) =>
      let found := Py.take n (snd (Re.advance i None text)) in
      Re.match_at true pattern text i = Some n /\
      (forall j, j < i -> Re.match_at true pattern text j = None) /\
      data !! key = Some (Py.strip found) /\
      substring_of (Py.strip found) text
  | None =>
      (forall j, Re.match_at true pattern text j = None) /\ data !! key = None
  end.
Proof.
  intros Hin data. subst data. rewrite (regex_field_lookup _ _ _ _ _ Hin), findall_head.
  destruct (Re.search_in true pattern None text) as [[i n]|] eqn:E; cbv zeta.
  - destruct (search_in_leftmost _ _ _ _ _ _ E) as [Hm Hl].
    repeat split; [exact Hm | exact Hl |].
    eapply substring_of_trans; [apply strip_substring|].
    eapply substring_of_trans; [apply take_substring | apply advance_substring].
  - split; [|apply lookup_empty]. apply (search_in_none _ _ _ _ E).
Qed.

Lemma regex_field_is_first_match_witness :
  In ("email", Extractor.email_pattern) Extractor.patterns /\
  Extractor.extract_structured_data None scenario_text ∅ !! "email" = Some "john@x.com".
Proof.
  split; [left; reflexivity|].
  pose proof (regex_field_is_first_match None scenario_text "email"
                Extractor.email_pattern (or_introl eq_refl)) as H.
  cbv zeta in H.
  assert (Re.search_in true Extractor.email_pattern None scenario_text = Some (62, 10))
    as E by (vm_compute; reflexivity).
  rewrite E in H. destruct H as (_ & _ & H & _). rewrite H. vm_compute. reflexivity.
Defined.

(** ** The name heuristic *)

Lemma max_from_in {A} (key : A -> nat) xs :
  forall best, In (Py.max_from key best xs) (best :: xs).
Proof.
  induction xs as [|x xs IH]; intros best; cbn [Py.max_from]; [left; reflexivity|].
  destruct (IH (if (key best <? key x)%nat then x else best)) as [H|H].
  - destruct (key best <? key x)%nat; [right; left | left]; exact H.
  - right; right; exact H.
Qed.

Lemma max_from_ge {A} (key : A -> nat) xs :
  forall best x, In x (best :: xs) -> key x <= key (Py.max_from key best xs).
Proof.
  induction xs as [|x0 xs IH]; intros best x Hx; cbn [Py.max_from].
  - destruct Hx as [->|[]]. lia.
  - destruct (key best <? key x0)%nat eqn:E.
    + apply Nat.ltb_lt in E. destruct Hx as [->|[->|Hx]].
      * transitivity (key x0); [lia | apply IH; left; reflexivity].
      * apply IH; left; reflexivity.
      * apply IH; right; exact Hx.
    + apply Nat.ltb_ge in E. destruct Hx as [->|[->|Hx]].
      * apply IH; left; reflexivity.
      * transitivity (key best); [lia | apply IH; left; reflexivity].
      * apply IH; right; exact Hx.
Qed.

Lemma max_by_spec {A} (key : A -> nat) xs best :
  Py.max_by key xs = Some best ->
  In best xs /\ forall x, In x xs -> key x <= key best.
Proof.
  destruct xs as [|x xs]; [discriminate|]. cbn [Py.max_by]. intros [= <-].
  split; [apply max_from_in | apply max_from_ge].
Qed.

Lemma max_by_nonempty {A} (key : A -> nat) xs x :
  In x xs -> exists best, Py.max_by key xs = Some best.
Proof. destruct xs; [intros [] | eauto]. Qed.

Lemma filter_long_in (names : list string) (n : string) :
  In n (filter (fun n => (6 <=? Extractor.name_key n)%nat = true) names) <->
  In n names /\ 6 <= Extractor.name_key n.
Proof.
  rewrite <- !list_elem_of_In, list_elem_of_filter, Nat.leb_le. tauto.
Qed.

(* When the longest candidate is shorter than 6 there is no candidate of
   length 6 or more: the search for better names finds nothing. *)
Lemma short_best_has_no_better (names : list string) best :
  Py.max_by Extractor.name_key names = Some best ->
  Extractor.name_key best < 6 ->
  filter (fun n => (6 <=? Extractor.name_key n)%nat = true) names = [].
Proof.
  intros Hmax Hshort. destruct (max_by_spec _ _ _ Hmax) as [_ Hge].
  destruct (filter _ names) as [|n rest] eqn:E; [reflexivity|].
  assert (In n (filter (fun n => (6 <=? Extractor.name_key n)%nat = true) names)) as Hin
    by (rewrite E; left; reflexivity).
  apply filter_long_in in Hin as [Hin Hlong]. specialize (Hge _ Hin). lia.
Qed.

(* What strategy 1 returns is the longest of the candidates. *)
Lemma name_from_lines_longest text name :
  Extractor.name_from_lines text = Some name ->
  In name (Extractor.potential_names text) /\
  forall other, In other (Extractor.potential_names text) ->
    Extractor.name_key other <= Extractor.name_key name.
Proof.
  unfold Extractor.name_from_lines. cbv zeta.
  destruct (Py.max_by Extractor.name_key (Extractor.potential_names text))
    as [best|] eqn:Hmax; [|discriminate].
  destruct (Extractor.name_key best <? 6)%nat eqn:Hshort.
  - apply Nat.ltb_lt in Hshort.
    rewrite (short_best_has_no_better _ _ Hmax Hshort). cbn [Py.max_by].
    intros [= <-]. apply max_by_spec, Hmax.
  - intros [= <-]. apply max_by_spec, Hmax.
Qed.





(** ** What a name cannot contain *)

Lemma repeat_rest_matches test s :
  forall prev, exists n, Re.repeat_atom test 0 None prev s Re.finish = Some n.
Proof.
  induction s as [|c s IH]; intros prev; cbn [Re.repeat_atom Nat.eqb].
  - exists 0. reflexivity.
  - destruct (test c && Re.can_take None); [|exists 0; reflexivity].
    cbn [pred Re.one_less]. destruct (IH (Some c)) as [n ->]. eauto.
Qed.

(* Two digits in a row: the pattern for a run of digits matches there. *)
Lemma digit_run_here prev c1 c2 rest :
  Py.is_ascii_digit c1 = true -> Py.is_ascii_digit c2 = true ->
  Re.match_here false Extractor.digit_run prev (String c1 (String c2 rest)) <> None.
Proof.
  intros H1 H2. unfold Re.match_here, Extractor.digit_run. cbn [Re.run].
  set (test := Re.atom_matches false Extractor.digit).
  assert (test c1 = true) as T1 by (unfold test; cbn; rewrite H1; reflexivity).
  assert (test c2 = true) as T2 by (unfold test; cbn; rewrite H2; reflexivity).
  cbn [Re.repeat_atom Re.can_take Re.one_less pred Nat.eqb].
  rewrite T1, T2. cbn [andb].
  destruct (repeat_rest_matches test rest (Some c2)) as [n Hn].
  rewrite Hn. discriminate.
Qed.

Lemma advance_past pre rest :
  forall prev, exists p,
    Re.advance (String.length pre) prev (pre +:+ rest) = (p, rest).
Proof.
  induction pre as [|c pre IH]; intros prev.
  - exists prev. destruct rest; reflexivity.
  - rewrite append_cons. cbn [String.length Re.advance]. apply IH.
Qed.

Lemma no_digit_run name :
  Re.search false Extractor.digit_run name = false ->
  forall pre c1 c2 post,
    name = pre +:+ String c1 (String c2 post) ->
    ~ (Py.is_ascii_digit c1 = true /\ Py.is_ascii_digit c2 = true).
Proof.
  unfold Re.search. intros Hs pre c1 c2 post -> [H1 H2].
  destruct (Re.search_in false Extractor.digit_run None
              (pre +:+ String c1 (String c2 post))) eqn:E; [discriminate|].
  pose proof (search_in_none _ _ _ _ E (String.length pre)) as Hnone.
  destruct (advance_past pre (String c1 (String c2 post)) None) as [p Hp].
  rewrite Hp in Hnone. apply (digit_run_here p c1 c2 post H1 H2), Hnone.
Qed.

(* A line that becomes a candidate passed every filter. *)
Lemma candidate_passed line name :
  Extractor.candidate line = Some name ->
  name = Py.strip line /\
  existsb (fun skip => Py.contains skip (Py.lower name)) Extractor.skip_words = false /\
  Re.search false Extractor.digit_run name = false /\
  Re.search false Extractor.special_character name = false.
Proof.
  unfold Extractor.candidate. cbv zeta. intros H.
  repeat match type of H with
         | (if ?b then _ else _) = Some _ => destruct b eqn:?; try discriminate H
         end.
  injection H as <-. auto.
Qed.

Lemma name_from_lines_candidate text name :
  Extractor.name_from_lines text = Some name ->
  exists line, In line (Py.split_on LF text) /\ Extractor.candidate line = Some name.
Proof.
  intros H. apply name_from_lines_longest in H as [H _].
  unfold Extractor.potential_names in H.
  apply list_elem_of_In, list_elem_of_omap in H as (line & Hl & Hc).
  exists line. split; [apply list_elem_of_In, Hl | exact Hc].
Qed.

(** C4: a name returned by strategy 1 contains no two digits in a row,
    and none of the denylist words occurs in its lowercased form. *)
Theorem name_from_lines_clean (text name : string) :
  Extractor.name_from_lines text = Some name ->
  (forall pre c1 c2 post,
     name = pre +:+ String c1 (String c2 post) ->
     ~ (Py.is_ascii_digit c1 = true /\ Py.is_ascii_digit c2 = true)) /\
  (forall word, In word Extractor.skip_words ->
     Py.contains word (Py.lower name) = false).
Proof.
  intros H. destruct (name_from_lines_candidate _ _ H) as (line & _ & Hc).
  destruct (candidate_passed _ _ Hc) as (_ & Hskip & Hdigits & _).
  split; [apply no_digit_run, Hdigits|].
  intros word Hw. rewrite <- not_true_iff_false. intros Hin.
  rewrite <- not_true_iff_false in Hskip. apply Hskip.
  apply existsb_exists. exists word. auto.
Qed.

Lemma name_from_lines_clean_witness :
  Extractor.name_from_lines scenario_text = Some "John Michael Smith" /\
  (forall pre c1 c2 post,
     "John Michael Smith" = pre +:+ String c1 (String c2 post) ->
     ~ (Py.is_ascii_digit c1 = true /\ Py.is_ascii_digit c2 = true)) /\
  (forall word, In word Extractor.skip_words ->
     Py.contains word (Py.lower "John Michael Smith") = false).
Proof.
  split; [vm_compute; reflexivity|].
  apply (name_from_lines_clean scenario_text). vm_compute. reflexivity.
Defined.

(** ** The scenario of the specification *)

(** C9: on the scenario text the field map has the name, the date and
    the email address of the scenario, whatever the question-answering
    pipeline does; the line "Government of India" is no candidate for a
    name because denylist words occur in it. *)
Theorem scenario_field_map (bert : option qa_pipeline) :
  let data := Extractor.extract_structured_data bert scenario_text ∅ in
  data !! "name" = Some "John Michael Smith" /\
  data !! "date" = Some "01/02/1990" /\
  data !! "email" = Some "john@x.com" /\
  In "Government of India" (Py.split_on LF scenario_text) /\
  Extractor.candidate "Government of India" = None /\
  existsb (fun skip => Py.contains skip (Py.lower (Py.strip "Government of India")))
    Extractor.skip_words = true /\
  Extractor.potential_names scenario_text = ["John Michael Smith"].
Proof.
  cbv zeta. split; [|split; [|split; [|split; [|split; [|split]]]]].
  - unfold Extractor.extract_structured_data. cbv zeta.
    rewrite store_other by discriminate.
    unfold Extractor.extract_name_improved.
    replace (Extractor.name_from_lines scenario_text) with (Some "John Michael Smith")
      by (vm_compute; reflexivity).
    unfold Extractor.store. cbn [nonempty String.eqb negb]. apply lookup_insert_eq.
  - rewrite (regex_field_lookup bert scenario_text ∅ "date" Extractor.date_pattern)
      by (cbn; tauto).
    vm_compute. reflexivity.
  - rewrite (regex_field_lookup bert scenario_text ∅ "email" Extractor.email_pattern)
      by (cbn; tauto).
    vm_compute. reflexivity.
  - vm_compute. tauto.
  - vm_compute. reflexivity.
  - vm_compute. reflexivity.
  - vm_compute. reflexivity.
Qed.

(** ** Text acquisition *)

Lemma read_pages_step text pages texts :
  Extractor.read_pages (Some text :: pages) texts =
  Extractor.read_pages pages
    (if Extractor.long_enough text then texts ++ [text] else texts).
Proof.
  cbn [Extractor.read_pages Extractor.read_page]. unfold bind, ret.
  destruct (Extractor.long_enough text); reflexivity.
Qed.

(* Reading the pages of a source appends the fragments that are long
   enough, up to the first page that fails; it returns or raises. *)
Lemma read_pages_appends pages :
  forall texts,
    snd (Extractor.read_pages pages texts) =
      texts ++ filter (fun text => Extractor.long_enough text = true) (readable pages) /\
    fst (Extractor.read_pages pages texts) <> Waiting.
Proof.
  induction pages as [|page pages IH]; intros texts.
  - cbn. rewrite app_nil_r. split; [reflexivity | discriminate].
  - destruct page as [text|].
    + rewrite read_pages_step. cbn [readable].
      destruct (Extractor.long_enough text) eqn:E.
      * rewrite filter_cons_True by exact E.
        destruct (IH (texts ++ [text])) as [-> Hw]. rewrite <- app_assoc. auto.
      * rewrite filter_cons_False by congruence. apply IH.
    + cbn. rewrite app_nil_r. split; [reflexivity | discriminate].
Qed.

(* A source never fails as a whole: whatever it raises is caught. *)
Lemma read_source_appends src texts :
  Extractor.read_source src texts = (Ok tt, texts ++ fragments src).
Proof.
  unfold Extractor.read_source, fragments, try_except.
  destruct src as [pages|]; cbn [Extractor.open_source default].
  - unfold bind. cbn [ret].
    destruct (read_pages_appends pages texts) as [Hs Hw].
    destruct (Extractor.read_pages pages texts) as [[[]| |] texts'];
      cbn [fst snd] in *; subst; [reflexivity | reflexivity | congruence].
  - cbn. rewrite app_nil_r. reflexivity.
Qed.

(** C6: [extract_text] returns for every document and never raises: a
    source that fails on opening contributes nothing, a source that fails
    on a page contributes the fragments read before it, and the later
    sources are tried all the same; OCR runs when the first two sources
    gave no fragment or less than 200 characters.  When nothing is found
    the result is the empty text. *)
Theorem extract_text_never_raises (doc : document) :
  let early := fragments (pypdf2 doc) ++ fragments (pdfplumber doc) in
  let texts :=
    if (length early =? 0)%nat || (Extractor.total_length early <? 200)%nat
    then early ++ fragments (ocr doc) else early in
  Extractor.extract_text doc [] =
    (Ok (Py.join (String LF (String LF "")) texts), texts) /\
  fst (Extractor.extract_text {| pypdf2 := None; pdfplumber := None; ocr := None |} [])
    = Ok "".
Proof.
  cbv zeta. split; [|reflexivity].
  unfold Extractor.extract_text.
  unfold bind at 1. rewrite read_source_appends.
  unfold bind at 1. rewrite read_source_appends. cbn [app].
  unfold bind at 1. cbn [Extractor.get_texts].
  unfold bind at 1.
  destruct ((length (fragments (pypdf2 doc) ++ fragments (pdfplumber doc)) =? 0)%nat
            || (Extractor.total_length (fragments (pypdf2 doc) ++ fragments (pdfplumber doc))
                <? 200)%nat).
  - rewrite read_source_appends. reflexivity.
  - reflexivity.
Qed.

(** ** Two fill sessions on a scripted page *)

(** On [phone_page], with a phone number extracted and an address given
    as a preview link, the persistent session navigates to the viewform
    link, fills the one question it has a value for and reports 1 of 2,
    although the value read back differs from the one typed. *)
Example sync_session_on_phone_page :
  let run := FormFillerSync.fill_form 3 "https://docs.google.com/forms/d/e/abc/preview"
               phone_only (start phone_page) in
  fst run = Ok (1, 2, "filled_form.png") /\
  In (Event (Goto "https://docs.google.com/forms/d/e/abc/viewform") true)
    (st_log (snd run)).
Proof. cbv zeta. split; vm_compute; [reflexivity | tauto]. Qed.

(** With an empty field map nothing is filled and both questions count. *)
Example one_shot_session_without_data :
  fst (FormFiller.fill_form "https://docs.google.com/forms/d/e/abc/viewform" ∅
         (start phone_page)) = Ok (0, 2, "filled_form.png").
Proof. vm_compute. reflexivity. Qed.

(** While the browser stays open the persistent session does not return. *)
Example sync_session_held_open :
  fst (FormFillerSync.fill_form 3 "https://docs.google.com/forms/d/e/abc/viewform"
         phone_only
         (Build_state
            (scripted {| pg_items := pg_items phone_page;
                         pg_query_all := pg_query_all phone_page;
                         pg_text := pg_text phone_page;
                         pg_visible := pg_visible phone_page;
                         pg_value := pg_value phone_page;
                         pg_raises := fun _ _ => false |}) tt [] 0 0)) = Waiting.
Proof. vm_compute. reflexivity. Qed.

(** An interrupt during the pause behind a poll ends the wait as well:
    the session returns its counts although no poll of the title failed. *)
Example sync_session_interrupted :
  let run := FormFillerSync.fill_form 3 "https://docs.google.com/forms/d/e/abc/viewform"
               phone_only (start interrupted_page) in
  fst run = Ok (1, 2, "filled_form.png") /\
  last_events 3 (st_log (snd run)) =
    [Event (Screenshot "outputs/filled_form.png") true; Event Title true;
     Event (Sleep 1) false].
Proof. cbv zeta. split; vm_compute; reflexivity. Qed.

(** ** More about the extractor *)

Lemma length_append (a b : string) :
  String.length (a +:+ b) = String.length a + String.length b.
Proof.
  induction a as [|x a IH]; [reflexivity|].
  rewrite append_cons. cbn [String.length]. rewrite IH. reflexivity.
Qed.

Lemma substring_length a s : substring_of a s -> String.length a <= String.length s.
Proof. intros (pre & post & ->). rewrite !length_append. lia. Qed.

Lemma take_length n s : String.length (Py.take n s) = Nat.min n (String.length s).
Proof.
  revert s. induction n as [|n IH]; intros [|c s]; cbn [Py.take String.length Nat.min];
    try reflexivity.
  rewrite IH. reflexivity.
Qed.

Lemma prefix_refl s : String.prefix s s = true.
Proof. induction s as [|c s IH]; [reflexivity | apply prefix_cons_same, IH]. Qed.

Lemma prefix_empty s : String.prefix "" s = true.
Proof. destruct s; reflexivity. Qed.

Lemma prefix_take_append n a b :
  String.prefix (Py.take n a) (Py.take n (a +:+ b)) = true.
Proof.
  revert a. induction n as [|n IH]; intros a.
  - destruct a; apply prefix_empty.
  - destruct a as [|c a]; [apply prefix_empty|].
    rewrite append_cons. cbn [Py.take]. apply prefix_cons_same, IH.
Qed.

Lemma join_starts_with sep p rest : exists tail, Py.join sep (p :: rest) = p +:+ tail.
Proof.
  destruct rest as [|q rest]; cbn [Py.join].
  - exists "". rewrite append_empty_r. reflexivity.
  - eauto.
Qed.

Lemma address_from_lines_cons line rest :
  Extractor.address_from_lines (line :: rest) =
  if Py.any_in Extractor.address_words (Py.lower (Py.strip line)) then
    let address :=
      Py.join " "
        (Py.strip line ::
         filter (fun next_line => nonempty next_line && (3 <? Py.len next_line)%nat = true)
           (map Py.strip (firstn 3 rest))) in
    if (20 <? Py.len address)%nat then Some (Py.take 200 address)
    else Extractor.address_from_lines rest
  else Extractor.address_from_lines rest.
Proof. reflexivity. Qed.

(* The scan of the lines for an address. *)
Lemma address_from_lines_found lines address :
  Extractor.address_from_lines lines = Some address ->
  20 < Py.len address <= 200 /\
  exists line,
    In line lines /\
    Py.any_in Extractor.address_words (Py.lower (Py.strip line)) = true /\
    String.prefix (Py.take 200 (Py.strip line)) address = true.
Proof.
  induction lines as [|line rest IH]; [discriminate|].
  rewrite address_from_lines_cons.
  assert (Extractor.address_from_lines rest = Some address ->
          20 < Py.len address <= 200 /\
          exists line0,
            In line0 (line :: rest) /\
            Py.any_in Extractor.address_words (Py.lower (Py.strip line0)) = true /\
            String.prefix (Py.take 200 (Py.strip line0)) address = true) as Hrest.
  { intros H. destruct (IH H) as (Hb & l & Hl & Hw & Hp).
    split; [exact Hb|]. exists l. split; [right; exact Hl | auto]. }
  destruct (Py.any_in Extractor.address_words (Py.lower (Py.strip line))) eqn:Hword;
    [|exact Hrest].
  cbv zeta.
  destruct (join_starts_with " " (Py.strip line)
              (filter (fun next_line => nonempty next_line && (3 <? Py.len next_line)%nat = true)
                 (map Py.strip (firstn 3 rest)))) as [tail Htail].
  rewrite Htail.
  destruct (20 <? Py.len (Py.strip line +:+ tail))%nat eqn:Hlen; [|exact Hrest].
  intros Heq. apply Nat.ltb_lt in Hlen.
  assert (address = Py.take 200 (Py.strip line +:+ tail)) as -> by congruence.
  split.
  - unfold Py.len in *. rewrite take_length. lia.
  - exists line. split; [left; reflexivity|]. split; [exact Hword|].
    apply prefix_take_append.
Qed.

(** X1: when the scan of the lines finds an address, [extract_address]
    returns it without asking the pipeline; it has more than 20 and at
    most 200 characters and starts with (the first 200 characters of) a
    stripped line in which an address word occurs. *)
Theorem extract_address_from_lines (bert : option qa_pipeline) (text address : string) :
  Extractor.address_from_lines (Py.split_on LF text) = Some address ->
  Extractor.extract_address bert text = Some address /\
  20 < Py.len address <= 200 /\
  exists line,
    In line (Py.split_on LF text) /\
    Py.any_in Extractor.address_words (Py.lower (Py.strip line)) = true /\
    String.prefix (Py.take 200 (Py.strip line)) address = true.
Proof.
  intros H. split.
  - unfold Extractor.extract_address. rewrite H. reflexivity.
  - apply address_from_lines_found, H.
Qed.

Lemma extract_address_from_lines_witness :
  Extractor.extract_address None address_text = Some "S/O Mohan Kumar 12 Hill Road Pune" /\
  20 < Py.len "S/O Mohan Kumar 12 Hill Road Pune" <= 200.
Proof.
  destruct (extract_address_from_lines None address_text
              "S/O Mohan Kumar 12 Hill Road Pune") as (H1 & H2 & _).
  - vm_compute. reflexivity.
  - split; [exact H1 | exact H2].
Defined.

Lemma split_on_head sep s :
  exists piece rest post, Py.split_on sep s = piece :: rest /\ s = piece +:+ post.
Proof.
  induction s as [|c s (piece & rest & post & Hs & Hp)]; cbn [Py.split_on].
  - exists "", [], "". auto.
  - destruct (Ascii.eqb c sep).
    + exists "", (Py.split_on sep s), (String c s). auto.
    + rewrite Hs. exists (String c piece), rest, post.
      rewrite append_cons, <- Hp. auto.
Qed.

(* The pieces of a split are pieces of the text. *)
Lemma split_on_substring sep s line :
  In line (Py.split_on sep s) -> substring_of line s.
Proof.
  induction s as [|c s IH]; cbn [Py.split_on].
  - intros [<-|[]]. apply substring_of_refl.
  - destruct (Ascii.eqb c sep).
    + intros [<-|H]; [exists "", (String c s); reflexivity|].
      apply substring_of_cons, IH, H.
    + destruct (split_on_head sep s) as (piece & rest & post & Hs & Hp).
      rewrite Hs in *. intros [<-|H].
      * exists "", post. rewrite Hp at 1. reflexivity.
      * apply substring_of_cons, IH. right. exact H.
Qed.

Lemma special_character_is c :
  Re.atom_matches false (Re.NoneOf [Extractor.upper_az; Extractor.lower_az; Re.Spaces; Re.Chr "."]) c
  = negb (name_character c).
Proof.
  unfold name_character, Py.is_ascii_letter, Py.is_ascii_upper, Py.is_ascii_lower, Py.between.
  cbn [Re.atom_matches existsb Re.item_has Extractor.upper_az Extractor.lower_az
       Re.char_is andb].
  unfold Re.in_range.
  change (Py.code "A") with 65. change (Py.code "Z") with 90.
  change (Py.code "a") with 97. change (Py.code "z") with 122.
  unfold Re.char_is. cbn [andb].
  rewrite (Ascii.eqb_sym "." c), !orb_false_r, !orb_assoc. reflexivity.
Qed.

(* No special character is found: every character is a letter, a space
   or a period. *)
Lemma no_special_character name :
  forall prev,
    Re.search_in false Extractor.special_character prev name = None ->
    Py.all_chars name_character name = true.
Proof.
  induction name as [|c name IH]; intros prev H; [reflexivity|].
  cbn [Re.search_in] in H.
  destruct (Re.match_here false Extractor.special_character prev (String c name)) eqn:E;
    [discriminate|].
  destruct (Re.search_in false Extractor.special_character (Some c) name)
    as [[i n]|] eqn:E'; [discriminate|].
  cbn [Py.all_chars]. rewrite (IH _ E'), andb_true_r.
  unfold Re.match_here, Extractor.special_character in E. cbn [Re.run] in E.
  rewrite special_character_is in E.
  destruct (name_character c); [reflexivity | discriminate E].
Qed.

Lemma candidate_shape line name :
  Extractor.candidate line = Some name ->
  name = Py.strip line /\
  3 <= Py.len name <= 100 /\
  Py.all_chars name_character name = true /\
  2 <= length (Py.split name) <= 4 /\
  Extractor.first_is_upper (Py.split name) = true.
Proof.
  unfold Extractor.candidate. cbv zeta. intros H.
  repeat match type of H with
         | (if ?b then _ else _) = Some _ => destruct b eqn:?; try discriminate H
         end.
  injection H as <-.
  repeat match goal with
         | H : (_ || _) = false |- _ => apply orb_false_iff in H as [? ?]
         | H : (_ && _) = true |- _ => apply andb_true_iff in H as [? ?]
         | H : (_ <? _)%nat = false |- _ => apply Nat.ltb_ge in H
         | H : (_ <=? _)%nat = true |- _ => apply Nat.leb_le in H
         end.
  repeat split; try assumption; try lia.
  match goal with
  | H : Re.search false Extractor.special_character _ = false |- _ =>
      unfold Re.search in H;
      destruct (Re.search_in false Extractor.special_character None (Py.strip line)) eqn:E;
      [discriminate H | exact (no_special_character _ _ E)]
  end.
Qed.

(** X2: a name found by the line heuristic is returned without asking
    the pipeline.  It is a stripped line of the text, hence a substring of
    it, of 3 to 100 characters, made of the letters A-Z and a-z, whitespace
    and periods only, in 2 to 4 words of which the first starts with a
    capital. *)
Theorem name_from_lines_shape (bert : option qa_pipeline) (text name : string) :
  Extractor.name_from_lines text = Some name ->
  Extractor.extract_name_improved bert text = Some name /\
  substring_of name text /\
  (exists line, In line (Py.split_on LF text) /\ name = Py.strip line) /\
  3 <= Py.len name <= 100 /\
  Py.all_chars name_character name = true /\
  2 <= length (Py.split name) <= 4 /\
  Extractor.first_is_upper (Py.split name) = true.
Proof.
  intros H. split.
  { unfold Extractor.extract_name_improved. rewrite H. reflexivity. }
  destruct (name_from_lines_candidate _ _ H) as (line & Hl & Hc).
  destruct (candidate_shape _ _ Hc) as (Hn & Hlen & Hch & Hw & Hu).
  split; [|split; [exists line|]; auto].
  subst name. eapply substring_of_trans; [apply strip_substring|].
  apply (split_on_substring _ _ _ Hl).
Qed.

Lemma name_from_lines_shape_witness :
  Extractor.extract_name_improved None scenario_text = Some "John Michael Smith" /\
  substring_of "John Michael Smith" scenario_text /\
  Py.all_chars name_character "John Michael Smith" = true.
Proof.
  destruct (name_from_lines_shape None scenario_text "John Michael Smith")
    as (H1 & H2 & _ & _ & H3 & _).
  - vm_compute. reflexivity.
  - split; [exact H1 | split; [exact H2 | exact H3]].
Defined.

(** ** The field map of the extractor *)

Lemma overrides_id keys : overrides keys (fun data => data).
Proof. exists (fun _ => None). auto. Qed.

Lemma overrides_insert keys key value :
  In key keys -> overrides keys (fun data => <[key := value]> data).
Proof.
  intros Hin. exists (fun k => if decide (k = key) then Some value else None). split.
  - intros k Hk. destruct (decide (k = key)) as [->|]; [tauto | reflexivity].
  - intros data k. destruct (decide (k = key)) as [->|Hne].
    + apply lookup_insert_eq.
    + apply lookup_insert_ne. congruence.
Qed.

Lemma overrides_compose keys f g :
  overrides keys f -> overrides keys g -> overrides keys (fun data => g (f data)).
Proof.
  intros (bf & Hf0 & Hf) (bg & Hg0 & Hg).
  exists (fun k => match bg k with Some v => Some v | None => bf k end). split.
  - intros k Hk. rewrite (Hg0 k Hk). apply Hf0, Hk.
  - intros data k. rewrite Hg, Hf. destruct (bg k); reflexivity.
Qed.

Lemma overrides_bind_first_match keys text entry :
  In entry.1 keys -> overrides keys (fun data => Extractor.bind_first_match text data entry).
Proof.
  intros Hin. unfold Extractor.bind_first_match.
  destruct (Re.findall true entry.2 text); [apply overrides_id|].
  apply overrides_insert, Hin.
Qed.

Lemma overrides_fold keys text entries :
  (forall entry, In entry entries -> In entry.1 keys) ->
  overrides keys (fun data => fold_left (Extractor.bind_first_match text) entries data).
Proof.
  induction entries as [|entry entries IH]; intros Hkeys; cbn [fold_left].
  - apply overrides_id.
  - apply (overrides_compose keys
             (fun data => Extractor.bind_first_match text data entry)
             (fun data => fold_left (Extractor.bind_first_match text) entries data)).
    + apply overrides_bind_first_match, Hkeys. left; reflexivity.
    + apply IH. intros e He. apply Hkeys. right; exact He.
Qed.

Lemma overrides_store keys key value :
  In key keys -> overrides keys (Extractor.store key value).
Proof.
  intros Hin. unfold Extractor.store. destruct value as [v|]; [|apply overrides_id].
  destruct (nonempty v); [apply overrides_insert, Hin | apply overrides_id].
Qed.

Lemma overrides_extract bert text :
  overrides field_names (Extractor.extract_structured_data bert text).
Proof.
  unfold Extractor.extract_structured_data. cbv zeta.
  apply (overrides_compose field_names
           (fun data => Extractor.store "name" (Extractor.extract_name_improved bert text)
                          (Extractor.extract_regex_fields text data))
           (Extractor.store "address" (Extractor.extract_address bert text))).
  - apply (overrides_compose field_names
             (Extractor.extract_regex_fields text)
             (Extractor.store "name" (Extractor.extract_name_improved bert text))).
    + apply overrides_fold. intros entry He. cbn in He.
      repeat (destruct He as [<-|He]; [cbn; tauto|]). destruct He.
    + apply overrides_store. cbn; tauto.
  - apply overrides_store. cbn; tauto.
Qed.


Lemma store_nonempty key value data k v :
  Extractor.store key value data !! k = Some v -> data !! k = Some v \/ (k = key /\ v <> "").
Proof.
  unfold Extractor.store. destruct value as [w|]; [|auto].
  destruct (nonempty w) eqn:E; [|auto].
  destruct (decide (key = k)) as [->|Hne].
  - rewrite lookup_insert_eq. intros [= <-]. right. split; [reflexivity|].
    intros ->. discriminate E.
  - rewrite lookup_insert_ne by exact Hne. auto.
Qed.

(** X4: the field map of a fresh extractor has no keys but the eight
    field names (email, phone, aadhaar, pan, pincode, date, name,
    address), and a name or address in it is never the empty string. *)
Theorem field_map_keys (bert : option qa_pipeline) (text key value : string) :
  Extractor.extract_structured_data bert text ∅ !! key = Some value ->
  In key field_names /\
  (key = "name" \/ key = "address" -> value <> "").
Proof.
  intros H. split.
  - destruct (overrides_extract bert text) as (bound & H0 & Hb).
    destruct (in_dec string_dec key field_names) as [Hin|Hout]; [exact Hin|].
    rewrite Hb, (H0 key Hout), lookup_empty in H. discriminate H.
  - unfold Extractor.extract_structured_data in H. cbv zeta in H.
    intros Hk. apply store_nonempty in H as [H|[_ H]]; [|exact H].
    apply store_nonempty in H as [H|[_ H]]; [|exact H].
    exfalso. unfold Extractor.extract_regex_fields in H.
    rewrite fold_bind_first_match_other in H; [rewrite lookup_empty in H; discriminate H|].
    cbn. destruct Hk as [->| ->]; intros Hin;
      repeat (destruct Hin as [Hin|Hin]; [discriminate Hin|]); exact Hin.
Qed.

Lemma field_map_keys_witness :
  Extractor.extract_structured_data None scenario_text ∅ !! "name"
    = Some "John Michael Smith" /\
  In "name" field_names /\ "John Michael Smith" <> "".
Proof.
  assert (Extractor.extract_structured_data None scenario_text ∅ !! "name"
          = Some "John Michael Smith") as H by (vm_compute; reflexivity).
  split; [exact H|].
  destruct (field_map_keys None scenario_text "name" "John Michael Smith" H) as [H1 H2].
  split; [exact H1 | apply H2; left; reflexivity].
Defined.

(** ** The pipeline as a whole *)

Lemma extract_text_run doc :
  Extractor.extract_text doc [] =
  (let early := fragments (pypdf2 doc) ++ fragments (pdfplumber doc) in
   let texts :=
     if (length early =? 0)%nat || (Extractor.total_length early <? 200)%nat
     then early ++ fragments (ocr doc) else early in
   (Ok (Py.join (String LF (String LF "")) texts), texts)).
Proof.
  cbv zeta. unfold Extractor.extract_text.
  unfold bind at 1. rewrite read_source_appends.
  unfold bind at 1. rewrite read_source_appends. cbn [app].
  unfold bind at 1. cbn [Extractor.get_texts].
  unfold bind at 1.
  destruct ((length (fragments (pypdf2 doc) ++ fragments (pdfplumber doc)) =? 0)%nat
            || (Extractor.total_length (fragments (pypdf2 doc) ++ fragments (pdfplumber doc))
                <? 200)%nat).
  - rewrite read_source_appends. reflexivity.
  - reflexivity.
Qed.

Lemma fragments_long src text : In text (fragments src) -> 50 < Py.len text.
Proof.
  unfold fragments. rewrite <- list_elem_of_In, list_elem_of_filter.
  intros [H _]. unfold Extractor.long_enough in H.
  apply andb_true_iff in H as [_ H]. apply Nat.ltb_lt in H.
  pose proof (substring_length _ _ (strip_substring text)). unfold Py.len in *. lia.
Qed.

(* A text joined from long fragments is empty (no fragment) or long. *)
Lemma join_long sep texts :
  (forall text, In text texts -> 50 < Py.len text) ->
  (texts = [] /\ Py.join sep texts = "") \/ 50 < Py.len (Py.join sep texts).
Proof.
  destruct texts as [|t rest]; [auto|]. intros H. right.
  destruct (join_starts_with sep t rest) as [tail ->].
  specialize (H t (or_introl eq_refl)). unfold Py.len in *. rewrite length_append. lia.
Qed.

Lemma extract_empty_text bert :
  Extractor.extract_structured_data bert "" ∅ = ∅.
Proof.
  unfold Extractor.extract_structured_data, Extractor.extract_name_improved,
    Extractor.extract_address, Extractor.ask. cbv zeta.
  replace (Extractor.name_from_lines "") with (@None string) by (vm_compute; reflexivity).
  replace (Extractor.address_from_lines (Py.split_on LF "")) with (@None string)
    by (vm_compute; reflexivity).
  destruct bert; cbn [Py.len String.length Nat.ltb Nat.leb Extractor.store];
    apply map_eq; intros k; rewrite lookup_empty;
    unfold Extractor.extract_regex_fields;
    destruct (in_dec string_dec k (map fst Extractor.patterns)) as [Hin|Hout].
  1,3: cbn in Hin; repeat (destruct Hin as [<-|Hin]; [vm_compute; reflexivity|]);
       destruct Hin.
  all: rewrite fold_bind_first_match_other by exact Hout; apply lookup_empty.
Qed.

(** X5: [process] never raises.  The text it returns is empty or has more
    than 50 characters, so the length guard before the question-answering
    fallback holds exactly when some fragment was found; and when no source
    gives a fragment the result is the empty text with the empty field map,
    whatever the pipeline would answer. *)
Theorem process_returns (bert : option qa_pipeline) (doc : document) :
  exists text,
    SmartPDFExtractor.process bert doc =
      Ok (text, Extractor.extract_structured_data bert text ∅) /\
    let found := fragments (pypdf2 doc) ++ fragments (pdfplumber doc) ++ fragments (ocr doc) in
    match found with
    | [] => text = "" /\ Extractor.extract_structured_data bert text ∅ = ∅
    | _ :: _ => 50 < Py.len text
    end.
Proof.
  unfold SmartPDFExtractor.process. rewrite extract_text_run. cbv zeta.
  eexists. split; [reflexivity|].
  set (early := fragments (pypdf2 doc) ++ fragments (pdfplumber doc)).
  rewrite app_assoc. fold early.
  assert (forall text, In text (early ++ fragments (ocr doc)) -> 50 < Py.len text) as Hlong.
  { intros text Hin. unfold early in Hin.
    rewrite !in_app_iff in Hin. destruct Hin as [[H|H]|H]; apply fragments_long in H; exact H. }
  destruct early as [|t early'] eqn:Hearly.
  - cbn [length Nat.eqb orb app] in *.
    destruct (fragments (ocr doc)) as [|t rest] eqn:Hocr.
    + split; [reflexivity | apply extract_empty_text].
    + destruct (join_long (String LF (String LF "")) (t :: rest) Hlong) as [[H _]|H];
        [discriminate H | exact H].
  - cbn [app].
    match goal with
    | |- context [if ?b then _ else _] => destruct b
    end.
    + destruct (join_long (String LF (String LF "")) ((t :: early') ++ fragments (ocr doc)) Hlong)
        as [[H _]|H]; [discriminate H | exact H].
    + destruct (join_long (String LF (String LF "")) (t :: early')) as [[H _]|H];
        [|discriminate H | exact H].
      intros text Hin. apply Hlong, in_app_iff. left. exact Hin.
Qed.

(** ** The label of a question *)

Lemma any_char_append p a b :
  Py.any_char p (a +:+ b) = Py.any_char p a || Py.any_char p b.
Proof.
  induction a as [|c a IH]; [reflexivity|].
  rewrite append_cons. cbn [Py.any_char]. rewrite IH, orb_assoc. reflexivity.
Qed.

Lemma any_char_substring p a s :
  substring_of a s -> Py.any_char p s = false -> Py.any_char p a = false.
Proof.
  intros (pre & post & ->). rewrite !any_char_append.
  intros H. apply orb_false_iff in H as [_ H]. apply orb_false_iff in H as [H _]. exact H.
Qed.

(* The first character of what is contained occurs. *)
Lemma contains_first c k s :
  Py.contains (String c k) s = true -> Py.any_char (Ascii.eqb c) s = true.
Proof.
  induction s as [|d s IH]; cbn [Py.contains Py.any_char].
  - discriminate.
  - intros H. apply orb_true_iff in H as [H|H].
    + apply prefix_cons_inv in H as [<- _]. rewrite Ascii.eqb_refl. reflexivity.
    + rewrite (IH H). apply orb_true_r.
Qed.

Lemma remove_star s :
  Py.any_char (Ascii.eqb "*") (Py.replace_scan "*" "" 0 s) = false.
Proof.
  induction s as [|c s IH]; [reflexivity|].
  cbn [Py.replace_scan String.prefix String.length Nat.sub].
  destruct (ascii_dec "*" c) as [<-|Hne].
  - rewrite prefix_empty. exact IH.
  - cbn [Py.any_char]. rewrite IH, orb_false_r. apply Ascii.eqb_neq, Hne.
Qed.

Lemma clean_label_no_star text : Py.contains "*" (clean_label text) = false.
Proof.
  destruct (Py.contains "*" (clean_label text)) eqn:E; [|reflexivity].
  apply contains_first in E.
  change (clean_label text) with (Py.strip (Py.replace_scan "*" "" 0 text)) in E.
  rewrite (any_char_substring _ _ _ (strip_substring _) (remove_star text)) in E.
  discriminate E.
Qed.

(** X6: [_get_question_text] never raises: it returns a label, which
    contains no asterisk (the empty string when no strategy finds a text),
    and it only looks elements up and reads their text. *)
Theorem get_question_text_returns (D : driver) (q : handle) (s : state D) :
  exists label l,
    fst (FormFillerSync._get_question_text q s) = Ok label /\
    st_log (snd (FormFillerSync._get_question_text q s)) = st_log s ++ l /\
    Py.contains "*" label = false /\
    forallb reads l = true.
Proof.
  assert (emits (@FormFillerSync._get_question_text D q)
            (fun r l => match r with
                        | Ok label => Py.contains "*" label = false /\ forallb reads l = true
                        | _ => False
                        end)) as H.
  { unfold FormFillerSync._get_question_text. cbn [for_first].
    wp_tac; cbn [app forallb reads andb];
      (split; [first [apply clean_label_no_star | reflexivity] | reflexivity]). }
  destruct (H s) as (l & Hl & Hr).
  destruct (FormFillerSync._get_question_text q s) as [[label| |] s1]; cbn [fst snd] in *;
    try contradiction.
  exists label, l. destruct Hr. auto.
Qed.

(** ** Sessions that return *)

Section Sessions.

Context {D : driver}.

Lemma emits_and {A} (m : M D A) (Q1 Q2 : outcome A -> list event -> Prop) :
  emits m Q1 -> emits m Q2 -> emits m (fun r l => Q1 r l /\ Q2 r l).
Proof.
  intros H1 H2 s. destruct (H1 s) as (l1 & E1 & Hq1). destruct (H2 s) as (l2 & E2 & Hq2).
  assert (l1 = l2) as <- by (rewrite E1 in E2; apply (app_inv_head _ _ _ E2)).
  exists l1. auto.
Qed.

Lemma emits_get_counters (Q : outcome (nat * nat) -> list event -> Prop) :
  (forall c, Q (Ok c) []) -> emits (@get_counters D) Q.
Proof. intros H s. exists []. cbn. rewrite app_nil_r. auto. Qed.

Lemma emits_set_counters f t (Q : outcome unit -> list event -> Prop) :
  Q (Ok tt) [] -> emits (@set_counters D f t) Q.
Proof. intros H s. exists []. cbn. rewrite app_nil_r. auto. Qed.

Lemma logs_only_weaken {A} (P P' : event -> Prop) (m : M D A) :
  (forall e, P e -> P' e) -> logs_only P m -> logs_only P' m.
Proof.
  intros HP H. eapply emits_conseq; [exact H|]. cbn. intros _ l Hl.
  eapply Forall_impl; [exact Hl | exact HP].
Qed.

(* A property of the returning runs that the end of the log decides goes
   through whatever is done before. *)
Lemma on_return_after {A B} (P : list event -> Prop) (m : M D A) (f : A -> M D B) :
  (forall l1 l2, P l2 -> P (l1 ++ l2)) ->
  logs_only (fun _ => True) m ->
  (forall a, emits (f a) (on_return P)) ->
  emits (bind m f) (on_return P).
Proof.
  intros Hmono Hm Hf. eapply emits_bind; [exact Hm | | |]; cbn; auto.
  intros a l1 _. eapply emits_conseq; [apply Hf|].
  intros [b| |] l2; cbn; auto.
Qed.

Lemma no_return_throw {A} : emits (@throw (state D) A) no_return.
Proof. apply emits_throw. exact I. Qed.

Lemma no_return_after {A B} (m : M D A) (f : A -> M D B) :
  logs_only (fun _ => True) m ->
  (forall a, emits (f a) no_return) ->
  emits (bind m f) no_return.
Proof.
  intros Hm Hf. eapply emits_bind; [exact Hm | | |]; cbn; auto.
Qed.

(* [try: body except: handler] where the handler ends by raising. *)
Lemma on_return_try {A} (P : list event -> Prop) (body handler : M D A) :
  emits body (on_return P) -> emits handler no_return ->
  emits (try_except body handler) (on_return P).
Proof.
  intros Hb Hh. eapply emits_try; [exact Hb | | |]; cbn; auto.
  intros l1 _. eapply emits_conseq; [exact Hh|]. intros [a| |] l2; cbn; tauto.
Qed.

Lemma settles_ret {A} (a : A) : settles (@ret (state D) A a).
Proof. apply emits_ret. discriminate. Qed.

Lemma settles_throw {A} : settles (@throw (state D) A).
Proof. apply emits_throw. discriminate. Qed.

Lemma settles_perform {A} (c : call A) : settles (@perform D A c).
Proof. apply emits_perform; intros; discriminate. Qed.

Lemma settles_bind {A B} (m : M D A) (f : A -> M D B) :
  settles m -> (forall a, settles (f a)) -> settles (bind m f).
Proof.
  intros Hm Hf. eapply emits_bind; [exact Hm | | |]; cbn; auto; try discriminate.
  intros a l1 _. eapply emits_conseq; [apply Hf|]. auto.
Qed.

Lemma settles_try {A} (body handler : M D A) :
  settles body -> settles handler -> settles (try_except body handler).
Proof.
  intros Hb Hh. eapply emits_try; [exact Hb | | |]; cbn; auto; try discriminate.
Qed.

Lemma settles_for_first {X R} (xs : list X) (body : X -> M D (option R)) :
  (forall x, settles (body x)) -> settles (for_first xs body).
Proof.
  intros Hb. induction xs as [|x xs IH]; cbn [for_first].
  - apply settles_ret.
  - apply settles_bind; [apply Hb|]. intros [r|]; [apply settles_ret | exact IH].
Qed.

Lemma settles_for_each {X} (xs : list X) (body : X -> M D unit) :
  (forall x, settles (body x)) -> settles (for_each xs body).
Proof.
  intros Hb. induction xs as [|x xs IH]; cbn [for_each].
  - apply settles_ret.
  - apply settles_bind; [apply Hb | intros; exact IH].
Qed.

Lemma settles_set_counters f t : settles (@set_counters D f t).
Proof. apply emits_set_counters. discriminate. Qed.

Lemma settles_incr_total : settles (@incr_total D).
Proof. intros s. exists []. cbn. rewrite app_nil_r. split; [reflexivity | discriminate]. Qed.

Lemma settles_incr_filled : settles (@incr_filled D).
Proof. intros s. exists []. cbn. rewrite app_nil_r. split; [reflexivity | discriminate]. Qed.

Lemma settles_get_counters : settles (@get_counters D).
Proof. apply emits_get_counters. discriminate. Qed.

(* Holding the browser open never raises, and ends only on a failed
   poll or an interrupted pause. *)
Lemma hold_loop_until_ended fuel :
  emits (@hold_loop D fuel)
    (fun r l => r <> Raise /\ on_return (fun l => existsb wait_ended l = true) r l).
Proof.
  induction fuel as [|n IH]; cbn [hold_loop].
  - intros s. exists []. cbn. rewrite app_nil_r. repeat split. discriminate.
  - apply emits_bind_wp, emits_try_wp, emits_bind_wp, emits_perform.
    + intros title. apply emits_bind_wp, emits_perform.
      * intros []. apply emits_ret. cbn [app].
        eapply emits_conseq; [exact IH|]. intros r l [Hr Hl]. split; [exact Hr|].
        destruct r; cbn in *; auto.
      * apply emits_ret. apply emits_ret. cbn. split; [discriminate | reflexivity].
    + apply emits_ret. apply emits_ret. cbn. split; [discriminate | reflexivity].
Qed.

Lemma hold_open_until_ended fuel :
  emits (@hold_open D fuel)
    (fun r l => r <> Raise /\ on_return (fun l => existsb wait_ended l = true) r l).
Proof.
  apply emits_try_wp. eapply emits_conseq; [apply hold_loop_until_ended|].
  intros [[]| |] l [Hr Hl]; [auto | contradiction | auto].
Qed.

End Sessions.

(* Closes goals [settles m] for code built from the monad's combinators. *)
Ltac settles_tac :=
  repeat first
    [ match goal with H : forall _, settles _ |- _ => apply H end
    | progress cbv zeta
    | apply settles_ret | apply settles_throw
    | apply settles_set_counters | apply settles_incr_total
    | apply settles_incr_filled | apply settles_get_counters
    | apply settles_perform
    | apply settles_for_first | apply settles_for_each
    | apply settles_try | apply settles_bind
    | match goal with
      | |- settles (match ?x with _ => _ end) => destruct x
      | |- forall _, _ => intro
      end ].

(** ** Sessions and the field map *)

Lemma value_of_no_data pick : value_of ∅ pick = "".
Proof. destruct pick as [[kws key]|]; [|reflexivity]. cbn. unfold dict_get. rewrite lookup_empty. reflexivity. Qed.

Lemma one_shot_no_data label : FormFiller.get_value_for_field label ∅ = "".
Proof. rewrite one_shot_first_hit. apply value_of_no_data. Qed.

Lemma sync_no_data label : FormFillerSync.get_value_for_field label ∅ = "".
Proof. rewrite persistent_first_available. apply value_of_no_data. Qed.

Lemma value_of_from_map data pick :
  value_of data pick <> "" -> exists key, data !! key = Some (value_of data pick).
Proof.
  destruct pick as [[kws key]|]; cbn; [|congruence].
  unfold dict_get. destruct (data !! key) as [v|] eqn:E; cbn; [eauto | congruence].
Qed.

(* What the matcher returns is a value of the field map, or empty. *)
Lemma one_shot_value_from_map label data :
  FormFiller.get_value_for_field label data <> "" ->
  exists key, data !! key = Some (FormFiller.get_value_for_field label data).
Proof. rewrite one_shot_first_hit. apply value_of_from_map. Qed.

Lemma sync_value_from_map label data :
  FormFillerSync.get_value_for_field label data <> "" ->
  exists key, data !! key = Some (FormFillerSync.get_value_for_field label data).
Proof. rewrite persistent_first_available. apply value_of_from_map. Qed.

(* As [logs_tac], for properties of events that hypotheses decide. *)
Ltac event_ok :=
  first [ exact I | reflexivity | assumption | (split; assumption)
        | (eexists; split; [reflexivity | split; assumption]) ].

Ltac logs_tac' :=
  repeat first
    [ match goal with H : forall _, logs_only _ _ |- _ => apply H end
    | progress cbv zeta
    | apply logs_only_ret | apply logs_only_throw
    | apply logs_only_set_counters | apply logs_only_incr_total
    | apply logs_only_incr_filled | apply logs_only_get_counters
    | apply logs_only_perform; intro; event_ok
    | apply logs_only_hold_open; intro; event_ok
    | apply logs_only_for_first | apply logs_only_for_each
    | apply logs_only_try | apply logs_only_bind
    | match goal with
      | |- logs_only _ (match ?x with _ => _ end) => destruct x
      | |- forall _, _ => intro
      end ].

Section SessionInvariants.

Context {D : driver}.

Lemma then_counts_in {A} I (P : state D -> Prop) (m : M D A)
    (f : A -> M D (nat * nat * string)) :
  (forall a s, counts_in I (fst (f a s))) ->
  hoare P (bind m f) (fun r _ => counts_in I r).
Proof.
  intros Hf s _. unfold bind. destruct (m s) as [[a| |] s1]; cbn; auto.
Qed.

Lemma return_counters_in I :
  hoare (counters_in I)
    (c <- @get_counters D ;; ret (c.1, c.2, "filled_form.png"))
    (fun r _ => counts_in I r).
Proof. intros s H. exact H. Qed.

Lemma perform_in I {A} (c : call A) :
  hoare (counters_in I) (@perform D A c) (fun _ => counters_in I).
Proof. apply (hoare_keeps I), keeps_perform. Qed.

(* An invariant of the counters that holds at 0, 0 and that every
   iteration keeps holds for the triple the session returns. *)
Lemma sync_fill_form_invariant (I : nat -> nat -> Prop) fuel url data :
  I 0 0 ->
  (forall q, hoare (counters_in I) (@FormFillerSync.question_step D data q)
               (fun _ => counters_in I)) ->
  hoare (fun _ => True) (@FormFillerSync.fill_form D fuel url data)
    (fun r _ => counts_in I r).
Proof.
  intros H0 Hstep. unfold FormFillerSync.fill_form. cbv zeta.
  eapply hoare_try with (R := fun r _ => counts_in I r);
    [ | auto | auto | intros s _; exact Logic.I].
  do 4 (apply session_step; [apply perform_true | intros _ | intros; exact Logic.I ..]).
  eapply hoare_try with (R := fun r _ => counts_in I r); [ | auto | auto | ].
  - do 2 (apply session_step; [apply perform_true | intros _ | intros; exact Logic.I ..]).
    eapply hoare_bind with (R := fun _ => counters_in I);
      [intros s _; exact H0 | intros _ | intros; exact Logic.I ..].
    apply session_step; [apply perform_in | intros _ | intros; exact Logic.I ..].
    apply session_step; [apply perform_in | intros questions | intros; exact Logic.I ..].
    apply session_step;
      [apply hoare_for_each; intros q; apply Hstep
      | intros _ | intros; exact Logic.I ..].
    do 2 (apply session_step; [apply perform_in | intros _ | intros; exact Logic.I ..]).
    apply session_step;
      [apply (hoare_keeps I), keeps_hold_open | intros _ | intros; exact Logic.I ..].
    apply return_counters_in.
  - apply then_counts_in. intros _ s.
    apply (then_counts_in I (fun _ => True)); [|exact Logic.I]. intros _ s1.
    apply (then_counts_in I (fun _ => True)); [|exact Logic.I]. intros _ s2. exact Logic.I.
Qed.

Lemma one_shot_fill_form_invariant (I : nat -> nat -> Prop) url data :
  I 0 0 ->
  (forall q, hoare (counters_in I) (@FormFiller.question_step D data q)
               (fun _ => counters_in I)) ->
  hoare (fun _ => True) (@FormFiller.fill_form D url data) (fun r _ => counts_in I r).
Proof.
  intros H0 Hstep. unfold FormFiller.fill_form.
  eapply hoare_try with (R := fun r _ => counts_in I r);
    [ | auto | auto | intros s _; exact Logic.I].
  do 4 (apply session_step; [apply perform_true | intros _ | intros; exact Logic.I ..]).
  eapply hoare_try with (R := fun r _ => counts_in I r); [ | auto | auto | ].
  - do 2 (apply session_step; [apply perform_true | intros _ | intros; exact Logic.I ..]).
    eapply hoare_bind with (R := fun _ => counters_in I);
      [intros s _; exact H0 | intros _ | intros; exact Logic.I ..].
    apply session_step; [apply perform_in | intros questions | intros; exact Logic.I ..].
    apply session_step;
      [apply hoare_for_each; intros q; apply Hstep
      | intros _ | intros; exact Logic.I ..].
    do 3 (apply session_step; [apply perform_in | intros _ | intros; exact Logic.I ..]).
    apply return_counters_in.
  - apply then_counts_in. intros _ s. exact Logic.I.
Qed.

Lemma hoare_ext {A} (P : state D -> Prop) (m m' : M D A) Q :
  (forall s, m s = m' s) -> hoare P m Q -> hoare P m' Q.
Proof. intros He H s Hs. rewrite <- He. apply H, Hs. Qed.

(* Without data an iteration only reads the label and counts it. *)
Lemma sync_question_step_no_data q (s : state D) :
  FormFillerSync.question_step ∅ q s =
  try_except
    (q_text <- FormFillerSync._get_question_text q ;;
     if negb (nonempty q_text) then ret tt else incr_total)
    (ret tt) s.
Proof.
  unfold FormFillerSync.question_step, try_except, bind. cbv zeta.
  destruct (FormFillerSync._get_question_text q s) as [[qt| |] s1]; try reflexivity.
  destruct (negb (nonempty qt)); [reflexivity|].
  rewrite sync_no_data. reflexivity.
Qed.

Lemma one_shot_question_step_no_data q (s : state D) :
  FormFiller.question_step ∅ q s =
  try_except
    (heading <- perform (Query q SelHeading) ;;
     match heading with
     | None => ret tt
     | Some heading =>
         q_text <- perform (InnerText heading) ;;
         let q_text := Py.lower (Py.strip (Py.replace "*" "" (Py.strip q_text))) in
         if negb (nonempty q_text) || (Py.len q_text <? 2)%nat then ret tt else incr_total
     end)
    (ret tt) s.
Proof.
  unfold FormFiller.question_step, try_except, bind. cbv zeta.
  destruct (perform (Query q SelHeading) s) as [[[h|]| |] s1]; try reflexivity.
  destruct (perform (InnerText h) s1) as [[qt| |] s2]; try reflexivity.
  match goal with |- context [if ?b then _ else _] => destruct b end; [reflexivity|].
  rewrite one_shot_no_data. reflexivity.
Qed.

Lemma incr_total_none_filled :
  hoare (counters_in none_filled) (@incr_total D) (fun _ => counters_in none_filled).
Proof. intros s H. exact H. Qed.

Lemma sync_no_data_none_filled q :
  hoare (counters_in none_filled) (@FormFillerSync.question_step D ∅ q)
    (fun _ => counters_in none_filled).
Proof.
  eapply hoare_ext; [intros s; symmetry; apply sync_question_step_no_data|].
  eapply hoare_try with (R := fun _ => counters_in none_filled);
    [ | auto | auto | apply hoare_ret; auto].
  eapply hoare_bind with (R := fun _ => counters_in none_filled); [ | | auto | auto].
  - apply (hoare_keeps none_filled), keeps_get_question_text.
  - intros qt. destruct (negb (nonempty qt));
      [apply hoare_ret; auto | apply incr_total_none_filled].
Qed.

Lemma one_shot_no_data_none_filled q :
  hoare (counters_in none_filled) (@FormFiller.question_step D ∅ q)
    (fun _ => counters_in none_filled).
Proof.
  eapply hoare_ext; [intros s; symmetry; apply one_shot_question_step_no_data|].
  eapply hoare_try with (R := fun _ => counters_in none_filled);
    [ | auto | auto | apply hoare_ret; auto].
  eapply hoare_bind with (R := fun _ => counters_in none_filled); [ | | auto | auto].
  - apply (hoare_keeps none_filled), keeps_perform.
  - intros [h|]; [|apply hoare_ret; auto].
    eapply hoare_bind with (R := fun _ => counters_in none_filled); [ | | auto | auto].
    + apply (hoare_keeps none_filled), keeps_perform.
    + intros qt. cbv zeta.
      match goal with |- context [if ?b then _ else _] => destruct b end;
        [apply hoare_ret; auto | apply incr_total_none_filled].
Qed.

Lemma sync_no_data_reads q :
  logs_only (fun e => touches_control e = false) (@FormFillerSync.question_step D ∅ q).
Proof.
  eapply emits_ext; [intros s; symmetry; apply sync_question_step_no_data|].
  unfold FormFillerSync._get_question_text. logs_tac.
Qed.

Lemma one_shot_no_data_reads q :
  logs_only (fun e => touches_control e = false) (@FormFiller.question_step D ∅ q).
Proof.
  eapply emits_ext; [intros s; symmetry; apply one_shot_question_step_no_data|].
  logs_tac.
Qed.

End SessionInvariants.

(** X7: with an empty field map a fill session, in either variant, makes
    no call on any control (it does not even look for controls) and the
    triple it returns has 0 fields filled. *)
Theorem nothing_filled_without_data (D : driver) fuel url (s : state D) :
  (exists l,
     st_log (snd (FormFillerSync.fill_form fuel url ∅ s)) = st_log s ++ l /\
     Forall (fun e => touches_control e = false) l /\
     counts_in none_filled (fst (FormFillerSync.fill_form fuel url ∅ s))) /\
  (exists l,
     st_log (snd (FormFiller.fill_form url ∅ s)) = st_log s ++ l /\
     Forall (fun e => touches_control e = false) l /\
     counts_in none_filled (fst (FormFiller.fill_form url ∅ s))).
Proof.
  split.
  - assert (logs_only (fun e => touches_control e = false)
              (@FormFillerSync.fill_form D fuel url ∅)) as Hlog.
    { pose proof (@sync_no_data_reads D) as Hq.
      unfold FormFillerSync.fill_form. logs_tac'. }
    destruct (Hlog s) as (l & Hl & Hall). exists l. split; [exact Hl|]. split; [exact Hall|].
    apply (sync_fill_form_invariant none_filled fuel url ∅ eq_refl
             sync_no_data_none_filled s I).
  - assert (logs_only (fun e => touches_control e = false)
              (@FormFiller.fill_form D url ∅)) as Hlog.
    { pose proof (@one_shot_no_data_reads D) as Hq.
      unfold FormFiller.fill_form. logs_tac'. }
    destruct (Hlog s) as (l & Hl & Hall). exists l. split; [exact Hl|]. split; [exact Hall|].
    apply (one_shot_fill_form_invariant none_filled url ∅ eq_refl
             one_shot_no_data_none_filled s I).
Qed.

(** ** Closing the browser *)

Section Closing.

Context {D : driver}.

Lemma settles_one_shot_question_step data q :
  settles (@FormFiller.question_step D data q).
Proof.
  unfold FormFiller.question_step, FormFiller.fill_field, FormFiller.fill_text_input,
    FormFiller.click_label, FormFiller.select_dropdown.
  settles_tac.
Qed.

Lemma settles_one_shot_fill_form url data : settles (@FormFiller.fill_form D url data).
Proof.
  pose proof (settles_one_shot_question_step data) as Hq.
  unfold FormFiller.fill_form. settles_tac.
Qed.

Lemma logs_one_shot_question_step data q :
  logs_only (fun _ => True) (@FormFiller.question_step D data q).
Proof.
  unfold FormFiller.question_step, FormFiller.fill_field, FormFiller.fill_text_input,
    FormFiller.click_label, FormFiller.select_dropdown.
  logs_tac'.
Qed.

Lemma logs_sync_question_step data q :
  logs_only (fun e => closes e = false) (@FormFillerSync.question_step D data q).
Proof.
  unfold FormFillerSync.question_step, FormFillerSync._get_question_text,
    FormFillerSync._fill_field_advanced, FormFillerSync.fill_input,
    FormFillerSync.type_into, FormFillerSync.fill_contenteditable,
    FormFillerSync.fill_by_script.
  logs_tac'.
Qed.

Lemma existsb_after {A} (p : A -> bool) l1 l2 :
  existsb p l2 = true -> existsb p (l1 ++ l2) = true.
Proof. intros H. rewrite existsb_app, H. apply orb_true_r. Qed.

Lemma existsb_before {A} (p : A -> bool) l1 l2 :
  existsb p l1 = true -> existsb p (l1 ++ l2) = true.
Proof. intros H. rewrite existsb_app, H. reflexivity. Qed.

(* Once the page exists: whatever happens, the one-shot session asks the
   browser to close. *)
Lemma one_shot_page_closes url data :
  emits
    (try_except
       (perform (Goto url) ;;;
        perform (WaitForTimeout 3000) ;;;
        set_counters 0 0 ;;;
        questions <- perform (PageQueryAll SelListItem) ;;
        for_each questions (@FormFiller.question_step D data) ;;;
        perform (WaitForTimeout 2000) ;;;
        perform (Screenshot "outputs/filled_form.png") ;;;
        perform CloseBrowser ;;;
        c <- get_counters ;;
        ret (c.1, c.2, "filled_form.png"))
       (perform CloseBrowser ;;; throw))
    (fun r l => r = Waiting \/ existsb closes l = true).
Proof.
  eapply emits_try with
    (R := fun r l => match r with
                     | Ok _ => existsb closes l = true
                     | _ => True
                     end).
  - change (emits
      (perform (Goto url) ;;;
        perform (WaitForTimeout 3000) ;;;
        set_counters 0 0 ;;;
        questions <- perform (PageQueryAll SelListItem) ;;
        for_each questions (@FormFiller.question_step D data) ;;;
        perform (WaitForTimeout 2000) ;;;
        perform (Screenshot "outputs/filled_form.png") ;;;
        perform CloseBrowser ;;;
        c <- get_counters ;;
        ret (c.1, c.2, "filled_form.png"))
      (on_return (fun l => existsb closes l = true))).
    pose proof (@logs_one_shot_question_step data) as Hq.
    do 7 (apply on_return_after;
          [ intros l1 l2; apply existsb_after | logs_tac' | intros ? ]).
    apply emits_bind_wp, emits_perform; [|exact I].
    intros _. apply emits_bind_wp, emits_get_counters. intros c.
    apply emits_ret. reflexivity.
  - auto.
  - auto.
  - intros l1 _. apply emits_bind_wp, emits_perform.
    + intros _. apply emits_throw. right. apply existsb_after. reflexivity.
    + right. apply existsb_after. reflexivity.
Qed.

End Closing.

(** X8: the one-shot session ([form_filler.py]) always returns or raises,
    and once the page has been created it asks the browser to close on
    every path, whether it returns the counts or raises. *)
Theorem one_shot_session_closes_browser (D : driver) url data (s : state D) :
  exists l,
    st_log (snd (FormFiller.fill_form url data s)) = st_log s ++ l /\
    fst (FormFiller.fill_form url data s) <> Waiting /\
    (existsb page_created l = true -> existsb closes l = true).
Proof.
  assert (emits (@FormFiller.fill_form D url data)
            (fun r l => r <> Waiting /\
                        (r = Waiting \/
                         (existsb page_created l = true -> existsb closes l = true)))) as H.
  { apply emits_and; [apply settles_one_shot_fill_form|].
    unfold FormFiller.fill_form.
    apply emits_try_wp.
    apply emits_bind_wp, emits_perform;
      [intros _ | apply emits_throw; right; discriminate].
    apply emits_bind_wp, emits_perform;
      [intros _ | apply emits_throw; right; discriminate].
    apply emits_bind_wp, emits_perform;
      [intros _ | apply emits_throw; right; discriminate].
    apply emits_bind_wp, emits_perform;
      [intros _ | apply emits_throw; right; discriminate].
    eapply emits_conseq; [apply one_shot_page_closes|].
    intros r l Hl. cbn [app].
    assert (r = Waiting \/ existsb closes l = true ->
            forall pre, r = Waiting \/
              (existsb page_created (pre ++ l) = true -> existsb closes (pre ++ l) = true))
      as Hpre.
    { intros [->|Hc] pre; [left; reflexivity|]. right. intros _. apply existsb_after, Hc. }
    destruct r as [a| |].
    - apply (Hpre Hl [_; _; _; _]).
    - apply emits_throw. rewrite app_nil_r. apply (Hpre Hl [_; _; _; _]).
    - left. reflexivity. }
  destruct (H s) as (l & Hl & Hw & Hc). exists l. split; [exact Hl|]. split; [exact Hw|].
  destruct Hc as [Hc|Hc]; [contradiction | exact Hc].
Qed.

Section Returning.

Context {D : driver}.

Lemma on_return_all_after {A B} (P : event -> Prop) (m : M D A) (f : A -> M D B) :
  logs_only P m ->
  (forall a, emits (f a) (on_return (Forall P))) ->
  emits (bind m f) (on_return (Forall P)).
Proof.
  intros Hm Hf. eapply emits_bind; [exact Hm | | |]; cbn; auto.
  intros a l1 H1. eapply emits_conseq; [apply Hf|].
  intros [b| |] l2; cbn; auto. intros H2. apply Forall_app. auto.
Qed.

Lemma sync_handler_no_return fuel :
  emits
    (try_except (perform (Screenshot "outputs/error.png")) (ret tt) ;;;
     @hold_open D fuel ;;;
     perform CloseBrowser ;;;
     @throw (state D) (nat * nat * string))
    no_return.
Proof.
  do 3 (apply no_return_after; [logs_tac' | intros ?]). apply no_return_throw.
Qed.

(* The persistent session after the page was created. *)
Lemma sync_page_session fuel url data :
  emits
    (try_except
       (perform (Goto url) ;;;
        perform (WaitForTimeout 3000) ;;;
        set_counters 0 0 ;;;
        perform (WaitForSelector SelListItem) ;;;
        questions <- perform (PageQueryAll SelListItem) ;;
        for_each questions (@FormFillerSync.question_step D data) ;;;
        perform (WaitForTimeout 2000) ;;;
        perform (Screenshot "outputs/filled_form.png") ;;;
        hold_open fuel ;;;
        c <- get_counters ;;
        ret (c.1, c.2, "filled_form.png"))
       (try_except (perform (Screenshot "outputs/error.png")) (ret tt) ;;;
        hold_open fuel ;;;
        perform CloseBrowser ;;;
        throw))
    (fun r l =>
       on_return (fun l => existsb wait_ended l = true /\ existsb shot_taken l = true) r l /\
       on_return (Forall (fun e => closes e = false)) r l).
Proof.
  pose proof (@logs_sync_question_step D data) as Hq.
  apply emits_and; (apply on_return_try; [|apply sync_handler_no_return]).
  - do 7 (apply on_return_after;
          [ intros l1 l2 [H1 H2]; split; apply existsb_after; assumption
          | apply (logs_only_weaken (fun e => closes e = false)); [auto | logs_tac']
          | intros ? ]).
    apply emits_bind_wp, emits_perform; [|exact I]. intros _.
    eapply emits_bind; [apply hold_open_until_ended | | |]; cbn; auto.
    intros _ l1 [_ Hgone]. apply emits_bind_wp, emits_get_counters. intros c.
    apply emits_ret. cbn. rewrite !app_nil_r, Hgone. split; reflexivity.
  - apply (emits_conseq _ _ (fun _ l => Forall (fun e => closes e = false) l));
      [|intros [a| |] l H; cbn; auto].
    change (logs_only (fun e => closes e = false)
      (perform (Goto url) ;;;
        perform (WaitForTimeout 3000) ;;;
        set_counters 0 0 ;;;
        perform (WaitForSelector SelListItem) ;;;
        questions <- perform (PageQueryAll SelListItem) ;;
        for_each questions (@FormFillerSync.question_step D data) ;;;
        perform (WaitForTimeout 2000) ;;;
        perform (Screenshot "outputs/filled_form.png") ;;;
        hold_open fuel ;;;
        c <- get_counters ;;
        ret (c.1, c.2, "filled_form.png"))).
    logs_tac'.
Qed.

End Returning.

Lemma forall_not_exists {A} (p : A -> bool) l :
  Forall (fun x => p x = false) l -> existsb p l = false.
Proof.
  induction 1 as [|x l Hx _ IH]; [reflexivity|]. cbn [existsb]. rewrite Hx, IH. reflexivity.
Qed.

(** X9: the persistent session ([form_filler_sync.py]) returns its counts
    only after the screenshot of the filled form was taken and the wait
    for the user was ended, by a poll of the page title that failed (the
    browser was closed) or by a pause that was interrupted (Ctrl+C); on
    that path it never asks the browser to close. *)
Theorem sync_session_returns_after_wait_ended (D : driver) fuel url data (s : state D) :
  exists l,
    st_log (snd (FormFillerSync.fill_form fuel url data s)) = st_log s ++ l /\
    on_return
      (fun l => existsb shot_taken l = true /\ existsb wait_ended l = true /\
                existsb closes l = false)
      (fst (FormFillerSync.fill_form fuel url data s)) l.
Proof.
  assert (emits (@FormFillerSync.fill_form D fuel url data)
            (on_return (fun l => existsb shot_taken l = true /\
                                 existsb wait_ended l = true /\
                                 existsb closes l = false))) as H.
  { unfold FormFillerSync.fill_form. cbv zeta.
    apply on_return_try; [|apply no_return_throw].
    apply emits_bind_wp, emits_perform; [intros _ | exact I].
    apply emits_bind_wp, emits_perform; [intros _ | exact I].
    apply emits_bind_wp, emits_perform; [intros _ | exact I].
    apply emits_bind_wp, emits_perform; [intros _ | exact I].
    eapply emits_conseq; [apply sync_page_session|].
    intros [a| |] l [H1 H2]; cbn in *; auto.
    destruct H1 as [Hgone Hshot]. apply forall_not_exists in H2.
    auto. }
  apply H.
Qed.

(** ** What is written into the form *)

Lemma nonempty_ne s : nonempty s = true -> s <> "".
Proof.
  unfold nonempty. intros H ->. discriminate H.
Qed.

Section Writing.

Context {D : driver}.

Lemma sync_fill_writes data q v t :
  v <> "" -> (exists key, data !! key = Some v) ->
  logs_only (writes_from data) (@FormFillerSync._fill_field_advanced D q v t).
Proof.
  intros Hne Hkey.
  unfold FormFillerSync._fill_field_advanced, FormFillerSync.fill_input,
    FormFillerSync.type_into, FormFillerSync.fill_contenteditable,
    FormFillerSync.fill_by_script.
  logs_tac'.
Qed.

Lemma one_shot_fill_writes data q v :
  v <> "" -> (exists key, data !! key = Some v) ->
  logs_only (writes_from data) (@FormFiller.fill_field D q v).
Proof.
  intros Hne Hkey.
  unfold FormFiller.fill_field, FormFiller.fill_text_input, FormFiller.click_label,
    FormFiller.select_dropdown.
  logs_tac'.
Qed.

(* The rest of an iteration once the label is known. *)
Lemma fill_matched_writes data (value : string) (fill : M D bool) :
  (value <> "" -> (exists key, data !! key = Some value) ->
   logs_only (writes_from data) fill) ->
  (value <> "" -> exists key, data !! key = Some value) ->
  logs_only (writes_from data)
    (if negb (nonempty value) then ret tt
     else success <- fill ;; if success : bool then incr_filled else ret tt).
Proof.
  intros Hfill Hvalue. destruct (nonempty value) eqn:E; cbn [negb]; [|apply logs_only_ret].
  apply nonempty_ne in E. apply logs_only_bind; [apply Hfill; auto|].
  intros [|]; [apply logs_only_incr_filled | apply logs_only_ret].
Qed.

Lemma sync_question_step_writes data q :
  logs_only (writes_from data) (@FormFillerSync.question_step D data q).
Proof.
  unfold FormFillerSync.question_step.
  apply logs_only_try; [|apply logs_only_ret].
  apply logs_only_bind; [unfold FormFillerSync._get_question_text; logs_tac'|].
  intros qt. destruct (negb (nonempty qt)); [apply logs_only_ret|]. cbv zeta.
  apply logs_only_bind; [apply logs_only_incr_total|]. intros _.
  apply fill_matched_writes; [apply sync_fill_writes | apply sync_value_from_map].
Qed.

Lemma one_shot_question_step_writes data q :
  logs_only (writes_from data) (@FormFiller.question_step D data q).
Proof.
  unfold FormFiller.question_step.
  apply logs_only_try; [|apply logs_only_ret].
  apply logs_only_bind; [logs_tac'|].
  intros [h|]; [|apply logs_only_ret].
  apply logs_only_bind; [logs_tac'|]. intros qt. cbv zeta.
  match goal with |- context [if ?b then ret tt else _] => destruct b end;
    [apply logs_only_ret|].
  apply logs_only_bind; [apply logs_only_incr_total|]. intros _.
  apply fill_matched_writes; [apply one_shot_fill_writes | apply one_shot_value_from_map].
Qed.

End Writing.

(** X10: whatever a fill session, in either variant, types into a
    control or selects in a dropdown is a non-empty value of the field map
    it was given, and the only other text it puts into a control is the
    empty text that clears it.  A script it has the page evaluate is the
    fixed source text of the last strategy with such a value pasted, as it
    is, between the double quotes of [element.value = ...]. *)
Theorem session_writes_values_of_the_map (D : driver) fuel url data (s : state D) :
  (exists l,
     st_log (snd (FormFillerSync.fill_form fuel url data s)) = st_log s ++ l /\
     Forall (writes_from data) l) /\
  (exists l,
     st_log (snd (FormFiller.fill_form url data s)) = st_log s ++ l /\
     Forall (writes_from data) l).
Proof.
  split.
  - assert (logs_only (writes_from data) (@FormFillerSync.fill_form D fuel url data)) as H.
    { pose proof (@sync_question_step_writes D data) as Hq.
      unfold FormFillerSync.fill_form. logs_tac'. }
    apply H.
  - assert (logs_only (writes_from data) (@FormFiller.fill_form D url data)) as H.
    { pose proof (@one_shot_question_step_writes D data) as Hq.
      unfold FormFiller.fill_form. logs_tac'. }
    apply H.
Qed.

(** ** The address the endpoint opens *)

Lemma viewform_keeps_http url :
  String.prefix "http://" url = true ->
  String.prefix "http://" (FormFillerSync.viewform_url url) = true.
Proof.
  intros H. unfold FormFillerSync.viewform_url.
  destruct (Py.contains "/preview" url); [|exact H].
  do 7 (destruct url as [|? url]; [discriminate H|];
        apply prefix_cons_inv in H as [<- H]).
  change (Py.replace "/preview" "/viewform"
            (String "h" (String "t" (String "t" (String "p" (String ":"
               (String "/" (String "/" url))))))))
    with (String "h" (String "t" (String "t" (String "p" (String ":" (String "/"
            (Py.replace_scan "/preview" "/viewform" 0 (String "/" url)))))))).
  cbn [Py.replace_scan].
  destruct (String.prefix "/preview" (String "/" url));
    repeat (apply prefix_cons_same); apply prefix_empty.
Qed.

Lemma viewform_keeps_https url :
  String.prefix "https://" url = true ->
  String.prefix "https://" (FormFillerSync.viewform_url url) = true.
Proof.
  intros H. unfold FormFillerSync.viewform_url.
  destruct (Py.contains "/preview" url); [|exact H].
  do 8 (destruct url as [|? url]; [discriminate H|];
        apply prefix_cons_inv in H as [<- H]).
  change (Py.replace "/preview" "/viewform"
            (String "h" (String "t" (String "t" (String "p" (String "s" (String ":"
               (String "/" (String "/" url)))))))))
    with (String "h" (String "t" (String "t" (String "p" (String "s" (String ":"
            (String "/" (Py.replace_scan "/preview" "/viewform" 0 (String "/" url))))))))).
  cbn [Py.replace_scan].
  destruct (String.prefix "/preview" (String "/" url));
    repeat (apply prefix_cons_same); apply prefix_empty.
Qed.

Lemma form_url_has_scheme requested :
  String.prefix "http://" (Main.form_url requested) = true \/
  String.prefix "https://" (Main.form_url requested) = true.
Proof.
  unfold Main.form_url.
  destruct (String.prefix "http://" requested) eqn:E1; [left; exact E1|].
  destruct (String.prefix "https://" requested) eqn:E2; [right; exact E2|].
  right. cbn [orb]. repeat (rewrite append_cons; apply prefix_cons_same).
  apply prefix_empty.
Qed.

(** X11: a fill session started as the endpoint [/fill-form] starts it
    navigates only to an address that begins with http:// or https://
    (https:// is put in front of a request without a scheme) and that does
    not contain /preview. *)
Theorem endpoint_opens_viewform_with_scheme (D : driver) fuel requested data
    (s : state D) :
  exists l,
    st_log (snd (FormFillerSync.fill_form fuel (Main.form_url requested) data s))
      = st_log s ++ l /\
    forall u ok, In (Event (Goto u) ok) l ->
      (String.prefix "http://" u = true \/ String.prefix "https://" u = true) /\
      Py.contains "/preview" u = false /\
      (String.prefix "http://" requested = false ->
       String.prefix "https://" requested = false ->
       u = FormFillerSync.viewform_url ("https://" +:+ requested)).
Proof.
  destruct (sync_fill_form_goes_to fuel (Main.form_url requested) data s) as (l & Hl & Hall).
  exists l. split; [exact Hl|]. intros u ok Hin.
  rewrite List.Forall_forall in Hall. specialize (Hall _ Hin). cbn in Hall. subst u.
  split; [|split].
  - destruct (form_url_has_scheme requested) as [H|H];
      [left; apply viewform_keeps_http | right; apply viewform_keeps_https]; exact H.
  - apply viewform_url_no_preview.
  - intros H1 H2. unfold Main.form_url. rewrite H1, H2. reflexivity.
Qed.

(** ** Labels and the case of letters *)

Lemma lower_char_idempotent c : Py.lower_char (Py.lower_char c) = Py.lower_char c.
Proof. destruct c as [[] [] [] [] [] [] [] []]; vm_compute; reflexivity. Qed.

Lemma lower_char_not_upper c : Py.is_upper (Py.lower_char c) = false.
Proof. destruct c as [[] [] [] [] [] [] [] []]; vm_compute; reflexivity. Qed.

Lemma lower_idempotent s : Py.lower (Py.lower s) = Py.lower s.
Proof.
  unfold Py.lower. induction s as [|c s IH]; [reflexivity|].
  cbn [Py.map_chars]. rewrite lower_char_idempotent, IH. reflexivity.
Qed.

Lemma lower_has_no_upper s : Py.any_char Py.is_upper (Py.lower s) = false.
Proof.
  unfold Py.lower. induction s as [|c s IH]; [reflexivity|].
  cbn [Py.map_chars Py.any_char]. rewrite lower_char_not_upper, IH. reflexivity.
Qed.

Lemma prefix_append k s : String.prefix k s = true -> exists post, s = k +:+ post.
Proof.
  revert s. induction k as [|c k IH]; intros s H.
  - exists s. reflexivity.
  - destruct s as [|d s]; [discriminate H|].
    apply prefix_cons_inv in H as [<- H]. destruct (IH s H) as [post ->].
    exists post. reflexivity.
Qed.

Lemma contains_substring k s : Py.contains k s = true -> substring_of k s.
Proof.
  induction s as [|c s IH]; cbn [Py.contains]; intros H.
  - rewrite orb_false_r in H. apply prefix_append in H as [post ->]. exists "", post. reflexivity.
  - apply orb_true_iff in H as [H|H].
    + apply prefix_append in H as [post ->]. exists "", post. reflexivity.
    + apply substring_of_cons, IH, H.
Qed.

Lemma keyword_with_capital k label :
  Py.any_char Py.is_upper k = true -> Py.contains k (Py.lower label) = false.
Proof.
  intros Hk. destruct (Py.contains k (Py.lower label)) eqn:E; [|reflexivity].
  apply contains_substring in E.
  rewrite (any_char_substring _ _ _ E (lower_has_no_upper label)) in Hk. discriminate Hk.
Qed.

(** X12: the matcher is blind to the case of the label (so lowering the
    label before the call, as the question loops do, changes nothing), and
    a keyword with a capital letter can never occur in the lowercased
    label: the entries 'Aadhar number' and 'Aadhar' of [form_filler_sync.py]
    never decide a match. *)
Theorem matcher_ignores_case (label : string) (data : gmap string string) :
  FormFiller.get_value_for_field (Py.lower label) data =
    FormFiller.get_value_for_field label data /\
  FormFillerSync.get_value_for_field (Py.lower label) data =
    FormFillerSync.get_value_for_field label data /\
  (forall keyword, Py.any_char Py.is_upper keyword = true ->
     Py.contains keyword (Py.lower label) = false) /\
  Py.any_in ["aadhaar"; "aadhar"; "uid"; "unique"; "adhaar"; "Aadhar number"; "Aadhar"]
    (Py.lower label) =
  Py.any_in ["aadhaar"; "aadhar"; "uid"; "unique"; "adhaar"] (Py.lower label).
Proof.
  split; [|split; [|split]].
  - unfold FormFiller.get_value_for_field. rewrite lower_idempotent. reflexivity.
  - unfold FormFillerSync.get_value_for_field. rewrite lower_idempotent. reflexivity.
  - intros keyword. apply keyword_with_capital.
  - unfold Py.any_in. cbn [existsb].
    rewrite (keyword_with_capital "Aadhar number" label) by reflexivity.
    rewrite (keyword_with_capital "Aadhar" label) by reflexivity.
    reflexivity.
Qed.

(** ** Counting the questions *)

Section Counting.

Context {D : driver}.

Lemma incr_total_one_more f0 t0 :
  hoare (counters_in (fun f t => f = f0 /\ t = t0)) (@incr_total D)
    (fun _ => counters_in (fun f t => f = f0 /\ t = t0 + 1)).
Proof. intros s [Hf Ht]. unfold counters_in in *. cbn. lia. Qed.

(* The part of an iteration behind the increment of [total]. *)
Lemma counted_one_more f0 t0 (value : string) (fill : M D bool) :
  keeps fill ->
  hoare (counters_in (fun f t => f = f0 /\ t = t0 + 1))
    (if negb (nonempty value) then ret tt
     else success <- fill ;; if success : bool then incr_filled else ret tt)
    (fun _ => counters_in (one_more f0 t0)).
Proof.
  intros Hk.
  assert (forall s : state D,
            counters_in (fun f t => f = f0 /\ t = t0 + 1) s ->
            counters_in (one_more f0 t0) s) as Hweak.
  { intros s [Hf Ht]. right; left. auto. }
  destruct (negb (nonempty value)); [apply hoare_ret, Hweak|].
  eapply hoare_bind with (R := fun _ => counters_in (fun f t => f = f0 /\ t = t0 + 1)).
  - apply (hoare_keeps (fun f t => f = f0 /\ t = t0 + 1) _ Hk).
  - intros [|]; [|apply hoare_ret, Hweak].
    intros s [Hf Ht]. right; right. cbn. lia.
  - exact Hweak.
  - exact Hweak.
Qed.

Lemma sync_question_step_one_more data q f0 t0 :
  hoare (counters_in (fun f t => f = f0 /\ t = t0))
    (@FormFillerSync.question_step D data q)
    (fun _ => counters_in (one_more f0 t0)).
Proof.
  assert (forall s : state D,
            counters_in (fun f t => f = f0 /\ t = t0) s ->
            counters_in (one_more f0 t0) s) as Hweak.
  { intros s H. left. exact H. }
  assert (forall s : state D,
            counters_in (fun f t => f = f0 /\ t = t0 + 1) s ->
            counters_in (one_more f0 t0) s) as Hweak1.
  { intros s H. right; left. exact H. }
  unfold FormFillerSync.question_step.
  eapply hoare_try with (R := fun _ => counters_in (one_more f0 t0));
    [ | auto | auto | apply hoare_ret; auto].
  eapply hoare_bind with (R := fun _ => counters_in (fun f t => f = f0 /\ t = t0));
    [ | | exact Hweak | exact Hweak].
  - apply (hoare_keeps (fun f t => f = f0 /\ t = t0)), keeps_get_question_text.
  - intros q_text. destruct (negb (nonempty q_text)); [apply hoare_ret, Hweak|].
    eapply hoare_bind with (R := fun _ => counters_in (fun f t => f = f0 /\ t = t0 + 1));
      [apply incr_total_one_more | | exact Hweak1 | exact Hweak1].
    intros _. apply counted_one_more, keeps_fill_field_advanced.
Qed.

Lemma one_shot_question_step_one_more data q f0 t0 :
  hoare (counters_in (fun f t => f = f0 /\ t = t0))
    (@FormFiller.question_step D data q)
    (fun _ => counters_in (one_more f0 t0)).
Proof.
  assert (forall s : state D,
            counters_in (fun f t => f = f0 /\ t = t0) s ->
            counters_in (one_more f0 t0) s) as Hweak.
  { intros s H. left. exact H. }
  assert (forall s : state D,
            counters_in (fun f t => f = f0 /\ t = t0 + 1) s ->
            counters_in (one_more f0 t0) s) as Hweak1.
  { intros s H. right; left. exact H. }
  unfold FormFiller.question_step.
  eapply hoare_try with (R := fun _ => counters_in (one_more f0 t0));
    [ | auto | auto | apply hoare_ret; auto].
  eapply hoare_bind with (R := fun _ => counters_in (fun f t => f = f0 /\ t = t0));
    [ | | exact Hweak | exact Hweak].
  - apply (hoare_keeps (fun f t => f = f0 /\ t = t0)), keeps_perform.
  - intros [h|]; [|apply hoare_ret, Hweak].
    eapply hoare_bind with (R := fun _ => counters_in (fun f t => f = f0 /\ t = t0));
      [ | | exact Hweak | exact Hweak].
    + apply (hoare_keeps (fun f t => f = f0 /\ t = t0)), keeps_perform.
    + intros q_text. cbv zeta.
      match goal with |- context [if ?b then ret tt else _] => destruct b end;
        [apply hoare_ret, Hweak|].
      eapply hoare_bind with (R := fun _ => counters_in (fun f t => f = f0 /\ t = t0 + 1));
        [apply incr_total_one_more | | exact Hweak1 | exact Hweak1].
      intros _. apply counted_one_more, keeps_fill_field.
Qed.

(* A loop whose iterations each count at most one question and fill at
   most what they count. *)
Lemma loop_counts (step : handle -> M D unit) :
  (forall q f0 t0,
     hoare (counters_in (fun f t => f = f0 /\ t = t0)) (step q)
       (fun _ => counters_in (one_more f0 t0))) ->
  forall questions (s : state D),
    let s' := snd (for_each questions step s) in
    st_total s <= st_total s' <= st_total s + length questions /\
    st_filled s <= st_filled s' /\
    st_filled s' - st_filled s <= st_total s' - st_total s.
Proof.
  intros Hstep questions. induction questions as [|q questions IH]; intros s; cbv zeta.
  - cbn. lia.
  - cbn [for_each length]. unfold bind.
    pose proof (Hstep q (st_filled s) (st_total s) s (conj eq_refl eq_refl)) as Hq.
    unfold counters_in, one_more in Hq.
    destruct (step q s) as [[[]| |] s1]; cbn [fst snd] in *.
    + specialize (IH s1). cbv zeta in IH. lia.
    + lia.
    + lia.
Qed.

End Counting.

(** X13: in both variants the question loop counts every list item at
    most once: started as [fill_form] starts it, [total] never exceeds the
    number of list items found, and [filled] grows only together with
    [total]. *)
Theorem total_bounded_by_questions (D : driver) (data : gmap string string)
    (questions : list handle) (s : state D) :
  (let s' := snd (for_each questions (FormFillerSync.question_step data)
                    (snd (set_counters 0 0 s))) in
   st_filled s' <= st_total s' <= length questions) /\
  (let s' := snd (for_each questions (FormFiller.question_step data)
                    (snd (set_counters 0 0 s))) in
   st_filled s' <= st_total s' <= length questions).
Proof.
  split; cbv zeta.
  - pose proof (loop_counts _ (sync_question_step_one_more data) questions
                  (snd (set_counters 0 0 s))) as H.
    cbv zeta in H.
    change (st_total (snd (set_counters 0 0 s))) with 0 in H.
    change (st_filled (snd (set_counters 0 0 s))) with 0 in H. lia.
  - pose proof (loop_counts _ (one_shot_question_step_one_more data) questions
                  (snd (set_counters 0 0 s))) as H.
    cbv zeta in H.
    change (st_total (snd (set_counters 0 0 s))) with 0 in H.
    change (st_filled (snd (set_counters 0 0 s))) with 0 in H. lia.
Qed.

(** ** What the regular expressions bind *)

Lemma last_of_append (a b : string) :
  forall prev, last_of prev (a +:+ b) = last_of (last_of prev a) b.
Proof.
  induction a as [|c a IH]; intros prev; [reflexivity|].
  rewrite append_cons. cbn [last_of]. apply IH.
Qed.

Lemma advance_append (w rest : string) :
  forall prev, Re.advance (String.length w) prev (w +:+ rest) = (last_of prev w, rest).
Proof.
  induction w as [|c w IH]; intros prev.
  - destruct rest; reflexivity.
  - rewrite append_cons. cbn [String.length Re.advance last_of]. apply IH.
Qed.

Lemma take_append (w rest : string) : Py.take (String.length w) (w +:+ rest) = w.
Proof.
  induction w as [|c w IH]; [destruct rest; reflexivity|].
  rewrite append_cons. cbn [String.length Py.take]. rewrite IH. reflexivity.
Qed.

(** A greedy repetition that leads to a match has taken a run of matching
    characters, within its bounds, and the rest of the pattern matched
    behind that run. *)
Lemma repeat_atom_sound (test : ascii -> bool) (k : Re.cont) (s : string) :
  forall lo hi prev n,
    Re.repeat_atom test lo hi prev s k = Some n ->
    exists w rest,
      s = w +:+ rest /\
      lo <= String.length w /\
      (forall h, hi = Some h -> String.length w <= h) /\
      Py.all_chars test w = true /\
      String.length w <= n /\
      k (last_of prev w) rest = Some (n - String.length w).
Proof.
  assert (forall lo hi prev s n,
            (if (lo =? 0)%nat then k prev s else None) = Some n ->
            exists w rest,
              s = w +:+ rest /\ lo <= String.length w /\
              (forall h, hi = Some h -> String.length w <= h) /\
              Py.all_chars test w = true /\ String.length w <= n /\
              k (last_of prev w) rest = Some (n - String.length w)) as Hstop.
  { intros lo hi prev s0 n H. destruct (Nat.eqb_spec lo 0) as [->|]; [|discriminate].
    exists "", s0. cbn [String.length last_of Py.all_chars]. rewrite Nat.sub_0_r.
    repeat split; first [lia | exact H | (intros; lia) | (destruct s0; reflexivity)]. }
  induction s as [|c s IH]; intros lo hi prev n H; cbn [Re.repeat_atom] in H.
  - apply (Hstop _ _ _ _ _ H).
  - destruct (test c && Re.can_take hi) eqn:Htake; [|apply (Hstop _ _ _ _ _ H)].
    destruct (Re.repeat_atom test (pred lo) (Re.one_less hi) (Some c) s k) as [n'|] eqn:Hrec;
      [|apply (Hstop _ _ _ _ _ H)].
    injection H as <-. apply andb_true_iff in Htake as [Hc Hhi].
    destruct (IH _ _ _ _ Hrec) as (w & rest & -> & Hlo & Hbound & Hall & Hn & Hk).
    exists (String c w), rest. rewrite append_cons.
    cbn [String.length last_of Py.all_chars]. rewrite Hc, Hall.
    repeat split; try lia; try exact Hk.
    intros h ->. destruct h as [|h]; [discriminate|].
    specialize (Hbound h eq_refl). lia.
Qed.

(** The matcher is sound for the words of the pattern: what it passes over
    before handing over to the continuation is one of them. *)
Lemma run_sound (ic : bool) (r : Re.regex) :
  forall prev s (k : Re.cont) n,
    Re.run ic r prev s k = Some n ->
    exists w rest,
      s = w +:+ rest /\ accepts ic r w /\ String.length w <= n /\
      k (last_of prev w) rest = Some (n - String.length w).
Proof.
  induction r as [a | | r1 IH1 r2 IH2 | r IH | a lo hi]; intros prev s k n H;
    cbn [Re.run] in H.
  - destruct s as [|c s]; [discriminate|].
    destruct (Re.atom_matches ic a c) eqn:Hc; [|discriminate].
    destruct (k (Some c) s) as [n'|] eqn:Hk; [injection H as <- | discriminate].
    exists (String c ""), s. cbn [accepts String.length last_of].
    repeat split; first [lia | (rewrite Hk; f_equal; lia) | eauto].
  - destruct (Re.boundary prev s); [|discriminate].
    exists "", s. cbn [accepts String.length last_of]. rewrite Nat.sub_0_r.
    repeat split; first [lia | exact H | (destruct s; reflexivity)].
  - destruct (IH1 _ _ _ _ H) as (w1 & rest1 & -> & Hw1 & Hn1 & Hk1).
    destruct (IH2 _ _ _ _ Hk1) as (w2 & rest2 & -> & Hw2 & Hn2 & Hk2).
    exists (w1 +:+ w2), rest2. rewrite append_assoc, last_of_append, length_append.
    cbn [accepts]. repeat split; first [lia | (rewrite Hk2; f_equal; lia) | eauto].
  - destruct (Re.run ic r prev s k) as [n'|] eqn:Hr.
    + injection H as <-. destruct (IH _ _ _ _ Hr) as (w & rest & -> & Hw & Hn & Hk).
      exists w, rest. cbn [accepts]. auto.
    + exists "", s. cbn [accepts String.length last_of]. rewrite Nat.sub_0_r.
      repeat split; first [lia | exact H | (destruct s; reflexivity) | auto].
  - destruct (repeat_atom_sound _ _ _ _ _ _ _ H) as (w & rest & -> & Hlo & Hhi & Hall & Hn & Hk).
    exists w, rest. cbn [accepts]. auto 10.
Qed.

Lemma match_here_accepts ic r prev s n :
  Re.match_here ic r prev s = Some n -> accepts ic r (Py.take n s).
Proof.
  intros H. destruct (run_sound _ _ _ _ _ _ H) as (w & rest & -> & Hw & Hn & Hk).
  unfold Re.finish in Hk. injection Hk as Hk.
  replace n with (String.length w) by lia. rewrite take_append. exact Hw.
Qed.

Lemma search_in_accepts ic r s prev i n :
  Re.search_in ic r prev s = Some (i, n) ->
  accepts ic r (Py.take n (snd (Re.advance i prev s))).
Proof.
  intros H. apply search_in_leftmost in H as [H _].
  destruct (Re.advance i prev s) as [p s']. apply (match_here_accepts _ _ _ _ _ H).
Qed.

(** Every match [re.findall] lists is a word of the pattern. *)
Lemma findall_accepts ic r text : Forall (accepts ic r) (Re.findall ic r text).
Proof.
  unfold Re.findall. generalize (S (String.length text)) as fuel.
  generalize (@None ascii) as prev. revert text.
  intros s prev fuel. revert s prev.
  induction fuel as [|fuel IH]; intros s prev; cbn [Re.findall_in]; [constructor|].
  destruct (Re.search_in ic r prev s) as [[i n]|] eqn:Hs; [|constructor].
  pose proof (search_in_accepts _ _ _ _ _ _ Hs) as Hw.
  destruct (Re.advance i prev s) as [p1 s1]. cbn [snd] in Hw.
  destruct (Re.advance (Nat.max n 1) p1 s1) as [p2 s2].
  constructor; [exact Hw|].
  destruct (String.length s1 <? Nat.max n 1)%nat; [constructor | apply IH].
Qed.

(** A regex field of a fresh extractor is a word of its pattern,
    stripped. *)
Lemma regex_field_accepts bert text key pattern v :
  In (key, pattern) Extractor.patterns ->
  Extractor.extract_structured_data bert text ∅ !! key = Some v ->
  exists w, accepts true pattern w /\ v = Py.strip w.
Proof.
  intros Hin Hv. rewrite (regex_field_lookup _ _ _ _ _ Hin) in Hv.
  pose proof (findall_accepts true pattern text) as Hall.
  destruct (Re.findall true pattern text) as [|w ws]; cbn [head] in Hv.
  - rewrite lookup_empty in Hv. discriminate.
  - injection Hv as <-. exists w. split; [|reflexivity].
    apply Forall_cons_1 in Hall. apply Hall.
Qed.

Lemma all_chars_impl (P Q : ascii -> bool) (w : string) :
  (forall c, P c = true -> Q c = true) ->
  Py.all_chars P w = true -> Py.all_chars Q w = true.
Proof.
  intros HPQ. induction w as [|c w IH]; cbn [Py.all_chars]; [reflexivity|].
  intros [Hc Hw]%andb_true_iff. rewrite (HPQ _ Hc), (IH Hw). reflexivity.
Qed.

Lemma all_chars_append (P : ascii -> bool) (a b : string) :
  Py.all_chars P (a +:+ b) = Py.all_chars P a && Py.all_chars P b.
Proof.
  induction a as [|c a IH]; [reflexivity|].
  rewrite append_cons. cbn [Py.all_chars]. rewrite IH, andb_assoc. reflexivity.
Qed.

Lemma append_empty_l (a : string) : "" +:+ a = a.
Proof. reflexivity. Qed.

Lemma lstrip_first c w : Py.is_space c = false -> Py.lstrip (String c w) = String c w.
Proof. intros H. cbn [Py.lstrip]. rewrite H. reflexivity. Qed.

Lemma rstrip_all (P : ascii -> bool) (w : string) :
  (forall c, P c = true -> Py.is_space c = false) ->
  Py.all_chars P w = true -> Py.rstrip w = w.
Proof.
  intros HP. induction w as [|c w IH]; cbn [Py.all_chars Py.rstrip]; [reflexivity|].
  intros [Hc Hw]%andb_true_iff. rewrite (IH Hw), (HP _ Hc). destruct w; reflexivity.
Qed.

Lemma rstrip_append (a b : string) :
  Py.rstrip b <> "" -> Py.rstrip (a +:+ b) = a +:+ Py.rstrip b.
Proof.
  intros Hb. induction a as [|c a IH]; [reflexivity|].
  rewrite !append_cons. cbn [Py.rstrip]. rewrite IH.
  destruct a as [|x a]; [|rewrite append_cons; reflexivity].
  rewrite append_empty_l. destruct (Py.rstrip b); [contradiction|reflexivity].
Qed.

Lemma digit_not_space c : Py.is_ascii_digit c = true -> Py.is_space c = false.
Proof.
  unfold Py.is_ascii_digit, Py.is_space, Py.between.
  intros [H1 H2]%andb_true_iff.
  apply Nat.leb_le in H1. apply Nat.leb_le in H2.
  repeat (apply orb_false_iff; split);
    try (apply andb_false_iff; left; apply Nat.leb_gt; lia);
    try (apply andb_false_iff; right; apply Nat.leb_gt; lia);
    apply Nat.eqb_neq; lia.
Qed.

Lemma digit_matches c : digit_class c = true -> Py.is_ascii_digit c = true.
Proof. unfold digit_class. cbn. rewrite orb_false_r. auto. Qed.

Lemma digit_class_not_space c : digit_class c = true -> Py.is_space c = false.
Proof. intros H. apply digit_not_space, digit_matches, H. Qed.

(* Among the characters of the model, [[A-Z]] with IGNORECASE takes the
   ASCII letters of either case and nothing else. *)
Lemma letter_matches c : letter_class c = true -> Py.is_ascii_letter c = true.
Proof.
  destruct c as [[] [] [] [] [] [] [] []]; vm_compute; intros H;
    first [reflexivity | discriminate H].
Qed.

Lemma letter_class_not_space c : letter_class c = true -> Py.is_space c = false.
Proof.
  destruct c as [[] [] [] [] [] [] [] []]; vm_compute; intros H;
    first [reflexivity | discriminate H].
Qed.

Lemma separator_matches c :
  Re.atom_matches true Extractor.space_or_dash c = true ->
  Py.is_space c = true \/ c = "-"%char.
Proof.
  destruct c as [[] [] [] [] [] [] [] []]; vm_compute; intros H;
    first [left; reflexivity | right; reflexivity | discriminate H].
Qed.

(** A repetition with one count is a run of exactly that length. *)
Lemma exact_run ic a n w :
  accepts ic (Re.Repeat a n (Some n)) w ->
  String.length w = n /\ Py.all_chars (Re.atom_matches ic a) w = true.
Proof.
  cbn [accepts]. intros (Hlo & Hhi & Hall). specialize (Hhi n eq_refl).
  split; [lia|exact Hall].
Qed.

Lemma digits_exact_run n w :
  accepts true (Re.Repeat Extractor.digit n (Some n)) w ->
  String.length w = n /\ Py.all_chars digit_class w = true.
Proof. intros [Hlen Hall]%exact_run. split; [exact Hlen | exact Hall]. Qed.

(** A run of digits that is not empty is left alone by [strip], also
    behind other characters when it starts with none of the space
    characters. *)
Lemma rstrip_digits (a d : string) :
  d <> "" -> Py.all_chars digit_class d = true ->
  Py.rstrip (a +:+ d) = a +:+ d.
Proof.
  intros Hne Hd. pose proof (rstrip_all _ _ digit_class_not_space Hd) as Hr.
  rewrite rstrip_append; rewrite Hr; [reflexivity|exact Hne].
Qed.

Lemma nonempty_length (w : string) n : String.length w = S n -> w <> "".
Proof. intros H ->. discriminate. Qed.

(** X14: the pincode of a fresh extractor, when there is one, has
    exactly six characters, each of them one that [\d] accepts. *)
Theorem pincode_is_six_digits (bert : option qa_pipeline) (text v : string) :
  Extractor.extract_structured_data bert text ∅ !! "pincode" = Some v ->
  String.length v = 6 /\ Py.all_chars digit_class v = true.
Proof.
  intros Hv.
  destruct (regex_field_accepts bert text "pincode" Extractor.pincode_pattern v)
    as (w & Hw & ->); [cbn; tauto | exact Hv |].
  unfold Extractor.pincode_pattern in Hw. cbn [accepts] in Hw.
  destruct Hw as (w1 & w2 & -> & -> & d & w4 & -> & Hd & ->).
  apply digits_exact_run in Hd as [Hlen Hall].
  rewrite append_empty_l, append_empty_r.
  assert (Py.strip d = d) as ->; [|auto].
  unfold Py.strip. destruct d as [|c d]; [discriminate|].
  pose proof Hall as Hc. cbn [Py.all_chars] in Hc. apply andb_true_iff in Hc as [Hc _].
  rewrite (lstrip_first _ _ (digit_class_not_space _ Hc)).
  apply (rstrip_all _ _ digit_class_not_space Hall).
Qed.

Lemma pincode_is_six_digits_witness :
  Extractor.extract_structured_data None "Bengaluru 560001, ref 123456" ∅ !! "pincode"
    = Some "560001" /\
  String.length "560001" = 6 /\ Py.all_chars digit_class "560001" = true.
Proof.
  assert (Extractor.extract_structured_data None "Bengaluru 560001, ref 123456" ∅
            !! "pincode" = Some "560001") as H by (vm_compute; reflexivity).
  split; [exact H|].
  apply (pincode_is_six_digits None "Bengaluru 560001, ref 123456" "560001" H).
Defined.

Lemma strip_id (w : string) : Py.lstrip w = w -> Py.rstrip w = w -> Py.strip w = w.
Proof. intros Hl Hr. unfold Py.strip. rewrite Hl. exact Hr. Qed.

Lemma lstrip_append_first c (a b : string) :
  Py.is_space c = false -> Py.lstrip (String c a +:+ b) = String c a +:+ b.
Proof. intros H. rewrite append_cons. apply lstrip_first, H. Qed.

Lemma rstrip_last (a : string) z :
  Py.is_space z = false -> Py.rstrip (a +:+ String z "") = a +:+ String z "".
Proof.
  intros Hz. assert (Py.rstrip (String z "") = String z "") as Hr.
  { cbn [Py.rstrip]. rewrite Hz. reflexivity. }
  rewrite rstrip_append; rewrite Hr; [reflexivity|discriminate].
Qed.

(** X15: the PAN of a fresh extractor, when there is one, has exactly
    ten characters: five that [[A-Z]] accepts when case is ignored, four
    that [\d] accepts, and one more that [[A-Z]] accepts.  The letters may
    be lowercase, since the patterns are matched ignoring case. *)
Theorem pan_is_letters_digits_letter (bert : option qa_pipeline) (text v : string) :
  Extractor.extract_structured_data bert text ∅ !! "pan" = Some v ->
  exists letters digits last,
    v = letters +:+ digits +:+ String last "" /\
    String.length letters = 5 /\ Py.all_chars letter_class letters = true /\
    String.length digits = 4 /\ Py.all_chars digit_class digits = true /\
    letter_class last = true.
Proof.
  intros Hv.
  destruct (regex_field_accepts bert text "pan" Extractor.pan_pattern v)
    as (w & Hw & ->); [cbn; tauto | exact Hv |].
  unfold Extractor.pan_pattern in Hw. cbn [accepts] in Hw.
  destruct Hw as (w1 & w2 & -> & -> & a & w3 & -> & Ha & d & w4 & -> & Hd
                  & w5 & w6 & -> & (z & -> & Hz) & ->).
  apply exact_run in Ha as [Halen Ha].
  change (Py.all_chars letter_class a = true) in Ha.
  change (letter_class z = true) in Hz.
  apply digits_exact_run in Hd as [Hdlen Hd].
  rewrite append_empty_l, append_empty_r.
  exists a, d, z. split; [|auto 10].
  apply strip_id.
  - destruct a as [|c a]; [discriminate|].
    cbn [Py.all_chars] in Ha. apply andb_true_iff in Ha as [Hc _].
    apply lstrip_append_first, letter_class_not_space, Hc.
  - rewrite <- append_assoc. apply rstrip_last, letter_class_not_space, Hz.
Qed.

Lemma pan_is_letters_digits_letter_witness :
  Extractor.extract_structured_data None "pan: abcde1234f" ∅ !! "pan"
    = Some "abcde1234f" /\
  exists letters digits last,
    "abcde1234f" = letters +:+ digits +:+ String last "" /\
    String.length letters = 5 /\ Py.all_chars letter_class letters = true /\
    String.length digits = 4 /\ Py.all_chars digit_class digits = true /\
    letter_class last = true.
Proof.
  assert (Extractor.extract_structured_data None "pan: abcde1234f" ∅ !! "pan"
          = Some "abcde1234f") as H by (vm_compute; reflexivity).
  split; [exact H|].
  apply (pan_is_letters_digits_letter None "pan: abcde1234f" "abcde1234f" H).
Defined.

Lemma plus_matches c : Re.char_is true "+" c = true -> c = "+"%char.
Proof.
  destruct c as [[] [] [] [] [] [] [] []]; vm_compute; intros H;
    first [reflexivity | discriminate H].
Qed.

Lemma nine_matches c : Re.char_is true "9" c = true -> c = "9"%char.
Proof.
  destruct c as [[] [] [] [] [] [] [] []]; vm_compute; intros H;
    first [reflexivity | discriminate H].
Qed.

Lemma one_matches c : Re.char_is true "1" c = true -> c = "1"%char.
Proof.
  destruct c as [[] [] [] [] [] [] [] []]; vm_compute; intros H;
    first [reflexivity | discriminate H].
Qed.

Lemma six_to_nine_matches c :
  Re.atom_matches true (Re.OneOf [Re.Range "6" "9"]) c = true ->
  Py.between 54 57 c = true.
Proof.
  destruct c as [[] [] [] [] [] [] [] []]; vm_compute; intros H;
    first [reflexivity | discriminate H].
Qed.

Lemma six_to_nine_digit c : Py.between 54 57 c = true -> digit_class c = true.
Proof.
  destruct c as [[] [] [] [] [] [] [] []]; vm_compute; intros H;
    first [reflexivity | discriminate H].
Qed.

Lemma optional_separator_accepts (w : string) :
  accepts true (Re.Opt (Re.One Extractor.space_or_dash)) w -> optional_separator w.
Proof.
  cbn [accepts]. intros [->|(c & -> & Hc)]; [left; reflexivity|].
  right. exists c. split; [reflexivity|]. apply separator_matches, Hc.
Qed.

(* A word of the phone pattern: [strip] leaves it alone, and it is ten
   digits behind an optional country code. *)
Lemma phone_word (w : string) :
  accepts true Extractor.phone_pattern w ->
  Py.strip w = w /\
  exists prefix number,
    w = prefix +:+ number /\ mobile_number number /\
    (prefix = "" \/
     exists sep, prefix = "+91" +:+ sep /\ optional_separator sep).
Proof.
  intros Hw. unfold Extractor.phone_pattern in Hw. cbn [accepts] in Hw.
  destruct Hw as (w1 & w2 & -> & -> & pre & w3 & -> & Hpre
                  & w4 & w5 & -> & (c & -> & Hc) & d & w6 & -> & Hd & ->).
  apply six_to_nine_matches in Hc. apply digits_exact_run in Hd as [Hdlen Hd].
  rewrite append_empty_l, append_empty_r.
  assert (mobile_number (String c "" +:+ d)) as Hnumber.
  { rewrite append_cons, append_empty_l. unfold mobile_number.
    cbn [String.length]. rewrite Hdlen. split; [reflexivity|]. exists c, d. auto. }
  assert (Py.rstrip (pre +:+ String c "" +:+ d) = pre +:+ String c "" +:+ d) as Hr.
  { apply rstrip_digits; [rewrite append_cons; discriminate|].
    rewrite append_cons, append_empty_l. cbn [Py.all_chars].
    rewrite (six_to_nine_digit _ Hc), Hd. reflexivity. }
  destruct Hpre as [->|(p & w7 & -> & (x & -> & Hx) & n & w8 & -> & (y & -> & Hy)
                       & o & sep & -> & (z & -> & Hz) & Hsep)].
  - split; [|exists "", (String c "" +:+ d); auto].
    apply strip_id; [|exact Hr].
    rewrite append_empty_l.
    apply lstrip_append_first, digit_class_not_space, six_to_nine_digit, Hc.
  - cbn [Re.atom_matches] in Hx, Hy, Hz.
    apply plus_matches in Hx as ->. apply nine_matches in Hy as ->.
    apply one_matches in Hz as ->. apply optional_separator_accepts in Hsep.
    split.
    + apply strip_id; [|exact Hr].
      rewrite !append_cons. apply lstrip_first. reflexivity.
    + eexists _, (String c "" +:+ d). split; [reflexivity|].
      split; [exact Hnumber|]. right. exists sep. split; [reflexivity|exact Hsep].
Qed.

(** X16: the phone number of a fresh extractor, when there is one, is ten
    characters, one of 6, 7, 8, 9 and then nine that [\d] accepts, alone
    or behind [+91] and at most one whitespace character or hyphen. *)
Theorem phone_is_mobile_number (bert : option qa_pipeline) (text v : string) :
  Extractor.extract_structured_data bert text ∅ !! "phone" = Some v ->
  exists prefix number,
    v = prefix +:+ number /\ mobile_number number /\
    (prefix = "" \/
     exists sep, prefix = "+91" +:+ sep /\ optional_separator sep).
Proof.
  intros Hv.
  destruct (regex_field_accepts bert text "phone" Extractor.phone_pattern v)
    as (w & Hw & ->); [cbn; tauto | exact Hv |].
  destruct (phone_word w Hw) as [-> Hshape]. exact Hshape.
Qed.

Lemma phone_is_mobile_number_witness :
  Extractor.extract_structured_data None "tel+91-9876543210 now" ∅ !! "phone"
    = Some "+91-9876543210" /\
  exists prefix number,
    "+91-9876543210" = prefix +:+ number /\ mobile_number number /\
    (prefix = "" \/
     exists sep, prefix = "+91" +:+ sep /\ optional_separator sep).
Proof.
  assert (Extractor.extract_structured_data None "tel+91-9876543210 now" ∅ !! "phone"
          = Some "+91-9876543210") as H by (vm_compute; reflexivity).
  split; [exact H|].
  apply (phone_is_mobile_number None "tel+91-9876543210 now" "+91-9876543210" H).
Defined.

Lemma advance_split i :
  forall prev s,
    Re.advance i prev s = (prev, s) \/
    exists pre c,
      s = pre +:+ String c (snd (Re.advance i prev s)) /\
      fst (Re.advance i prev s) = Some c.
Proof.
  induction i as [|i IH]; intros prev s; [left; reflexivity|].
  destruct s as [|c s]; [left; reflexivity|]. right. cbn [Re.advance].
  destruct (IH (Some c) s) as [E|(pre & c' & Hs & Hp)].
  - rewrite E. exists "", c. split; reflexivity.
  - exists (String c pre), c'. rewrite append_cons, <- Hs. auto.
Qed.

Lemma take_first n c s x rest :
  Py.take n (String c s) = String x rest -> c = x.
Proof. destruct n; cbn [Py.take]; congruence. Qed.

(** X17: the country code is part of the phone number only behind a word
    character: a phone value that starts with [+] stands in the text
    directly behind a character that [\w] accepts.  Behind a blank, or at
    the start of the text, [+91] is left out of the value. *)
Theorem phone_country_code_needs_word_before (bert : option qa_pipeline)
    (text v rest : string) :
  Extractor.extract_structured_data bert text ∅ !! "phone" = Some v ->
  v = String "+" rest ->
  exists before c after,
    text = before +:+ String c (v +:+ after) /\ Py.is_word c = true.
Proof.
  intros Hv Hplus.
  rewrite (regex_field_lookup bert text ∅ "phone" Extractor.phone_pattern) in Hv
    by (cbn; tauto).
  rewrite findall_head in Hv.
  destruct (Re.search_in true Extractor.phone_pattern None text) as [[i n]|] eqn:Hs;
    [|rewrite lookup_empty in Hv; discriminate].
  pose proof (search_in_accepts _ _ _ _ _ _ Hs) as Hw.
  apply phone_word in Hw as [Hstrip _]. cbn [head] in Hv. rewrite Hstrip in Hv.
  injection Hv as Hv.
  apply search_in_leftmost in Hs as [Hm _].
  destruct (advance_split i None text) as [E|(before & c & Htext & Hp)].
  - rewrite E in Hm, Hv. cbn [snd] in Hv.
    destruct text as [|x text]; [destruct n; subst v; discriminate|].
    rewrite Hplus in Hv. apply take_first in Hv as ->.
    unfold Re.match_here, Extractor.phone_pattern in Hm. cbn [Re.run] in Hm.
    cbn in Hm. discriminate.
  - destruct (Re.advance i None text) as [p s1]. cbn [fst snd] in *. subst p.
    destruct (take_prefix n s1) as [after Hs1]. rewrite Hv in Hs1.
    exists before, c, after. split; [rewrite <- Hs1; exact Htext|].
    destruct s1 as [|x s1]; [destruct n; subst v; discriminate|].
    rewrite Hplus in Hv. apply take_first in Hv as ->.
    unfold Re.match_here, Extractor.phone_pattern in Hm. cbn [Re.run] in Hm.
    destruct (Re.boundary (Some c) (String "+" s1)) eqn:Hb; [|discriminate].
    unfold Re.boundary in Hb. cbn [Re.word_at Re.next_char] in Hb.
    change (Py.is_word "+") with false in Hb. rewrite xorb_false_r in Hb. exact Hb.
Qed.

Lemma phone_country_code_needs_word_before_witness :
  Extractor.extract_structured_data None "tel+91-9876543210 now" ∅ !! "phone"
    = Some "+91-9876543210" /\
  exists before c after,
    "tel+91-9876543210 now" = before +:+ String c ("+91-9876543210" +:+ after) /\
    Py.is_word c = true.
Proof.
  assert (Extractor.extract_structured_data None "tel+91-9876543210 now" ∅ !! "phone"
          = Some "+91-9876543210") as H by (vm_compute; reflexivity).
  split; [exact H|].
  apply (phone_country_code_needs_word_before None "tel+91-9876543210 now"
           "+91-9876543210" "91-9876543210" H eq_refl).
Defined.

Lemma four_digits_accepts (w : string) :
  accepts true (Re.Repeat Extractor.digit 4 (Some 4)) w -> four_digits w.
Proof. intros H. apply digits_exact_run in H. exact H. Qed.

(** X18: the Aadhaar number of a fresh extractor, when there is one, is
    three groups of four characters that [\d] accepts, with nothing or one
    whitespace character or hyphen between two groups. *)
Theorem aadhaar_is_three_groups (bert : option qa_pipeline) (text v : string) :
  Extractor.extract_structured_data bert text ∅ !! "aadhaar" = Some v ->
  exists g1 sep1 g2 sep2 g3,
    v = g1 +:+ sep1 +:+ g2 +:+ sep2 +:+ g3 /\
    four_digits g1 /\ optional_separator sep1 /\
    four_digits g2 /\ optional_separator sep2 /\
    four_digits g3.
Proof.
  intros Hv.
  destruct (regex_field_accepts bert text "aadhaar" Extractor.aadhaar_pattern v)
    as (w & Hw & ->); [cbn; tauto | exact Hv |].
  unfold Extractor.aadhaar_pattern in Hw. cbn [accepts] in Hw.
  destruct Hw as (w1 & w2 & -> & -> & g1 & w3 & -> & H1 & sep1 & w4 & -> & Hs1
                  & g2 & w5 & -> & H2 & sep2 & w6 & -> & Hs2
                  & g3 & w7 & -> & H3 & ->).
  apply four_digits_accepts in H1, H2, H3.
  assert (optional_separator sep1) as Hsep1 by (apply optional_separator_accepts, Hs1).
  assert (optional_separator sep2) as Hsep2 by (apply optional_separator_accepts, Hs2).
  rewrite append_empty_l, append_empty_r.
  exists g1, sep1, g2, sep2, g3. split; [|auto 10].
  apply strip_id.
  - destruct H1 as [Hlen Hall]. destruct g1 as [|c g1]; [discriminate|].
    cbn [Py.all_chars] in Hall. apply andb_true_iff in Hall as [Hc _].
    apply lstrip_append_first, digit_class_not_space, Hc.
  - destruct H3 as [Hlen Hall]. rewrite <- !append_assoc.
    apply rstrip_digits; [intros ->; discriminate | exact Hall].
Qed.

Lemma aadhaar_is_three_groups_witness :
  Extractor.extract_structured_data None "No 1234 5678-9012 ." ∅ !! "aadhaar"
    = Some "1234 5678-9012" /\
  exists g1 sep1 g2 sep2 g3,
    "1234 5678-9012" = g1 +:+ sep1 +:+ g2 +:+ sep2 +:+ g3 /\
    four_digits g1 /\ optional_separator sep1 /\
    four_digits g2 /\ optional_separator sep2 /\
    four_digits g3.
Proof.
  assert (Extractor.extract_structured_data None "No 1234 5678-9012 ." ∅ !! "aadhaar"
          = Some "1234 5678-9012") as H by (vm_compute; reflexivity).
  split; [exact H|].
  apply (aadhaar_is_three_groups None "No 1234 5678-9012 ." "1234 5678-9012" H).
Defined.

(** ** The navigation of the persistent session *)

Section Navigation.

Context {D : driver}.

Lemma emits_whatever {A} (m : M D A) (Q : outcome A -> list event -> Prop) :
  logs_only (fun _ => True) m -> (forall r l, Q r l) -> emits m Q.
Proof. intros Hm HQ. eapply emits_conseq; [exact Hm|]. intros r l _. apply HQ. Qed.

Lemma sync_question_step_logs data q :
  logs_only (fun _ => True) (@FormFillerSync.question_step D data q).
Proof.
  apply (logs_only_weaken (fun e => closes e = false)); [auto|].
  apply logs_sync_question_step.
Qed.

(* Once the page is created, the first call of the session is the
   navigation to the rewritten address. *)
Lemma sync_fill_form_navigates fuel url data :
  emits (@FormFillerSync.fill_form D fuel url data)
    (fun _ l =>
       existsb page_created l = true ->
       exists ok, In (Event (Goto (FormFillerSync.viewform_url url)) ok) l).
Proof.
  pose proof (@sync_question_step_logs data) as Hq.
  unfold FormFillerSync.fill_form. cbv zeta.
  apply emits_try_wp.
  apply emits_bind_wp, emits_perform;
    [intros _ | apply emits_throw; cbn; discriminate].
  apply emits_bind_wp, emits_perform;
    [intros _ | apply emits_throw; cbn; discriminate].
  apply emits_bind_wp, emits_perform;
    [intros _ | apply emits_throw; cbn; discriminate].
  apply emits_bind_wp, emits_perform;
    [intros _ | apply emits_throw; cbn; discriminate].
  assert (forall tail ok,
            existsb page_created
              ([Event StartPlaywright true] ++ [Event (Launch false) true] ++
               [Event NewContext true] ++ [Event NewPage true] ++
               [Event (Goto (FormFillerSync.viewform_url url)) ok] ++ tail) = true ->
            exists ok',
              In (Event (Goto (FormFillerSync.viewform_url url)) ok')
                ([Event StartPlaywright true] ++ [Event (Launch false) true] ++
                 [Event NewContext true] ++ [Event NewPage true] ++
                 [Event (Goto (FormFillerSync.viewform_url url)) ok] ++ tail)) as Hthere.
  { intros tail ok _. exists ok. cbn [app]. do 4 right. left. reflexivity. }
  apply emits_try_wp, emits_bind_wp, emits_perform.
  - intros _. apply emits_whatever; [logs_tac'|].
    intros [a| |] l2.
    + apply Hthere.
    + apply emits_whatever; [logs_tac'|]. intros [a| |] l3.
      * rewrite <- app_assoc. apply Hthere.
      * apply emits_throw. rewrite app_nil_r, <- app_assoc. apply Hthere.
      * rewrite <- app_assoc. apply Hthere.
    + apply Hthere.
  - apply emits_whatever; [logs_tac'|]. intros [a| |] l3.
    + apply Hthere.
    + apply emits_throw. rewrite app_nil_r. apply Hthere.
    + apply Hthere.
Qed.

End Navigation.

(** C10: the persistent fill session navigates to the address with each
    [/preview] replaced by [/viewform]: once the page is created that
    navigation is made, and the session makes no navigation to any other
    address.  The address navigated to never contains [/preview], and it
    is the given address when that one has no [/preview]. *)
Theorem fill_form_opens_viewform (D : driver) fuel url data (s : state D) :
  let target :=
    if Py.contains "/preview" url then Py.replace "/preview" "/viewform" url else url in
  exists l,
    st_log (snd (FormFillerSync.fill_form fuel url data s)) = st_log s ++ l /\
    (existsb page_created l = true -> exists ok, In (Event (Goto target) ok) l) /\
    (forall u ok, In (Event (Goto u) ok) l -> u = target) /\
    Py.contains "/preview" target = false /\
    (Py.contains "/preview" url = false -> target = url).
Proof.
  cbv zeta. change (if Py.contains "/preview" url
                    then Py.replace "/preview" "/viewform" url else url)
    with (FormFillerSync.viewform_url url).
  pose proof (emits_and _ _ _ (@sync_fill_form_navigates D fuel url data)
                (@sync_fill_form_goes_to D fuel url data)) as H.
  destruct (H s) as (l & Hl & Hnav & Hall).
  exists l. split; [exact Hl|]. split; [exact Hnav|]. split; [|split].
  - intros u ok Hin. rewrite List.Forall_forall in Hall.
    specialize (Hall _ Hin). exact Hall.
  - apply viewform_url_no_preview.
  - intros Hno. unfold FormFillerSync.viewform_url. rewrite Hno. reflexivity.
Qed.

Lemma fill_form_opens_viewform_witness :
  exists ok,
    In (Event (Goto "https://docs.google.com/forms/d/e/abc/viewform") ok)
      (st_log (snd (FormFillerSync.fill_form 3
                      "https://docs.google.com/forms/d/e/abc/preview"
                      phone_only (start phone_page)))).
Proof.
  destruct (fill_form_opens_viewform (scripted phone_page) 3
              "https://docs.google.com/forms/d/e/abc/preview" phone_only
              (start phone_page)) as (l & Hl & Hnav & _).
  rewrite Hl. cbn [start st_log app]. apply Hnav.
  cbn [start st_log app] in Hl. rewrite <- Hl. vm_compute. reflexivity.
Defined.
